(** * Verification of the recording-processing pipeline (processing/tasks.py)

    A shallow embedding of the Celery tasks of [processing/tasks.py] and of
    the Django models they touch ([recordings/models.py],
    [processing/models.py], [analysis/models.py]).

    The tasks are stateful and fallible: they read and write database rows,
    local scratch files and the work queue, and they raise.  They are
    embedded in a state-and-exception monad over a [World]; everything the
    source obtains from outside (settings, the wall clock, the object store,
    ffmpeg, the speech-to-text and generative-text services, the broker) is
    an oracle of the environment [Env] of one task attempt. *)

From Stdlib Require Import List ZArith NArith Bool String Ascii Lia.
From Stdlib Require Import DecimalString DecimalZ DecimalPos Permutation.
From Stdlib Require Import PrimFloat.
Import ListNotations.

Set Implicit Arguments.

(* ===================================================================== *)
(** * Python strings *)
(* ===================================================================== *)

(** A Python [str] is a sequence of Unicode code points. *)
Module PyStr.

Definition char := N.
Definition str := list char.

(** A string literal of the source (ASCII), as code points. *)
Definition lit (s : string) : str := map N_of_ascii (list_ascii_of_string s).
Arguments lit s%_string.

Definition str_eq_dec : forall a b : str, {a = b} + {a <> b} :=
  list_eq_dec N.eq_dec.

Definition str_eqb (a b : str) : bool :=
  if str_eq_dec a b then true else false.

(** [bool(s)]: a string is truthy when it is not empty. *)
Definition truthy (s : str) : bool :=
  match s with [] => false | _ :: _ => true end.

(** [str.isspace] on one code point: CPython's [_PyUnicode_IsWhitespace]. *)
Definition isspace (c : char) : bool :=
  ((9 <=? c) && (c <=? 13) || (28 <=? c) && (c <=? 31) || (c =? 32)
   || (c =? 133) || (c =? 160) || (c =? 5760)
   || (8192 <=? c) && (c <=? 8202) || (c =? 8232) || (c =? 8233)
   || (c =? 8239) || (c =? 8287) || (c =? 12288))%N.

(** ASCII decimal digits; [str.isdigit] of the interpreter agrees with this
    on ASCII and accepts further Unicode digits according to its Unicode
    database, which is part of the environment (see [Env]). *)
Definition ascii_isdigit (c : char) : bool := ((48 <=? c) && (c <=? 57))%N.

Fixpoint lstrip (s : str) : str :=
  match s with
  | [] => []
  | c :: r => if isspace c then lstrip r else s
  end.

Definition rstrip (s : str) : str := rev (lstrip (rev s)).

(** [s.strip()] *)
Definition strip (s : str) : str := rstrip (lstrip s).

(** [s.split(sep)] for a one-character separator: never returns the empty
    list, [''.split(sep) == ['']]. *)
Fixpoint split (sep : char) (s : str) : list str :=
  match s with
  | [] => [[]]
  | c :: r =>
      if (c =? sep)%N then [] :: split sep r
      else match split sep r with
           | [] => [[c]]
           | l :: ls => (c :: l) :: ls
           end
  end.

(** [s.split()]: the maximal runs of non-whitespace. [cur] is the run being
    read, reversed. *)
Fixpoint split_ws_from (cur : str) (s : str) : list str :=
  match s with
  | [] => match cur with [] => [] | _ => [rev cur] end
  | c :: r =>
      if isspace c
      then match cur with
           | [] => split_ws_from [] r
           | _ => rev cur :: split_ws_from [] r
           end
      else split_ws_from (c :: cur) r
  end.

Definition split_ws (s : str) : list str := split_ws_from [] s.

(** [s.startswith(p)] *)
Fixpoint startswith (s p : str) : bool :=
  match p, s with
  | [], _ => true
  | _ :: _, [] => false
  | a :: p', b :: s' => (a =? b)%N && startswith s' p'
  end.

(** [sep.join(parts)] *)
Fixpoint join (sep : str) (parts : list str) : str :=
  match parts with
  | [] => []
  | [p] => p
  | p :: ps => p ++ sep ++ join sep ps
  end.

(** [str(n)] for an [int]. *)
Definition of_int (n : Z) : str := lit (NilZero.string_of_int (Z.to_int n)).

Definition newline : char := 10%N.
Definition bullet : char := 8226%N.   (* U+2022 *)

End PyStr.
Import PyStr.

(* ===================================================================== *)
(** * Data model (the Django models) *)
(* ===================================================================== *)

(** [datetime] values are microseconds since the epoch; [FloatField] values
    and [time.time()] are binary64 floats. Rows created with a random
    [uuid.uuid4] key draw it from a counter; a Recording's key is its
    canonical string form, the form in which the tasks receive it. *)
Definition datetime := Z.
Definition float := PrimFloat.float.
Definition uuid := N.

(** [ProcessingJob.STATUS_CHOICES] and [ProcessingStep.STATUS_CHOICES]. *)
Inductive Status := pending | running | completed | failed.

(** [Recording.STATUS_CHOICES]. *)
Inductive RecordingStatus :=
  rec_uploading | rec_uploaded | rec_processing | rec_completed | rec_failed.

(** [ProcessingStep.STEP_CHOICES]. *)
Inductive StepName :=
  video_conversion | audio_extraction | speech_to_text | ai_analysis.

(** [RecordingFile.FILE_TYPE_CHOICES]. *)
Inductive FileType := original_webm | converted_mp4 | audio_extract.

(** [AIAnalysis.ANALYSIS_TYPE_CHOICES]. *)
Inductive AnalysisType := summary | action_items | key_points | sentiment.

Definition Status_eqb (a b : Status) : bool :=
  match a, b with
  | pending, pending | running, running
  | completed, completed | failed, failed => true
  | _, _ => false
  end.

Definition StepName_eqb (a b : StepName) : bool :=
  match a, b with
  | video_conversion, video_conversion | audio_extraction, audio_extraction
  | speech_to_text, speech_to_text | ai_analysis, ai_analysis => true
  | _, _ => false
  end.

Definition FileType_eqb (a b : FileType) : bool :=
  match a, b with
  | original_webm, original_webm | converted_mp4, converted_mp4
  | audio_extract, audio_extract => true
  | _, _ => false
  end.

Definition AnalysisType_eqb (a b : AnalysisType) : bool :=
  match a, b with
  | summary, summary | action_items, action_items
  | key_points, key_points | sentiment, sentiment => true
  | _, _ => false
  end.

(** recordings.Recording. The columns filled in by the upload API (user,
    title, quality, fps, file name and size, codec, ...) are never read or
    written by the tasks; they travel together as [rec_upload]. *)
Record Recording := {
  rec_id : str;
  rec_upload : str;
  rec_status : RecordingStatus;
  rec_error_message : str;
  rec_created_at : datetime;
  rec_updated_at : datetime;          (* auto_now *)
  rec_completed_at : option datetime
}.

(** recordings.RecordingFile, unique on (recording, file_type). *)
Record RecordingFile := {
  rf_id : uuid;
  rf_recording : str;
  rf_file_type : FileType;
  rf_s3_key : str;
  rf_s3_bucket : str;
  rf_file_size_bytes : Z;
  rf_created_at : datetime
}.

(** processing.ProcessingJob, one-to-one with its recording. *)
Record ProcessingJob := {
  job_id : uuid;
  job_recording : str;
  job_status : Status;
  job_current_step : str;
  job_progress_percentage : Z;
  job_celery_task_id : uuid;
  job_error_message : str;
  job_retry_count : Z;
  job_max_retries : Z;
  job_created_at : datetime;
  job_started_at : option datetime;
  job_completed_at : option datetime
}.

(** processing.ProcessingStep, unique on (job, step_name).
    [duration_seconds] is kept as the exact difference of the two
    timestamps, in microseconds. [metadata] is a JSON object with integer
    values. *)
Record ProcessingStep := {
  step_id : uuid;
  step_job : uuid;
  step_name : StepName;
  step_status : Status;
  step_input_file : str;
  step_output_file : str;
  step_started_at : option datetime;
  step_completed_at : option datetime;
  step_duration_seconds : option Z;
  step_error_message : str;
  step_error_traceback : str;
  step_metadata : list (str * Z);
  step_created_at : datetime
}.

(** What the speech-to-text service answers. *)
Record Word := {
  w_word : str; w_start : float; w_end : float; w_confidence : float
}.

Record Utterance := {
  u_start : float;
  u_end : float;
  u_transcript : str;
  u_confidence : float;
  u_speaker : Z;
  u_words : option (list Word)
}.

(** An alternative of a channel, as the SDK returns it: an object with the
    attributes [transcript] and [confidence] (and [words], [paragraphs], ...,
    which the task does not read). It has no attribute [utterances]: the
    utterances of a response are at [response.results.utterances].
    [alt_class] is the name of the object's class, which the interpreter
    puts in the text of an AttributeError. *)
Record Alternative := {
  alt_class : str;
  alt_transcript : str;
  alt_confidence : float
}.

Record DeepgramResponse := {
  dg_channels : list (list Alternative);     (* results.channels[i].alternatives *)
  dg_utterances : option (list Utterance);   (* results.utterances *)
  dg_language : option str;                  (* metadata.language, when present *)
  dg_duration : float                        (* metadata.duration *)
}.

(** analysis.Transcription, one-to-one with its recording. *)
Record Transcription := {
  tr_id : uuid;
  tr_recording : str;
  tr_full_text : str;
  tr_confidence_score : float;
  tr_language_detected : str;
  tr_num_speakers : Z;
  tr_audio_duration_seconds : float;
  tr_processing_time_seconds : float;
  tr_deepgram_response : DeepgramResponse;
  tr_created_at : datetime
}.

(** analysis.TranscriptionSegment. *)
Record TranscriptionSegment := {
  seg_id : uuid;
  seg_transcription : uuid;
  seg_start_time_seconds : float;
  seg_end_time_seconds : float;
  seg_text : str;
  seg_confidence_score : float;
  seg_speaker_id : option Z;
  seg_speaker_label : str;
  seg_words : list Word;
  seg_created_at : datetime
}.

(** The JSON payloads stored in [AIAnalysis.result_data]. *)
Inductive ResultData :=
| SummaryData (summary_text : str) (word_count : nat)
| ActionItemsData (items : list str) (total_count : nat)
| KeyPointsData (points : list str) (total_count : nat)
| SentimentData (analysis : str).

(** analysis.AIAnalysis, unique on (recording, analysis_type).
    [gemini_response] is always the empty object in this code. *)
Record AIAnalysis := {
  ai_id : uuid;
  ai_recording : str;
  ai_analysis_type : AnalysisType;
  ai_result_data : ResultData;
  ai_result_text : str;
  ai_model_version : str;
  ai_tokens_used : Z;
  ai_processing_time_seconds : float;
  ai_created_at : datetime
}.

(** What the generative-text service answers: [response.text] and
    [response.usage_metadata.total_token_count], when the attribute exists. *)
Record GeminiResponse := {
  g_text : str;
  g_usage_metadata : option Z
}.

(** The dict each analysis helper returns. *)
Record AnalysisResult := {
  res_data : ResultData;
  res_text : str;
  res_time : float;
  res_tokens : Z
}.

(* ===================================================================== *)
(** * Exceptions *)
(* ===================================================================== *)

Inductive exn :=
| Exception (msg : str)                (* raise Exception(msg) in the source *)
| DoesNotExist (model : str)           (* Model.DoesNotExist of a [get] *)
| RelatedObjectDoesNotExist (model accessor : str)
                                       (* of a reverse one-to-one accessor *)
| MultipleObjectsReturned (model : str)
| IntegrityError (constraint : str)    (* a unique constraint refused an insert *)
| FileNotFoundError (path : str)
| IndexError
| UnboundLocalError (name : str)
| TypeError (msg : str)
| AttributeError (msg : str)
| External (msg : str)                 (* raised by an external collaborator *)
| Retry (exc : exn) (countdown : nat)  (* celery.exceptions.Retry *)
| Reject (exc : exn).                  (* celery.exceptions.Reject(exc, requeue=False) *)

(** [str(exc)]. The text of [Exception(msg)], of a TypeError, of an
    AttributeError and of an external error is the message itself. A
    [get] without a row says "<Model> matching query does not exist.", a
    reverse one-to-one accessor without a row "<Model> has no <accessor>.".
    The text of an IntegrityError is the database driver's and names the
    columns of the constraint. The texts of [Retry] and [Reject] stand for
    the real ones, which quote their cause; no task reads them, since both
    leave the task from [self.retry]. *)
Fixpoint exc_str (e : exn) : str :=
  match e with
  | Exception msg => msg
  | DoesNotExist model => model ++ lit " matching query does not exist."
  | RelatedObjectDoesNotExist model accessor =>
      model ++ lit " has no " ++ accessor ++ lit "."
  | MultipleObjectsReturned model => lit "get() returned more than one " ++ model
  | IntegrityError c => lit "UNIQUE constraint failed: " ++ c
  | FileNotFoundError p => lit "[Errno 2] No such file or directory: '" ++ p ++ lit "'"
  | IndexError => lit "list index out of range"
  | UnboundLocalError n => lit "local variable '" ++ n ++ lit "' referenced before assignment"
  | TypeError msg => msg
  | AttributeError msg => msg
  | External msg => msg
  | Retry exc cd => lit "Retry in " ++ of_int (Z.of_nat cd) ++ lit "s: " ++ exc_str exc
  | Reject exc => lit "(" ++ exc_str exc ++ lit ", False)"
  end.

Inductive result (A : Type) :=
| Ok (a : A)
| Raise (e : exn).
Arguments Ok {A} a.
Arguments Raise {A} e.

(* ===================================================================== *)
(** * The work queue (Celery) *)
(* ===================================================================== *)

Inductive Task :=
| T_process_recording_pipeline
| T_convert_webm_to_mp4
| T_extract_audio_from_video
| T_transcribe_audio
| T_analyze_transcription.

(** [task.s(args)]: a partial signature. *)
Record Signature := { sig_task : Task; sig_args : list str }.

(** A task message on the broker; also the [self.request] of the attempt
    that runs it. *)
Record Message := {
  msg_id : uuid;
  msg_task : Task;
  msg_args : list str;
  msg_retries : nat;
  msg_chain : list Signature;    (* the rest of the chain, next first *)
  msg_countdown : nat
}.

(** The decorator's [max_retries]. *)
Definition max_retries (t : Task) : nat :=
  match t with
  | T_process_recording_pipeline => 3
  | T_convert_webm_to_mp4 => 2
  | T_extract_audio_from_video => 2
  | T_transcribe_audio => 3
  | T_analyze_transcription => 3
  end.

(* ===================================================================== *)
(** * The world and the environment *)
(* ===================================================================== *)

Record Database := {
  recordings : list Recording;
  files : list RecordingFile;
  jobs : list ProcessingJob;
  steps : list ProcessingStep;
  transcriptions : list Transcription;
  segments : list TranscriptionSegment;
  analyses : list AIAnalysis
}.

(** Calls made to the external collaborators, latest last. *)
Inductive Call :=
| CallDownload (s3_key local_path : str)
| CallUpload (local_path s3_key : str)
| CallFfmpeg (command : list str)
| CallDeepgram (audio_path : str)
| CallGemini (model prompt : str).

Record World := {
  db : Database;
  next_pk : uuid;          (* next uuid4 *)
  tmp : list str;          (* paths of the local files that exist *)
  queue : list Message;    (* the broker, oldest first *)
  calls : list Call;
  ticks : nat              (* clock reads so far *)
}.

Record CompletedProcess := {
  returncode : Z;
  stderr : str;
  output_written : bool    (* did the process leave its output file behind *)
}.

(** Everything one task attempt gets from outside. *)
Record Env := {
  (* django.conf.settings *)
  AWS_STORAGE_BUCKET_NAME : str;
  DEEPGRAM_API_KEY : str;
  GEMINI_API_KEY : str;
  (* the clock: the value of the n-th read *)
  timezone_now : nat -> datetime;
  time_time : nat -> float;
  (* boto3: download_file(bucket, key, path), upload_fileobj(f, bucket, key) *)
  s3_download_file : str -> str -> str -> option exn;
  s3_upload_fileobj : str -> str -> str -> option exn;
  (* subprocess.run(command, ..., timeout=1800) *)
  subprocess_run : list str -> result CompletedProcess;
  os_path_getsize : str -> Z;
  (* deepgram.listen.rest.v("1").transcribe_file(payload, options) *)
  transcribe_file : str -> result DeepgramResponse;
  (* model.generate_content(prompt) *)
  generate_content : str -> str -> result GeminiResponse;
  (* publishing a chain to the broker *)
  broker_publish : Message -> option exn;
  (* str.isdigit of the interpreter's Unicode database *)
  unicode_isdigit : char -> bool
}.

(** The local variables a task's [except] block reads. *)
Record State := {
  world : World;
  var_step : option ProcessingStep;      (* step = None *)
  var_recording : option Recording       (* unbound until assigned *)
}.

(** ** Field updates *)

Definition with_recordings (l : list Recording) (d : Database) : Database :=
  {| recordings := l; files := files d; jobs := jobs d; steps := steps d;
     transcriptions := transcriptions d; segments := segments d;
     analyses := analyses d |}.

Definition with_files (l : list RecordingFile) (d : Database) : Database :=
  {| recordings := recordings d; files := l; jobs := jobs d; steps := steps d;
     transcriptions := transcriptions d; segments := segments d;
     analyses := analyses d |}.

Definition with_jobs (l : list ProcessingJob) (d : Database) : Database :=
  {| recordings := recordings d; files := files d; jobs := l; steps := steps d;
     transcriptions := transcriptions d; segments := segments d;
     analyses := analyses d |}.

Definition with_steps (l : list ProcessingStep) (d : Database) : Database :=
  {| recordings := recordings d; files := files d; jobs := jobs d; steps := l;
     transcriptions := transcriptions d; segments := segments d;
     analyses := analyses d |}.

Definition with_transcriptions (l : list Transcription) (d : Database) : Database :=
  {| recordings := recordings d; files := files d; jobs := jobs d;
     steps := steps d; transcriptions := l; segments := segments d;
     analyses := analyses d |}.

Definition with_segments (l : list TranscriptionSegment) (d : Database) : Database :=
  {| recordings := recordings d; files := files d; jobs := jobs d;
     steps := steps d; transcriptions := transcriptions d; segments := l;
     analyses := analyses d |}.

Definition with_analyses (l : list AIAnalysis) (d : Database) : Database :=
  {| recordings := recordings d; files := files d; jobs := jobs d;
     steps := steps d; transcriptions := transcriptions d;
     segments := segments d; analyses := l |}.

Definition with_db (d : Database) (w : World) : World :=
  {| db := d; next_pk := next_pk w; tmp := tmp w; queue := queue w;
     calls := calls w; ticks := ticks w |}.

Definition with_next_pk (n : uuid) (w : World) : World :=
  {| db := db w; next_pk := n; tmp := tmp w; queue := queue w;
     calls := calls w; ticks := ticks w |}.

Definition with_tmp (l : list str) (w : World) : World :=
  {| db := db w; next_pk := next_pk w; tmp := l; queue := queue w;
     calls := calls w; ticks := ticks w |}.

Definition with_queue (q : list Message) (w : World) : World :=
  {| db := db w; next_pk := next_pk w; tmp := tmp w; queue := q;
     calls := calls w; ticks := ticks w |}.

Definition with_calls (l : list Call) (w : World) : World :=
  {| db := db w; next_pk := next_pk w; tmp := tmp w; queue := queue w;
     calls := l; ticks := ticks w |}.

Definition with_ticks (n : nat) (w : World) : World :=
  {| db := db w; next_pk := next_pk w; tmp := tmp w; queue := queue w;
     calls := calls w; ticks := n |}.

Definition with_world (w : World) (s : State) : State :=
  {| world := w; var_step := var_step s; var_recording := var_recording s |}.

(* ===================================================================== *)
(** * The monad of a task body *)
(* ===================================================================== *)

(** A computation reads the environment, threads the state and either
    returns or raises. What was written before a raise stays written: the
    tasks run in autocommit mode, outside any transaction. *)
Definition M (A : Type) : Type := Env -> State -> result A * State.

Definition ret {A} (a : A) : M A := fun _ s => (Ok a, s).

Definition raise {A} (e : exn) : M A := fun _ s => (Raise e, s).

Definition bind {A B} (c : M A) (k : A -> M B) : M B :=
  fun env s =>
    match c env s with
    | (Ok a, s') => k a env s'
    | (Raise e, s') => (Raise e, s')
    end.

Declare Scope task_scope.
Delimit Scope task_scope with task.
Notation "x <- c ;; k" := (bind c (fun x => k))
  (at level 61, c at next level, right associativity) : task_scope.
Notation "c ;; k" := (bind c (fun _ => k))
  (at level 61, right associativity) : task_scope.
Open Scope task_scope.

(** [try: body except Exception as exc: handler]. *)
Definition try_except {A} (body : M A) (handler : exn -> M A) : M A :=
  fun env s =>
    match body env s with
    | (Ok a, s') => (Ok a, s')
    | (Raise e, s') => handler e env s'
    end.

Definition ask : M Env := fun env s => (Ok env, s).
Definition get_world : M World := fun _ s => (Ok (world s), s).
Definition modify_world (f : World -> World) : M unit :=
  fun _ s => (Ok tt, with_world (f (world s)) s).
Definition modify_db (f : Database -> Database) : M unit :=
  modify_world (fun w => with_db (f (db w)) w).

(** Lift a pure [result]. *)
Definition lift {A} (r : result A) : M A := fun _ s => (r, s).

(** Assignment to, and reads of, the two locals the handlers use. *)
Definition assign_step (st : ProcessingStep) : M unit :=
  fun _ s => (Ok tt, {| world := world s; var_step := Some st;
                        var_recording := var_recording s |}).
Definition assign_recording (r : Recording) : M unit :=
  fun _ s => (Ok tt, {| world := world s; var_step := var_step s;
                        var_recording := Some r |}).
Definition read_step : M (option ProcessingStep) :=
  fun _ s => (Ok (var_step s), s).
Definition read_recording : M Recording :=
  fun _ s => match var_recording s with
             | Some r => (Ok r, s)
             | None => (Raise (UnboundLocalError (lit "recording")), s)
             end.

(** ** Clock, keys, call log *)

Definition tick : M nat :=
  fun _ s => (Ok (ticks (world s)),
              with_world (with_ticks (S (ticks (world s))) (world s)) s).

(** [timezone.now()] *)
Definition now : M datetime :=
  env <- ask ;; n <- tick ;; ret (timezone_now env n).

(** [time.time()] *)
Definition time : M float :=
  env <- ask ;; n <- tick ;; ret (time_time env n).

(** [uuid.uuid4()] *)
Definition uuid4 : M uuid :=
  fun _ s => (Ok (next_pk (world s)),
              with_world (with_next_pk (N.succ (next_pk (world s))) (world s)) s).

Definition log_call (c : Call) : M unit :=
  modify_world (fun w => with_calls (calls w ++ [c]) w).

(** ** Local files *)

Definition exists_file (path : str) (w : World) : bool :=
  existsb (str_eqb path) (tmp w).

(** Writing a local file creates it or replaces it. *)
Definition write_file (path : str) : M unit :=
  modify_world (fun w =>
    with_tmp (path :: filter (fun p => negb (str_eqb path p)) (tmp w)) w).

(** [os.remove(path)] *)
Definition os_remove (path : str) : M unit :=
  w <- get_world ;;
  if exists_file path w
  then modify_world
         (fun w => with_tmp (filter (fun p => negb (str_eqb path p)) (tmp w)) w)
  else raise (FileNotFoundError path).

(** [os.path.getsize(path)] *)
Definition getsize (path : str) : M Z :=
  env <- ask ;; w <- get_world ;;
  if exists_file path w then ret (os_path_getsize env path)
  else raise (FileNotFoundError path).

(** [subprocess.run(command, capture_output=True, text=True, timeout=1800)];
    the output file of an ffmpeg command is its last argument. *)
Definition subprocess_run_ (command : list str) : M CompletedProcess :=
  env <- ask ;;
  log_call (CallFfmpeg command) ;;
  cp <- lift (subprocess_run env command) ;;
  (if output_written cp then write_file (last command []) else ret tt) ;;
  ret cp.

(** ** The object store *)

(** [download_from_s3(s3_key, local_path)] *)
Definition download_from_s3 (s3_key local_path : str) : M unit :=
  env <- ask ;;
  log_call (CallDownload s3_key local_path) ;;
  match s3_download_file env (AWS_STORAGE_BUCKET_NAME env) s3_key local_path with
  | None => write_file local_path
  | Some e => raise e
  end.

(** [upload_to_s3(local_path, s3_key)]: opens the local file, then uploads. *)
Definition upload_to_s3 (local_path s3_key : str) : M str :=
  env <- ask ;; w <- get_world ;;
  if exists_file local_path w then
    log_call (CallUpload local_path s3_key) ;;
    match s3_upload_fileobj env local_path (AWS_STORAGE_BUCKET_NAME env) s3_key with
    | None => ret s3_key
    | Some e => raise e
    end
  else raise (FileNotFoundError local_path).

(* ===================================================================== *)
(** * The ORM *)
(* ===================================================================== *)

(** [QuerySet.get()] on the rows that match. *)
Definition get_one {A} (model : str) (rows : list A) : result A :=
  match rows with
  | [] => Raise (DoesNotExist model)
  | [x] => Ok x
  | _ :: _ :: _ => Raise (MultipleObjectsReturned model)
  end.

(** [Recording.objects.get(id=recording_id)] *)
Definition Recording_objects_get (recording_id : str) : M Recording :=
  w <- get_world ;;
  lift (get_one (lit "Recording")
          (filter (fun r => str_eqb (rec_id r) recording_id) (recordings (db w)))).

(** A reverse one-to-one accessor of a recording, [recording.<accessor>],
    on the rows of [model] that point to the recording: the related row, or
    [RelatedObjectDoesNotExist] when there is none. *)
Definition related_object {A} (accessor model : str) (rows : list A) : result A :=
  match rows with
  | [] => Raise (RelatedObjectDoesNotExist (lit "Recording") accessor)
  | [x] => Ok x
  | _ :: _ :: _ => Raise (MultipleObjectsReturned model)
  end.

(** [recording.processing_job] *)
Definition processing_job (recording : Recording) : M ProcessingJob :=
  w <- get_world ;;
  lift (related_object (lit "processing_job") (lit "ProcessingJob")
          (filter (fun j => str_eqb (job_recording j) (rec_id recording))
                  (jobs (db w)))).

(** [recording.transcription] *)
Definition transcription_of (recording : Recording) : M Transcription :=
  w <- get_world ;;
  lift (related_object (lit "transcription") (lit "Transcription")
          (filter (fun t => str_eqb (tr_recording t) (rec_id recording))
                  (transcriptions (db w)))).

(** [recording.files.get(file_type=ft)] *)
Definition files_get (recording : Recording) (ft : FileType) : M RecordingFile :=
  w <- get_world ;;
  lift (get_one (lit "RecordingFile")
          (filter (fun f => str_eqb (rf_recording f) (rec_id recording)
                            && FileType_eqb (rf_file_type f) ft)
                  (files (db w)))).

(** The [ordering = ['start_time_seconds']] of segments: rows in the float
    order of their start times, rows of equal start time in the order in
    which they were inserted. [insert_segment x l] puts [x], inserted before
    the rows of [l], in front of the first row that does not start
    earlier. *)
Fixpoint insert_segment (x : TranscriptionSegment) (l : list TranscriptionSegment)
  : list TranscriptionSegment :=
  match l with
  | [] => [x]
  | y :: r =>
      if PrimFloat.ltb (seg_start_time_seconds y) (seg_start_time_seconds x)
      then y :: insert_segment x r else x :: l
  end.

Definition order_by_start (l : list TranscriptionSegment) : list TranscriptionSegment :=
  fold_right insert_segment [] l.

(** [transcription.segments.all()] *)
Definition segments_all (t : Transcription) : M (list TranscriptionSegment) :=
  w <- get_world ;;
  ret (order_by_start
         (filter (fun sg => (seg_transcription sg =? tr_id t)%N) (segments (db w)))).

(** The unique constraints that an insert checks. *)
Definition job_conflict (recording_id : str) (rows : list ProcessingJob) : bool :=
  existsb (fun j => str_eqb (job_recording j) recording_id) rows.

Definition step_conflict (job : uuid) (name : StepName)
    (rows : list ProcessingStep) : bool :=
  existsb (fun s => (step_job s =? job)%N && StepName_eqb (step_name s) name)
          rows.

Definition file_conflict (recording_id : str) (ft : FileType)
    (rows : list RecordingFile) : bool :=
  existsb (fun f => str_eqb (rf_recording f) recording_id
                    && FileType_eqb (rf_file_type f) ft) rows.

Definition transcription_conflict (recording_id : str)
    (rows : list Transcription) : bool :=
  existsb (fun t => str_eqb (tr_recording t) recording_id) rows.

Definition analysis_conflict (recording_id : str) (ty : AnalysisType)
    (rows : list AIAnalysis) : bool :=
  existsb (fun a => str_eqb (ai_recording a) recording_id
                    && AnalysisType_eqb (ai_analysis_type a) ty) rows.

(** [ProcessingJob.objects.create(recording=, celery_task_id=, status=,
    started_at=)]: the key and [created_at] are drawn first, then the row is
    inserted, which the one-to-one constraint may refuse. *)
Definition ProcessingJob_objects_create
    (recording : Recording) (celery_task_id : uuid) (status : Status)
    (started_at : option datetime) : M ProcessingJob :=
  pk <- uuid4 ;;
  created <- now ;;
  w <- get_world ;;
  if job_conflict (rec_id recording) (jobs (db w))
  then raise (IntegrityError (lit "processing_processingjob.recording_id"))
  else
    let job := {| job_id := pk; job_recording := rec_id recording;
                  job_status := status; job_current_step := [];
                  job_progress_percentage := 0;
                  job_celery_task_id := celery_task_id;
                  job_error_message := []; job_retry_count := 0;
                  job_max_retries := 3; job_created_at := created;
                  job_started_at := started_at; job_completed_at := None |} in
    modify_db (fun d => with_jobs (jobs d ++ [job]) d) ;;
    ret job.

(** [ProcessingStep.objects.create(job=, step_name=, status=, started_at=)] *)
Definition ProcessingStep_objects_create
    (job : ProcessingJob) (name : StepName) (status : Status)
    (started_at : option datetime) : M ProcessingStep :=
  pk <- uuid4 ;;
  created <- now ;;
  w <- get_world ;;
  if step_conflict (job_id job) name (steps (db w))
  then raise (IntegrityError (lit "processing_processingstep.job_id, processing_processingstep.step_name"))
  else
    let st := {| step_id := pk; step_job := job_id job; step_name := name;
                 step_status := status; step_input_file := [];
                 step_output_file := []; step_started_at := started_at;
                 step_completed_at := None; step_duration_seconds := None;
                 step_error_message := []; step_error_traceback := [];
                 step_metadata := []; step_created_at := created |} in
    modify_db (fun d => with_steps (steps d ++ [st]) d) ;;
    ret st.

(** [RecordingFile.objects.create(recording=, file_type=, s3_key=,
    s3_bucket=, file_size_bytes=)] *)
Definition RecordingFile_objects_create
    (recording : Recording) (ft : FileType) (s3_key s3_bucket : str)
    (file_size_bytes : Z) : M RecordingFile :=
  pk <- uuid4 ;;
  created <- now ;;
  w <- get_world ;;
  if file_conflict (rec_id recording) ft (files (db w))
  then raise (IntegrityError (lit "recordings_recordingfile.recording_id, recordings_recordingfile.file_type"))
  else
    let f := {| rf_id := pk; rf_recording := rec_id recording;
                rf_file_type := ft; rf_s3_key := s3_key;
                rf_s3_bucket := s3_bucket;
                rf_file_size_bytes := file_size_bytes;
                rf_created_at := created |} in
    modify_db (fun d => with_files (files d ++ [f]) d) ;;
    ret f.

(** [Transcription.objects.create(...)] *)
Definition Transcription_objects_create
    (recording : Recording) (full_text : str) (confidence_score : float)
    (language_detected : str) (num_speakers : Z)
    (audio_duration_seconds processing_time_seconds : float)
    (deepgram_response : DeepgramResponse) : M Transcription :=
  pk <- uuid4 ;;
  created <- now ;;
  w <- get_world ;;
  if transcription_conflict (rec_id recording) (transcriptions (db w))
  then raise (IntegrityError (lit "analysis_transcription.recording_id"))
  else
    let t := {| tr_id := pk; tr_recording := rec_id recording;
                tr_full_text := full_text;
                tr_confidence_score := confidence_score;
                tr_language_detected := language_detected;
                tr_num_speakers := num_speakers;
                tr_audio_duration_seconds := audio_duration_seconds;
                tr_processing_time_seconds := processing_time_seconds;
                tr_deepgram_response := deepgram_response;
                tr_created_at := created |} in
    modify_db (fun d => with_transcriptions (transcriptions d ++ [t]) d) ;;
    ret t.

(** [TranscriptionSegment.objects.create(...)]: no unique constraint. *)
Definition TranscriptionSegment_objects_create
    (transcription : Transcription) (start_time_seconds end_time_seconds : float)
    (text : str) (confidence_score : float) (speaker_id : Z)
    (speaker_label : str) (words : list Word) : M TranscriptionSegment :=
  pk <- uuid4 ;;
  created <- now ;;
  let sg := {| seg_id := pk; seg_transcription := tr_id transcription;
               seg_start_time_seconds := start_time_seconds;
               seg_end_time_seconds := end_time_seconds;
               seg_text := text; seg_confidence_score := confidence_score;
               seg_speaker_id := Some speaker_id;
               seg_speaker_label := speaker_label; seg_words := words;
               seg_created_at := created |} in
  modify_db (fun d => with_segments (segments d ++ [sg]) d) ;;
  ret sg.

(** [AIAnalysis.objects.create(...)] *)
Definition AIAnalysis_objects_create
    (recording : Recording) (ty : AnalysisType) (result_data : ResultData)
    (result_text model_version : str) (tokens_used : Z)
    (processing_time_seconds : float) : M AIAnalysis :=
  pk <- uuid4 ;;
  created <- now ;;
  w <- get_world ;;
  if analysis_conflict (rec_id recording) ty (analyses (db w))
  then raise (IntegrityError (lit "analysis_aianalysis.recording_id, analysis_aianalysis.analysis_type"))
  else
    let a := {| ai_id := pk; ai_recording := rec_id recording;
                ai_analysis_type := ty; ai_result_data := result_data;
                ai_result_text := result_text;
                ai_model_version := model_version;
                ai_tokens_used := tokens_used;
                ai_processing_time_seconds := processing_time_seconds;
                ai_created_at := created |} in
    modify_db (fun d => with_analyses (analyses d ++ [a]) d) ;;
    ret a.

(** [Model.save()] of an object that has its key: the row with that key is
    overwritten with the object's fields; were there none, the object would
    be inserted. *)
Definition upsert {A} (same : A -> bool) (obj : A) (rows : list A) : list A :=
  if existsb same rows
  then map (fun r => if same r then obj else r) rows
  else rows ++ [obj].

(** [recording.save()]; [updated_at] is [auto_now]. *)
Definition Recording_save (r : Recording) : M Recording :=
  t <- now ;;
  let r' := {| rec_id := rec_id r; rec_upload := rec_upload r;
               rec_status := rec_status r;
               rec_error_message := rec_error_message r;
               rec_created_at := rec_created_at r; rec_updated_at := t;
               rec_completed_at := rec_completed_at r |} in
  modify_db (fun d =>
    with_recordings
      (upsert (fun x => str_eqb (rec_id x) (rec_id r')) r' (recordings d)) d) ;;
  ret r'.

(** [step.save()] *)
Definition ProcessingStep_save (st : ProcessingStep) : M unit :=
  modify_db (fun d =>
    with_steps (upsert (fun x => (step_id x =? step_id st)%N) st (steps d)) d).

(** [job.save()] *)
Definition ProcessingJob_save (j : ProcessingJob) : M unit :=
  modify_db (fun d =>
    with_jobs (upsert (fun x => (job_id x =? job_id j)%N) j (jobs d)) d).

(** Attribute assignments on model objects. *)
Definition set_rec_status (v : RecordingStatus) (r : Recording) : Recording :=
  {| rec_id := rec_id r; rec_upload := rec_upload r; rec_status := v;
     rec_error_message := rec_error_message r;
     rec_created_at := rec_created_at r; rec_updated_at := rec_updated_at r;
     rec_completed_at := rec_completed_at r |}.

Definition set_rec_error_message (v : str) (r : Recording) : Recording :=
  {| rec_id := rec_id r; rec_upload := rec_upload r; rec_status := rec_status r;
     rec_error_message := v;
     rec_created_at := rec_created_at r; rec_updated_at := rec_updated_at r;
     rec_completed_at := rec_completed_at r |}.

Definition set_rec_updated_at (v : datetime) (r : Recording) : Recording :=
  {| rec_id := rec_id r; rec_upload := rec_upload r; rec_status := rec_status r;
     rec_error_message := rec_error_message r;
     rec_created_at := rec_created_at r; rec_updated_at := v;
     rec_completed_at := rec_completed_at r |}.

Definition set_rec_completed_at (v : option datetime) (r : Recording) : Recording :=
  {| rec_id := rec_id r; rec_upload := rec_upload r; rec_status := rec_status r;
     rec_error_message := rec_error_message r;
     rec_created_at := rec_created_at r; rec_updated_at := rec_updated_at r;
     rec_completed_at := v |}.

Definition set_step_status (v : Status) (s : ProcessingStep) : ProcessingStep :=
  {| step_id := step_id s; step_job := step_job s; step_name := step_name s;
     step_status := v; step_input_file := step_input_file s;
     step_output_file := step_output_file s;
     step_started_at := step_started_at s;
     step_completed_at := step_completed_at s;
     step_duration_seconds := step_duration_seconds s;
     step_error_message := step_error_message s;
     step_error_traceback := step_error_traceback s;
     step_metadata := step_metadata s; step_created_at := step_created_at s |}.

Definition set_step_completed_at (v : option datetime) (s : ProcessingStep)
  : ProcessingStep :=
  {| step_id := step_id s; step_job := step_job s; step_name := step_name s;
     step_status := step_status s; step_input_file := step_input_file s;
     step_output_file := step_output_file s;
     step_started_at := step_started_at s;
     step_completed_at := v;
     step_duration_seconds := step_duration_seconds s;
     step_error_message := step_error_message s;
     step_error_traceback := step_error_traceback s;
     step_metadata := step_metadata s; step_created_at := step_created_at s |}.

Definition set_step_duration_seconds (v : option Z) (s : ProcessingStep)
  : ProcessingStep :=
  {| step_id := step_id s; step_job := step_job s; step_name := step_name s;
     step_status := step_status s; step_input_file := step_input_file s;
     step_output_file := step_output_file s;
     step_started_at := step_started_at s;
     step_completed_at := step_completed_at s;
     step_duration_seconds := v;
     step_error_message := step_error_message s;
     step_error_traceback := step_error_traceback s;
     step_metadata := step_metadata s; step_created_at := step_created_at s |}.

Definition set_step_output_file (v : str) (s : ProcessingStep) : ProcessingStep :=
  {| step_id := step_id s; step_job := step_job s; step_name := step_name s;
     step_status := step_status s; step_input_file := step_input_file s;
     step_output_file := v;
     step_started_at := step_started_at s;
     step_completed_at := step_completed_at s;
     step_duration_seconds := step_duration_seconds s;
     step_error_message := step_error_message s;
     step_error_traceback := step_error_traceback s;
     step_metadata := step_metadata s; step_created_at := step_created_at s |}.

Definition set_step_error_message (v : str) (s : ProcessingStep) : ProcessingStep :=
  {| step_id := step_id s; step_job := step_job s; step_name := step_name s;
     step_status := step_status s; step_input_file := step_input_file s;
     step_output_file := step_output_file s;
     step_started_at := step_started_at s;
     step_completed_at := step_completed_at s;
     step_duration_seconds := step_duration_seconds s;
     step_error_message := v;
     step_error_traceback := step_error_traceback s;
     step_metadata := step_metadata s; step_created_at := step_created_at s |}.

Definition set_step_metadata (v : list (str * Z)) (s : ProcessingStep)
  : ProcessingStep :=
  {| step_id := step_id s; step_job := step_job s; step_name := step_name s;
     step_status := step_status s; step_input_file := step_input_file s;
     step_output_file := step_output_file s;
     step_started_at := step_started_at s;
     step_completed_at := step_completed_at s;
     step_duration_seconds := step_duration_seconds s;
     step_error_message := step_error_message s;
     step_error_traceback := step_error_traceback s;
     step_metadata := v; step_created_at := step_created_at s |}.

Definition set_job_status (v : Status) (j : ProcessingJob) : ProcessingJob :=
  {| job_id := job_id j; job_recording := job_recording j; job_status := v;
     job_current_step := job_current_step j;
     job_progress_percentage := job_progress_percentage j;
     job_celery_task_id := job_celery_task_id j;
     job_error_message := job_error_message j;
     job_retry_count := job_retry_count j; job_max_retries := job_max_retries j;
     job_created_at := job_created_at j; job_started_at := job_started_at j;
     job_completed_at := job_completed_at j |}.

Definition set_job_completed_at (v : option datetime) (j : ProcessingJob)
  : ProcessingJob :=
  {| job_id := job_id j; job_recording := job_recording j;
     job_status := job_status j;
     job_current_step := job_current_step j;
     job_progress_percentage := job_progress_percentage j;
     job_celery_task_id := job_celery_task_id j;
     job_error_message := job_error_message j;
     job_retry_count := job_retry_count j; job_max_retries := job_max_retries j;
     job_created_at := job_created_at j; job_started_at := job_started_at j;
     job_completed_at := v |}.

Definition set_job_progress_percentage (v : Z) (j : ProcessingJob) : ProcessingJob :=
  {| job_id := job_id j; job_recording := job_recording j;
     job_status := job_status j;
     job_current_step := job_current_step j;
     job_progress_percentage := v;
     job_celery_task_id := job_celery_task_id j;
     job_error_message := job_error_message j;
     job_retry_count := job_retry_count j; job_max_retries := job_max_retries j;
     job_created_at := job_created_at j; job_started_at := job_started_at j;
     job_completed_at := job_completed_at j |}.

(** [step.attr = v] on the object bound to [step]; on [None] Python raises
    AttributeError. *)
Definition update_step (f : ProcessingStep -> ProcessingStep) : M unit :=
  fun _ s =>
    match var_step s with
    | Some st => (Ok tt, {| world := world s; var_step := Some (f st);
                            var_recording := var_recording s |})
    | None => (Raise (AttributeError (lit "'NoneType' object has no attribute")), s)
    end.

(** The object bound to [step], for reading an attribute. *)
Definition the_step : M ProcessingStep :=
  fun _ s =>
    match var_step s with
    | Some st => (Ok st, s)
    | None => (Raise (AttributeError (lit "'NoneType' object has no attribute")), s)
    end.

(** [recording.attr = v] on the object bound to [recording]. *)
Definition update_recording (f : Recording -> Recording) : M unit :=
  fun _ s =>
    match var_recording s with
    | Some r => (Ok tt, {| world := world s; var_step := var_step s;
                           var_recording := Some (f r) |})
    | None => (Raise (UnboundLocalError (lit "recording")), s)
    end.

(** [step.save()] on the object bound to [step]. *)
Definition save_step : M unit :=
  st <- the_step ;;
  ProcessingStep_save st.

(** [recording.save()] on the object bound to [recording]; the object gets
    the new [updated_at]. *)
Definition save_recording : M unit :=
  r <- read_recording ;;
  r' <- Recording_save r ;;
  assign_recording r'.

(* ===================================================================== *)
(** * Celery primitives used by the tasks *)
(* ===================================================================== *)

(** Publishing a message: the broker may refuse it. *)
Definition publish (m : Message) : M unit :=
  env <- ask ;;
  match broker_publish env m with
  | None => modify_world (fun w => with_queue (queue w ++ [m]) w)
  | Some e => raise e
  end.

(** The message [self.retry] publishes: the same request, one more retry,
    its chain kept. *)
Definition retry_message (self : Message) (countdown : nat) : Message :=
  {| msg_id := msg_id self; msg_task := msg_task self;
     msg_args := msg_args self; msg_retries := S (msg_retries self);
     msg_chain := msg_chain self; msg_countdown := countdown |}.

(** [raise self.retry(exc=exc, countdown=countdown)]: past [max_retries] the
    original exception is raised; otherwise the request is published again,
    with the arguments it came with, and [Retry] is raised. When that
    publication fails with [e], what is raised is [Reject(e, requeue=False)]. *)
Definition self_retry {A} (self : Message) (exc : exn) (countdown : nat) : M A :=
  if max_retries (msg_task self) <? S (msg_retries self) then raise exc
  else
    try_except (publish (retry_message self countdown))
               (fun e => raise (Reject e)) ;;
    raise (Retry exc countdown).

(** The name under which a task is registered: that of its function. *)
Definition task_name (t : Task) : str :=
  match t with
  | T_process_recording_pipeline => lit "process_recording_pipeline"
  | T_convert_webm_to_mp4 => lit "convert_webm_to_mp4"
  | T_extract_audio_from_video => lit "extract_audio_from_video"
  | T_transcribe_audio => lit "transcribe_audio"
  | T_analyze_transcription => lit "analyze_transcription"
  end.

(** The TypeError of calling a task function with [n] positional arguments
    after [self]: every task of this module takes [self] and
    [recording_id]. *)
Definition arity_error (t : Task) (n : nat) : exn :=
  TypeError
    (match n with
     | 0 => task_name t
            ++ lit "() missing 1 required positional argument: 'recording_id'"
     | _ => task_name t ++ lit "() takes 2 positional arguments but "
            ++ of_int (Z.of_nat (S n)) ++ lit " were given"
     end).

(** [Task.apply_async(args, chain=chain)]: the arguments are checked
    against the signature of the task function (the task's [typing]) before
    anything is sent; then a message with a new id is published. *)
Definition apply_async (t : Task) (args : list str) (chain : list Signature)
  : M unit :=
  match args with
  | [_] =>
      id <- uuid4 ;;
      publish {| msg_id := id; msg_task := t; msg_args := args;
                 msg_retries := 0; msg_chain := chain; msg_countdown := 0 |}
  | _ => raise (arity_error t (List.length args))
  end.

(** [chain(s1, s2, ...).apply_async()]: the first task is sent with the
    rest of the chain attached. *)
Definition chain_apply_async (sigs : list Signature) : M unit :=
  match sigs with
  | [] => ret tt
  | first :: rest => apply_async (sig_task first) (sig_args first) rest
  end.

(** [task.s(recording_id)] *)
Definition Task_s (t : Task) (recording_id : str) : Signature :=
  {| sig_task := t; sig_args := [recording_id] |}.

(* ===================================================================== *)
(** * processing/tasks.py *)
(* ===================================================================== *)

(** [process_recording_pipeline(self, recording_id)] *)
Definition process_recording_pipeline (self : Message) (recording_id : str) : M str :=
  try_except
    (recording <- Recording_objects_get recording_id ;;
     recording <- Recording_save (set_rec_status rec_processing recording) ;;
     started <- now ;;
     job <- ProcessingJob_objects_create recording (msg_id self) running (Some started) ;;
     chain_apply_async
       [ Task_s T_convert_webm_to_mp4 recording_id;
         Task_s T_extract_audio_from_video recording_id;
         Task_s T_transcribe_audio recording_id;
         Task_s T_analyze_transcription recording_id ] ;;
     ret (lit "Processing pipeline started for " ++ recording_id))
    (fun exc => self_retry self exc 60).

(** [step.status = 'completed'] ... [step.duration_seconds = ...]: the three
    assignments every stage makes before its final [step.save()]. *)
Definition complete_step : M unit :=
  update_step (set_step_status completed) ;;
  t <- now ;;
  update_step (set_step_completed_at (Some t)) ;;
  st <- the_step ;;
  match step_completed_at st, step_started_at st with
  | Some c, Some b => update_step (set_step_duration_seconds (Some (c - b)%Z))
  | _, _ => raise (TypeError (lit "unsupported operand type(s) for -"))
  end.

(** The first lines of every [except] block:
    [if step: step.status = 'failed'; step.error_message = str(exc); step.save()] *)
Definition fail_step (exc : exn) : M unit :=
  st <- read_step ;;
  match st with
  | Some _ =>
      update_step (set_step_status failed) ;;
      update_step (set_step_error_message (exc_str exc)) ;;
      save_step
  | None => ret tt
  end.

(** [convert_webm_to_mp4(self, recording_id)] *)
Definition convert_webm_to_mp4 (self : Message) (recording_id : str) : M str :=
  try_except
    (recording <- Recording_objects_get recording_id ;;
     job <- processing_job recording ;;
     started <- now ;;
     step <- ProcessingStep_objects_create job video_conversion running (Some started) ;;
     assign_step step ;;
     webm_file <- files_get recording original_webm ;;
     let webm_path := lit "/tmp/" ++ recording_id ++ lit "_original.webm" in
     download_from_s3 (rf_s3_key webm_file) webm_path ;;
     let mp4_path := lit "/tmp/" ++ recording_id ++ lit "_converted.mp4" in
     let ffmpeg_command :=
       [ lit "ffmpeg"; lit "-i"; webm_path; lit "-c:v"; lit "libx264";
         lit "-preset"; lit "medium"; lit "-crf"; lit "23"; lit "-c:a";
         lit "aac"; lit "-b:a"; lit "128k"; lit "-y"; mp4_path ] in
     result <- subprocess_run_ ffmpeg_command ;;
     (if (returncode result =? 0)%Z then ret tt
      else raise (Exception (lit "FFmpeg failed: " ++ stderr result))) ;;
     let s3_key := lit "recordings/" ++ recording_id ++ lit "/converted.mp4" in
     upload_to_s3 mp4_path s3_key ;;
     env <- ask ;;
     size <- getsize mp4_path ;;
     RecordingFile_objects_create recording converted_mp4 s3_key
       (AWS_STORAGE_BUCKET_NAME env) size ;;
     complete_step ;;
     update_step (set_step_output_file s3_key) ;;
     save_step ;;
     os_remove webm_path ;;
     os_remove mp4_path ;;
     ret recording_id)
    (fun exc =>
       fail_step exc ;;
       self_retry self exc 120).

(** [extract_audio_from_video(self, recording_id)] *)
Definition extract_audio_from_video (self : Message) (recording_id : str) : M str :=
  try_except
    (recording <- Recording_objects_get recording_id ;;
     job <- processing_job recording ;;
     started <- now ;;
     step <- ProcessingStep_objects_create job audio_extraction running (Some started) ;;
     assign_step step ;;
     webm_file <- files_get recording original_webm ;;
     let webm_path := lit "/tmp/" ++ recording_id ++ lit "_original.webm" in
     download_from_s3 (rf_s3_key webm_file) webm_path ;;
     let audio_path := lit "/tmp/" ++ recording_id ++ lit "_audio.wav" in
     let ffmpeg_command :=
       [ lit "ffmpeg"; lit "-i"; webm_path; lit "-vn"; lit "-acodec";
         lit "pcm_s16le"; lit "-ar"; lit "16000"; lit "-ac"; lit "1";
         lit "-y"; audio_path ] in
     result <- subprocess_run_ ffmpeg_command ;;
     (if (returncode result =? 0)%Z then ret tt
      else raise (Exception (lit "Audio extraction failed: " ++ stderr result))) ;;
     let s3_key := lit "recordings/" ++ recording_id ++ lit "/audio.wav" in
     upload_to_s3 audio_path s3_key ;;
     env <- ask ;;
     size <- getsize audio_path ;;
     RecordingFile_objects_create recording audio_extract s3_key
       (AWS_STORAGE_BUCKET_NAME env) size ;;
     complete_step ;;
     update_step (set_step_output_file s3_key) ;;
     save_step ;;
     os_remove webm_path ;;
     os_remove audio_path ;;
     ret recording_id)
    (fun exc =>
       fail_step exc ;;
       self_retry self exc 120).

(** [for x in xs: body(x)] *)
Fixpoint for_each {A} (xs : list A) (body : A -> M unit) : M unit :=
  match xs with
  | [] => ret tt
  | x :: r => body x ;; for_each r body
  end.

(** [result.utterances] on an alternative: the object has no such
    attribute, so the read raises AttributeError, with the interpreter's
    text for an attribute that an object lacks. *)
Definition result_utterances (result : Alternative)
  : M (option (list Utterance)) :=
  raise (AttributeError
           (lit "'" ++ alt_class result
            ++ lit "' object has no attribute 'utterances'")).

(** [for utterance in utterances] under [if utterances:]: neither [None]
    nor empty. *)
Definition utterances_of (utterances : option (list Utterance)) : list Utterance :=
  match utterances with
  | Some us => us
  | None => []
  end.

(** [len(set(u.speaker for u in utterances)) if utterances else 0] *)
Definition count_speakers (utterances : option (list Utterance)) : Z :=
  match utterances with
  | Some (u :: us) => Z.of_nat (List.length (nodup Z.eq_dec (map u_speaker (u :: us))))
  | _ => 0%Z
  end.

(** [response.results.channels[0].alternatives[0]] *)
Definition first_alternative (response : DeepgramResponse) : result Alternative :=
  match dg_channels response with
  | [] => Raise IndexError
  | [] :: _ => Raise IndexError
  | (alt :: _) :: _ => Ok alt
  end.

(** [transcribe_audio(self, recording_id)]. The arguments of
    [Transcription.objects.create] are evaluated in order before the call:
    [result.utterances] is read, and raises, before any row is written. *)
Definition transcribe_audio (self : Message) (recording_id : str) : M str :=
  try_except
    (recording <- Recording_objects_get recording_id ;;
     job <- processing_job recording ;;
     started <- now ;;
     step <- ProcessingStep_objects_create job speech_to_text running (Some started) ;;
     assign_step step ;;
     env <- ask ;;
     (if truthy (DEEPGRAM_API_KEY env) then ret tt
      else raise (Exception (lit "DEEPGRAM_API_KEY not configured"))) ;;
     audio_file <- files_get recording audio_extract ;;
     let audio_path := lit "/tmp/" ++ recording_id ++ lit "_audio.wav" in
     download_from_s3 (rf_s3_key audio_file) audio_path ;;
     w <- get_world ;;
     (if exists_file audio_path w then ret tt
      else raise (FileNotFoundError audio_path)) ;;
     start_time <- time ;;
     log_call (CallDeepgram audio_path) ;;
     response <- lift (transcribe_file env audio_path) ;;
     end_time <- time ;;
     let processing_time := PrimFloat.sub end_time start_time in
     result <- lift (first_alternative response) ;;
     utterances <- result_utterances result ;;
     transcription <-
       Transcription_objects_create recording
         (alt_transcript result) (alt_confidence result)
         (match dg_language response with Some l => l | None => lit "en" end)
         (count_speakers utterances)
         (dg_duration response) processing_time response ;;
     utterances <- result_utterances result ;;
     for_each (utterances_of utterances)
       (fun utterance =>
          TranscriptionSegment_objects_create transcription
            (u_start utterance) (u_end utterance) (u_transcript utterance)
            (u_confidence utterance) (u_speaker utterance)
            (lit "Speaker " ++ of_int (u_speaker utterance))
            (match u_words utterance with Some ws => ws | None => [] end) ;;
          ret tt) ;;
     complete_step ;;
     update_step (set_step_metadata
                    [(lit "num_speakers", tr_num_speakers transcription)]) ;;
     save_step ;;
     os_remove audio_path ;;
     ret recording_id)
    (fun exc =>
       fail_step exc ;;
       self_retry self exc 180).

(** ** Helper functions for AI analysis *)

(** [format_transcript_with_speakers(transcription)] *)
Definition format_transcript_with_speakers (transcription : Transcription) : M str :=
  segments <- segments_all transcription ;;
  let formatted_lines :=
    fold_left
      (fun lines segment =>
         let speaker := if truthy (seg_speaker_label segment)
                        then seg_speaker_label segment
                        else lit "Unknown Speaker" in
         lines ++ [speaker ++ lit ": " ++ seg_text segment])
      segments [] in
  ret (join [newline] formatted_lines).

(** [response.usage_metadata.total_token_count if hasattr(response,
    'usage_metadata') else 0] *)
Definition tokens_of (response : GeminiResponse) : Z :=
  match g_usage_metadata response with
  | Some n => n
  | None => 0%Z
  end.

(** The part common to the four helpers: time the call to
    [model.generate_content(prompt)]. *)
Definition timed_generate_content (model prompt : str) : M (GeminiResponse * float) :=
  env <- ask ;;
  start_time <- time ;;
  log_call (CallGemini model prompt) ;;
  response <- lift (generate_content env model prompt) ;;
  end_time <- time ;;
  ret (response, PrimFloat.sub end_time start_time).

(** The prompt of [generate_summary]. *)
Definition summary_prompt (transcript : str) : str :=
  lit "Please provide a concise summary of the following conversation or recording.
Focus on the main topics discussed, key decisions made, and overall purpose of the conversation.
Keep the summary to 2-3 paragraphs.

Transcript:
" ++ transcript ++ lit "

Summary:".

(** [generate_summary(model, transcript)] *)
Definition generate_summary (model transcript : str) : M AnalysisResult :=
  let prompt := summary_prompt transcript in
  r <- timed_generate_content model prompt ;;
  let (response, processing_time) := r in
  let summary_text := g_text response in
  ret {| res_data := SummaryData summary_text (List.length (split_ws summary_text));
         res_text := summary_text;
         res_time := processing_time;
         res_tokens := tokens_of response |}.

(** The test of the parsing loop of [extract_action_items]:
    [line and (line[0].isdigit() or line.startswith('-') or line.startswith('*'))] *)
Definition is_action_item (isdigit : char -> bool) (line : str) : bool :=
  match line with
  | [] => false
  | c :: _ => isdigit c || startswith line (lit "-") || startswith line (lit "*")
  end.

(** The parsing loop of [extract_action_items]. *)
Definition parse_action_items (isdigit : char -> bool) (items_text : str) : list str :=
  fold_left
    (fun items line =>
       let line := strip line in
       if is_action_item isdigit line then items ++ [line] else items)
    (split newline items_text) [].

(** The prompt of [extract_action_items]. *)
Definition action_items_prompt (transcript : str) : str :=
  lit "Analyze the following conversation and extract all action items, tasks, and to-dos mentioned.
For each action item, provide:
- The action/task description
- Priority level (high/medium/low)
- Who it's assigned to (if mentioned)

Format as a numbered list.

Transcript:
" ++ transcript ++ lit "

Action Items:".

(** [extract_action_items(model, transcript)] *)
Definition extract_action_items (model transcript : str) : M AnalysisResult :=
  let prompt := action_items_prompt transcript in
  r <- timed_generate_content model prompt ;;
  let (response, processing_time) := r in
  env <- ask ;;
  let items_text := g_text response in
  let items := parse_action_items (unicode_isdigit env) items_text in
  ret {| res_data := ActionItemsData items (List.length items);
         res_text := items_text;
         res_time := processing_time;
         res_tokens := tokens_of response |}.

(** The parsing loop of [extract_key_points]. *)
Definition parse_key_points (key_points_text : str) : list str :=
  fold_left
    (fun points line =>
       let line := strip line in
       if truthy line
          && (startswith line (lit "-") || startswith line (lit "*")
              || startswith line [bullet])
       then points ++ [line] else points)
    (split newline key_points_text) [].

(** The prompt of [extract_key_points]. *)
Definition key_points_prompt (transcript : str) : str :=
  lit "Analyze the following conversation and identify the most important key points and highlights.
Focus on:
- Main topics discussed
- Important decisions or conclusions
- Notable quotes or statements
- Critical information shared

Format as a bulleted list (5-10 key points).

Transcript:
" ++ transcript ++ lit "

Key Points:".

(** [extract_key_points(model, transcript)] *)
Definition extract_key_points (model transcript : str) : M AnalysisResult :=
  let prompt := key_points_prompt transcript in
  r <- timed_generate_content model prompt ;;
  let (response, processing_time) := r in
  let key_points_text := g_text response in
  let points := parse_key_points key_points_text in
  ret {| res_data := KeyPointsData points (List.length points);
         res_text := key_points_text;
         res_time := processing_time;
         res_tokens := tokens_of response |}.

(** The prompt of [analyze_sentiment]. *)
Definition sentiment_prompt (transcript : str) : str :=
  lit "Analyze the sentiment and tone of the following conversation.
Provide:
- Overall sentiment (positive/neutral/negative)
- Tone characteristics (professional, casual, tense, collaborative, etc.)
- Emotional indicators
- Notable shifts in sentiment or tone

Transcript:
" ++ transcript ++ lit "

Sentiment Analysis:".

(** [analyze_sentiment(model, transcript)] *)
Definition analyze_sentiment (model transcript : str) : M AnalysisResult :=
  let prompt := sentiment_prompt transcript in
  r <- timed_generate_content model prompt ;;
  let (response, processing_time) := r in
  let sentiment_text := g_text response in
  ret {| res_data := SentimentData sentiment_text;
         res_text := sentiment_text;
         res_time := processing_time;
         res_tokens := tokens_of response |}.

(** [AIAnalysis.objects.create(recording=recording, analysis_type=ty,
    result_data=r['data'], result_text=r['text'],
    model_version='gemini-1.5-flash', tokens_used=r.get('tokens', 0),
    processing_time_seconds=r['time'], gemini_response=r.get('response', {}))] *)
Definition store_analysis (recording : Recording) (ty : AnalysisType)
    (r : AnalysisResult) : M unit :=
  AIAnalysis_objects_create recording ty (res_data r) (res_text r)
    (lit "gemini-1.5-flash") (res_tokens r) (res_time r) ;;
  ret tt.

(** [analyze_transcription(self, recording_id)] *)
Definition analyze_transcription (self : Message) (recording_id : str) : M str :=
  try_except
    (recording <- Recording_objects_get recording_id ;;
     assign_recording recording ;;
     job <- processing_job recording ;;
     transcription <- transcription_of recording ;;
     started <- now ;;
     step <- ProcessingStep_objects_create job ai_analysis running (Some started) ;;
     assign_step step ;;
     env <- ask ;;
     (if truthy (GEMINI_API_KEY env) then ret tt
      else raise (Exception (lit "GEMINI_API_KEY not configured"))) ;;
     let model := lit "gemini-1.5-flash" in
     formatted_transcript <- format_transcript_with_speakers transcription ;;
     summary_result <- generate_summary model formatted_transcript ;;
     store_analysis recording summary summary_result ;;
     action_items_result <- extract_action_items model formatted_transcript ;;
     store_analysis recording action_items action_items_result ;;
     key_points_result <- extract_key_points model formatted_transcript ;;
     store_analysis recording key_points key_points_result ;;
     sentiment_result <- analyze_sentiment model formatted_transcript ;;
     store_analysis recording sentiment sentiment_result ;;
     complete_step ;;
     save_step ;;
     update_recording (set_rec_status rec_completed) ;;
     t <- now ;;
     update_recording (set_rec_completed_at (Some t)) ;;
     save_recording ;;
     let job := set_job_status completed job in
     t <- now ;;
     let job := set_job_completed_at (Some t) job in
     let job := set_job_progress_percentage 100 job in
     ProcessingJob_save job ;;
     ret recording_id)
    (fun exc =>
       fail_step exc ;;
       update_recording (set_rec_status rec_failed) ;;
       update_recording (set_rec_error_message (exc_str exc)) ;;
       save_recording ;;
       self_retry self exc 180).

(* ===================================================================== *)
(** * The worker *)
(* ===================================================================== *)

(** The function a task name is registered for. *)
Definition task_body (t : Task) : Message -> str -> M str :=
  match t with
  | T_process_recording_pipeline => process_recording_pipeline
  | T_convert_webm_to_mp4 => convert_webm_to_mp4
  | T_extract_audio_from_video => extract_audio_from_video
  | T_transcribe_audio => transcribe_audio
  | T_analyze_transcription => analyze_transcription
  end.

(** One attempt: the task function is called with the message's positional
    arguments after [self]. Every task of this module takes exactly one,
    [recording_id]; any other number is a TypeError of the call itself,
    outside the function's [try]. The locals start unbound, [step] as
    [None]. *)
Definition run_task (env : Env) (m : Message) (w : World) : result str * World :=
  match msg_args m with
  | [recording_id] =>
      let (r, st) :=
        task_body (msg_task m) m recording_id env
          {| world := w; var_step := None; var_recording := None |} in
      (r, world st)
  | args => (Raise (arity_error (msg_task m) (List.length args)), w)
  end.

(** After a task returned [retval]: the next signature of its chain is
    applied to [(retval,)], which is put in front of the signature's own
    arguments, and sent with the rest of the chain by [apply_async], which
    checks the arguments first. *)
Definition continue_chain (m : Message) (retval : str) : M unit :=
  match msg_chain m with
  | [] => ret tt
  | next :: rest => apply_async (sig_task next) (retval :: sig_args next) rest
  end.

(** Delivery of one message: the attempt, then the chain when it returned.
    An exception of the chain's [apply_async] is the outcome of the
    delivery (the task is recorded as failed), though the task function
    returned and what it wrote stays. A retry was already published by
    [self.retry]; after any other exception nothing is published. *)
Definition deliver (env : Env) (m : Message) (w : World) : result str * World :=
  match run_task env m w with
  | (Ok retval, w1) =>
      match continue_chain m retval env
              {| world := w1; var_step := None; var_recording := None |} with
      | (Ok _, st) => (Ok retval, world st)
      | (Raise e, st) => (Raise e, world st)
      end
  | (Raise e, w1) => (Raise e, w1)
  end.

(** The worker takes the oldest message, one per environment given, until
    the queue is empty; it reports what each attempt returned or raised. *)
Fixpoint worker (envs : list Env) (w : World)
  : list (Message * result str) * World :=
  match envs with
  | [] => ([], w)
  | env :: envs' =>
      match queue w with
      | [] => ([], w)
      | m :: q =>
          let (r, w1) := deliver env m (with_queue q w) in
          let (log, w2) := worker envs' w1 in
          ((m, r) :: log, w2)
      end
  end.

(** [task.delay(recording_id)]: a direct dispatch of one task. *)
Definition delay (t : Task) (recording_id : str) : M unit :=
  apply_async t [recording_id] [].

(** ** Queries used in the statements *)

Definition recording_rows (recording_id : str) (w : World) : list Recording :=
  filter (fun r => str_eqb (rec_id r) recording_id) (recordings (db w)).

Definition job_rows (recording_id : str) (w : World) : list ProcessingJob :=
  filter (fun j => str_eqb (job_recording j) recording_id) (jobs (db w)).

Definition step_rows (job : uuid) (w : World) : list ProcessingStep :=
  filter (fun s => (step_job s =? job)%N) (steps (db w)).

Definition named_step_rows (job : uuid) (name : StepName) (w : World)
  : list ProcessingStep :=
  filter (fun s => (step_job s =? job)%N && StepName_eqb (step_name s) name)
         (steps (db w)).

Definition file_rows (recording_id : str) (ft : FileType) (w : World)
  : list RecordingFile :=
  filter (fun f => str_eqb (rf_recording f) recording_id
                   && FileType_eqb (rf_file_type f) ft) (files (db w)).

Definition transcription_rows (recording_id : str) (w : World) : list Transcription :=
  filter (fun t => str_eqb (tr_recording t) recording_id) (transcriptions (db w)).

Definition segment_rows (transcription : uuid) (w : World)
  : list TranscriptionSegment :=
  filter (fun sg => (seg_transcription sg =? transcription)%N) (segments (db w)).

Definition analysis_rows (recording_id : str) (w : World) : list AIAnalysis :=
  filter (fun a => str_eqb (ai_recording a) recording_id) (analyses (db w)).

Definition typed_analysis_rows (recording_id : str) (ty : AnalysisType) (w : World)
  : list AIAnalysis :=
  filter (fun a => str_eqb (ai_recording a) recording_id
                   && AnalysisType_eqb (ai_analysis_type a) ty) (analyses (db w)).

(** The stage a task runs, and the order of the stages. *)
Definition stage_of (t : Task) : option StepName :=
  match t with
  | T_process_recording_pipeline => None
  | T_convert_webm_to_mp4 => Some video_conversion
  | T_extract_audio_from_video => Some audio_extraction
  | T_transcribe_audio => Some speech_to_text
  | T_analyze_transcription => Some ai_analysis
  end.

Definition task_of (n : StepName) : Task :=
  match n with
  | video_conversion => T_convert_webm_to_mp4
  | audio_extraction => T_extract_audio_from_video
  | speech_to_text => T_transcribe_audio
  | ai_analysis => T_analyze_transcription
  end.

(** The countdown each task passes to [self.retry]. *)
Definition retry_countdown (t : Task) : nat :=
  match t with
  | T_process_recording_pipeline => 60
  | T_convert_webm_to_mp4 => 120
  | T_extract_audio_from_video => 120
  | T_transcribe_audio => 180
  | T_analyze_transcription => 180
  end.

(** ** A concrete scenario *)

Module Scenario.

Definition R1 : str := lit "R1".

Definition utterances2 : list Utterance :=
  [ {| u_start := 0%float; u_end := 1%float; u_transcript := lit "Hello there";
       u_confidence := 1%float; u_speaker := 0%Z; u_words := None |};
    {| u_start := 1%float; u_end := 2%float; u_transcript := lit "Hi";
       u_confidence := 1%float; u_speaker := 1%Z; u_words := None |} ].

(** The answer of the service for a recording of two speakers: the
    utterances are at the level of the results. *)
Definition response2 : DeepgramResponse :=
  {| dg_channels :=
       [[ {| alt_class := lit "ListenRESTAlternative";
             alt_transcript := lit "Hello there Hi";
             alt_confidence := 1%float |} ]];
     dg_utterances := Some utterances2;
     dg_language := Some (lit "en");
     dg_duration := 2%float |}.

(** Three numbered lines and two unrelated ones. *)
Definition action_text : str :=
  lit "Here are the action items:
1. Send the report (high)
2. Book a room (low)
   3. Call Bob
Thanks".

(** An environment in which every collaborator answers. *)
Definition env_ok : Env :=
  {| AWS_STORAGE_BUCKET_NAME := lit "recordings";
     DEEPGRAM_API_KEY := lit "dg-key";
     GEMINI_API_KEY := lit "gm-key";
     timezone_now := fun n => Z.of_nat n;
     time_time := fun _ => 0%float;
     s3_download_file := fun _ _ _ => None;
     s3_upload_fileobj := fun _ _ _ => None;
     subprocess_run := fun _ =>
       Ok {| returncode := 0%Z; stderr := []; output_written := true |};
     os_path_getsize := fun _ => 1024%Z;
     transcribe_file := fun _ => Ok response2;
     generate_content := fun _ _ =>
       Ok {| g_text := action_text; g_usage_metadata := Some 10%Z |};
     broker_publish := fun _ => None;
     unicode_isdigit := ascii_isdigit |}.

(** The object store refuses every download. *)
Definition env_no_download : Env :=
  {| AWS_STORAGE_BUCKET_NAME := lit "recordings";
     DEEPGRAM_API_KEY := lit "dg-key";
     GEMINI_API_KEY := lit "gm-key";
     timezone_now := fun n => Z.of_nat n;
     time_time := fun _ => 0%float;
     s3_download_file := fun _ _ _ => Some (External (lit "Connection refused"));
     s3_upload_fileobj := fun _ _ _ => None;
     subprocess_run := fun _ =>
       Ok {| returncode := 0%Z; stderr := []; output_written := true |};
     os_path_getsize := fun _ => 1024%Z;
     transcribe_file := fun _ => Ok response2;
     generate_content := fun _ _ =>
       Ok {| g_text := action_text; g_usage_metadata := Some 10%Z |};
     broker_publish := fun _ => None;
     unicode_isdigit := ascii_isdigit |}.

(** ffmpeg exits with status 1. *)
Definition env_ffmpeg_fails : Env :=
  {| AWS_STORAGE_BUCKET_NAME := lit "recordings";
     DEEPGRAM_API_KEY := lit "dg-key";
     GEMINI_API_KEY := lit "gm-key";
     timezone_now := fun n => Z.of_nat n;
     time_time := fun _ => 0%float;
     s3_download_file := fun _ _ _ => None;
     s3_upload_fileobj := fun _ _ _ => None;
     subprocess_run := fun _ =>
       Ok {| returncode := 1%Z; stderr := lit "Invalid data found";
             output_written := false |};
     os_path_getsize := fun _ => 1024%Z;
     transcribe_file := fun _ => Ok response2;
     generate_content := fun _ _ =>
       Ok {| g_text := action_text; g_usage_metadata := Some 10%Z |};
     broker_publish := fun _ => None;
     unicode_isdigit := ascii_isdigit |}.

(** No speech-to-text key is configured. *)
Definition env_no_key : Env :=
  {| AWS_STORAGE_BUCKET_NAME := lit "recordings";
     DEEPGRAM_API_KEY := [];
     GEMINI_API_KEY := lit "gm-key";
     timezone_now := fun n => Z.of_nat n;
     time_time := fun _ => 0%float;
     s3_download_file := fun _ _ _ => None;
     s3_upload_fileobj := fun _ _ _ => None;
     subprocess_run := fun _ =>
       Ok {| returncode := 0%Z; stderr := []; output_written := true |};
     os_path_getsize := fun _ => 1024%Z;
     transcribe_file := fun _ => Ok response2;
     generate_content := fun _ _ =>
       Ok {| g_text := action_text; g_usage_metadata := Some 10%Z |};
     broker_publish := fun _ => None;
     unicode_isdigit := ascii_isdigit |}.

(** The state the upload API leaves behind for R1: the recording is
    'uploaded' and its original file is registered. *)
Definition uploaded : World :=
  {| db := {| recordings :=
                [ {| rec_id := R1; rec_upload := lit "demo.webm";
                     rec_status := rec_uploaded; rec_error_message := [];
                     rec_created_at := 0%Z; rec_updated_at := 0%Z;
                     rec_completed_at := None |} ];
              files :=
                [ {| rf_id := 0%N; rf_recording := R1;
                     rf_file_type := original_webm;
                     rf_s3_key := lit "recordings/R1/demo.webm";
                     rf_s3_bucket := lit "recordings";
                     rf_file_size_bytes := 4096%Z;
                     rf_created_at := 0%Z |} ];
              jobs := []; steps := []; transcriptions := [];
              segments := []; analyses := [] |};
     next_pk := 1%N; tmp := []; queue := []; calls := []; ticks := 1 |}.

(** A message that dispatches [t] for R1 directly, as [t.delay(R1)] does. *)
Definition msg (t : Task) (id : uuid) (retries : nat) : Message :=
  {| msg_id := id; msg_task := t; msg_args := [R1]; msg_retries := retries;
     msg_chain := []; msg_countdown := 0 |}.

(** The tasks in pipeline order. *)
Definition pipeline_tasks : list Task :=
  [ T_process_recording_pipeline; T_convert_webm_to_mp4;
    T_extract_audio_from_video; T_transcribe_audio; T_analyze_transcription ].

(** The first [k] tasks run for R1 one after the other, each once. *)
Definition run_upto (k : nat) (env : Env) (w : World)
  : list (result str) * World :=
  fold_left
    (fun acc t =>
       let (r, w') := run_task env (msg t 100%N 0) (snd acc) in
       (fst acc ++ [r], w'))
    (firstn k pipeline_tasks) ([], w).

(** R1 after a run in which conversion completed and extraction failed for
    good (its last attempt), the queue empty again. *)
Definition redispatch_world : World :=
  with_queue []
    (snd (run_task env_ffmpeg_fails
            (msg T_extract_audio_from_video 101%N 2)
            (snd (run_upto 2 env_ok uploaded)))).

End Scenario.

(* ===================================================================== *)
(** * Reasoning about runs *)
(* ===================================================================== *)

(** [wp c env s Q]: what [c] returns or raises from [s], and the state it
    leaves, satisfy [Q]. *)
Definition wp {A} (c : M A) (env : Env) (s : State)
    (Q : result A -> State -> Prop) : Prop :=
  Q (fst (c env s)) (snd (c env s)).

(** The postcondition a [bind] hands to its first computation, and the one
    a [try] hands to its body. *)
Definition bind_post {A B} (k : A -> M B) (env : Env)
    (Q : result B -> State -> Prop) : result A -> State -> Prop :=
  fun r s =>
    match r with
    | Ok a => wp (k a) env s Q
    | Raise e => Q (Raise e) s
    end.

Definition try_post {A} (h : exn -> M A) (env : Env)
    (Q : result A -> State -> Prop) : result A -> State -> Prop :=
  fun r s =>
    match r with
    | Ok a => Q (Ok a) s
    | Raise e => wp (h e) env s Q
    end.

(* ===================================================================== *)
(** * The words of the specification *)
(* ===================================================================== *)

(** These definitions follow the specification's wording, not the code;
    the theorems compare the code with them. *)
Module Spec.

(** [ls] are the lines of [text]: joined by newlines they give [text] back
    and none contains a newline. *)
Definition lines_of (text : str) (ls : list str) : Prop :=
  ls <> [] /\ Forall (fun l => ~ In newline l) ls /\ join [newline] ls = text.

(** [s] is [l] without its leading and trailing whitespace. *)
Definition stripped_of (l s : str) : Prop :=
  exists a b,
    l = a ++ s ++ b
    /\ forallb isspace a = true /\ forallb isspace b = true
    /\ (forall c, hd_error s = Some c -> isspace c = false)
    /\ (forall c, hd_error (rev s) = Some c -> isspace c = false).

(** A non-empty line whose first character is a digit, ['-'] or ['*']. *)
Definition list_item (isdigit : char -> bool) (s : str) : bool :=
  match s with
  | [] => false
  | c :: _ => isdigit c || (c =? 45)%N || (c =? 42)%N
  end.

End Spec.

(* ===================================================================== *)
(** * What an attempt leaves behind *)
(* ===================================================================== *)

(** Keys drawn by [uuid4] are new: every key in use, and every key a step
    refers to, was drawn before. *)
Fixpoint distinct_keys (l : list uuid) : bool :=
  match l with
  | [] => true
  | k :: r => negb (existsb (N.eqb k) r) && distinct_keys r
  end.

Definition fresh_keys (w : World) : bool :=
  forallb (fun s => (step_id s <? next_pk w)%N && (step_job s <? next_pk w)%N)
          (steps (db w))
  && forallb (fun j => (job_id j <? next_pk w)%N) (jobs (db w))
  && distinct_keys (map job_id (jobs (db w))).

(** [step] after the first lines of an [except] block. *)
Definition failed_step (exc : exn) (st : ProcessingStep) : ProcessingStep :=
  set_step_error_message (exc_str exc) (set_step_status failed st).

(** How [self.retry(exc=exc, countdown=cd)] ends an attempt that started
    with queue [q]: what is raised, and the queue afterwards. Past
    [max_retries] it is [exc] itself; otherwise [Retry], with the request
    queued again, or [Reject] when the broker refuses that message. *)
Definition retry_disposition (env : Env) (m : Message) (cd : nat) (exc : exn)
    (q : list Message) (r : result str) (q' : list Message) : Prop :=
  if max_retries (msg_task m) <? S (msg_retries m)
  then r = Raise exc /\ q' = q
  else match broker_publish env (retry_message m cd) with
       | None => r = Raise (Retry exc cd) /\ q' = q ++ [retry_message m cd]
       | Some e => r = Raise (Reject e) /\ q' = q
       end.

(** The steps after a failed attempt of stage [n]: untouched, or one more
    row, the stage's own, marked failed with the error text. *)
Definition steps_marked (n : StepName) (exc : exn) (w w' : World) : Prop :=
  steps (db w') = steps (db w)
  \/ exists st,
       steps (db w') = steps (db w) ++ [st]
       /\ step_name st = n /\ step_status st = failed
       /\ step_error_message st = exc_str exc.

(** The recordings after a failed attempt of stage [n] for [rid]: the
    analysis stage marks the recording failed, the other stages do not
    write recordings. *)
Definition recording_marked (n : StepName) (rid : str) (exc : exn) (w w' : World)
  : Prop :=
  match n with
  | ai_analysis =>
      exists rec rec',
        recording_rows rid w = [rec] /\ recording_rows rid w' = [rec']
        /\ rec_status rec' = rec_failed
        /\ rec_error_message rec' = exc_str exc
  | _ => recordings (db w') = recordings (db w)
  end.

(** A failed attempt of stage [n] for [rid], from [w] to [w']. Either the
    [except] block ended in [self.retry], or (analysis stage only) the
    recording could not be read and the block itself raised. *)
Definition attempt_failed (n : StepName) (rid : str) (env : Env) (m : Message)
    (w : World) (r : result str) (w' : World) : Prop :=
  jobs (db w') = jobs (db w)
  /\ fresh_keys w' = true
  /\ ((n = ai_analysis
       /\ (forall rec, recording_rows rid w <> [rec])
       /\ r = Raise (UnboundLocalError (lit "recording"))
       /\ queue w' = queue w /\ steps (db w') = steps (db w)
       /\ recordings (db w') = recordings (db w))
      \/ exists exc,
           retry_disposition env m (retry_countdown (task_of n)) exc
             (queue w) r (queue w')
           /\ steps_marked n exc w w'
           /\ recording_marked n rid exc w w').

(** What holds of the state whenever the body of stage [n] can raise:
    nothing but the stage's own step row has been added to the tables the
    [except] block and the retry care about. *)
Definition body_inv (n : StepName) (rid : str) (w : World) (s : State) : Prop :=
  jobs (db (world s)) = jobs (db w)
  /\ queue (world s) = queue w
  /\ recordings (db (world s)) = recordings (db w)
  /\ (next_pk w <= next_pk (world s))%N
  /\ match var_step s with
     | None => steps (db (world s)) = steps (db w)
     | Some st =>
         exists st0,
           steps (db (world s)) = steps (db w) ++ [st0]
           /\ step_id st0 = step_id st /\ step_id st = next_pk w
           /\ (next_pk w < next_pk (world s))%N
           /\ step_job st = step_job st0
           /\ (step_job st <? next_pk w)%N = true
           /\ step_name st = n
     end
  /\ match n with
     | ai_analysis =>
         match var_recording s with
         | Some rec => recording_rows rid w = [rec]
         | None => var_step s = None
                   /\ forall rec, recording_rows rid w <> [rec]
         end
     | _ => True
     end.

(** The state in which a task function starts: [step = None], nothing else
    bound. *)
Definition start (w : World) : State :=
  {| world := w; var_step := None; var_recording := None |}.

(** The tables of [w'] are those of [w] but for the named ones. *)
Definition same_recordings (w w' : World) : Prop :=
  recordings (db w') = recordings (db w).
Definition same_files (w w' : World) : Prop := files (db w') = files (db w).
Definition same_jobs (w w' : World) : Prop := jobs (db w') = jobs (db w).
Definition same_steps (w w' : World) : Prop := steps (db w') = steps (db w).
Definition same_transcripts (w w' : World) : Prop :=
  transcriptions (db w') = transcriptions (db w)
  /\ segments (db w') = segments (db w).
Definition same_analyses (w w' : World) : Prop :=
  analyses (db w') = analyses (db w).

(** A successful attempt of stage [n] appended one step row, completed. *)
Definition step_completed (n : StepName) (rid : str) (w w' : World) : Prop :=
  exists rec job st,
    recording_rows rid w = [rec] /\ job_rows rid w = [job]
    /\ step_conflict (job_id job) n (steps (db w)) = false
    /\ steps (db w') = steps (db w) ++ [st]
    /\ step_job st = job_id job /\ step_name st = n
    /\ step_status st = completed
    /\ (exists t, step_completed_at st = Some t)
    /\ fresh_keys w' = true /\ queue w' = queue w.

(** A successful attempt of a media stage (conversion, extraction). *)
Definition media_stage_succeeded (n : StepName) (ft : FileType) (rid : str)
    (w : World) (v : str) (w' : World) : Prop :=
  v = rid
  /\ step_completed n rid w w'
  /\ (exists f, files (db w') = files (db w) ++ [f]
                /\ rf_recording f = rid /\ rf_file_type f = ft)
  /\ file_conflict rid ft (files (db w)) = false
  /\ same_recordings w w' /\ same_jobs w w'
  /\ same_transcripts w w' /\ same_analyses w w'.

(** The outcome of an attempt of stage [n]: what it returned satisfies
    [ok], or it failed as [attempt_failed] says. *)
Definition attempt_post (n : StepName) (rid : str) (env : Env) (m : Message)
    (w : World) (ok : str -> World -> Prop) : result str -> State -> Prop :=
  fun r s' =>
    match r with
    | Ok v => ok v (world s')
    | Raise _ => attempt_failed n rid env m w r (world s')
    end.


(** A successful attempt of the analysis stage. *)
Definition analysis_succeeded (rid : str) (w : World) (v : str) (w' : World)
  : Prop :=
  v = rid
  /\ step_completed ai_analysis rid w w'
  /\ same_files w w' /\ same_transcripts w w'
  /\ (exists tr, transcription_rows rid w = [tr])
  /\ analysis_rows rid w = []
  /\ (exists a1 a2 a3 a4,
        analyses (db w') = analyses (db w) ++ [a1; a2; a3; a4]
        /\ map ai_recording [a1; a2; a3; a4] = [rid; rid; rid; rid]
        /\ map ai_analysis_type [a1; a2; a3; a4]
           = [summary; action_items; key_points; sentiment])
  /\ (exists rec', recording_rows rid w' = [rec']
                   /\ rec_status rec' = rec_completed
                   /\ exists t, rec_completed_at rec' = Some t)
  /\ (exists job job',
        job_rows rid w = [job] /\ job_rows rid w' = [job']
        /\ job_id job' = job_id job
        /\ job_status job' = completed
        /\ job_progress_percentage job' = 100%Z
        /\ exists t, job_completed_at job' = Some t).

(** The message with which the orchestrator starts the chain. *)
Definition first_stage_message (id : uuid) (rid : str) : Message :=
  {| msg_id := id; msg_task := T_convert_webm_to_mp4; msg_args := [rid];
     msg_retries := 0;
     msg_chain := [ Task_s T_extract_audio_from_video rid;
                    Task_s T_transcribe_audio rid;
                    Task_s T_analyze_transcription rid ];
     msg_countdown := 0 |}.

(** A successful attempt of the orchestrator. *)
Definition pipeline_started (env : Env) (m : Message) (rid : str) (w : World)
    (v : str) (w' : World) : Prop :=
  v = lit "Processing pipeline started for " ++ rid
  /\ (exists rec rec',
        recording_rows rid w = [rec] /\ recording_rows rid w' = [rec']
        /\ rec_status rec' = rec_processing)
  /\ job_rows rid w = []
  /\ (exists job,
        jobs (db w') = jobs (db w) ++ [job]
        /\ job_recording job = rid /\ job_status job = running
        /\ job_id job = next_pk w
        /\ job_celery_task_id job = msg_id m
        /\ job_completed_at job = None
        /\ exists n, job_started_at job = Some (timezone_now env n)
                     /\ ticks w <= n < ticks w')
  /\ (exists id, queue w' = queue w ++ [first_stage_message id rid])
  /\ same_steps w w' /\ same_files w w'
  /\ same_transcripts w w' /\ same_analyses w w'
  /\ fresh_keys w' = true.

(** A failed attempt of the orchestrator: it ended in [self.retry] with a
    countdown of 60; no stage was dispatched and no step written; when the
    recording already had a job, none was added and the error is the
    refusal of the insert. *)
Definition pipeline_failed (env : Env) (m : Message) (rid : str) (w : World)
    (r : result str) (w' : World) : Prop :=
  exists exc,
    retry_disposition env m 60 exc (queue w) r (queue w')
    /\ same_steps w w' /\ same_files w w'
    /\ same_transcripts w w' /\ same_analyses w w'
    /\ (job_conflict rid (jobs (db w)) = true ->
        same_jobs w w'
        /\ forall rec, recording_rows rid w = [rec] ->
             exc = IntegrityError (lit "processing_processingjob.recording_id")).

(** The outcome of an attempt of the orchestrator. *)
Definition pipeline_post (env : Env) (m : Message) (rid : str) (w : World)
  : result str -> State -> Prop :=
  fun r s' =>
    match r with
    | Ok v => pipeline_started env m rid w v (world s')
    | Raise _ => pipeline_failed env m rid w r (world s')
    end.

(** What a stage attempt that returned has done. No attempt of the
    transcription stage returns: once the service has answered, the read of
    [result.utterances] raises. *)
Definition stage_succeeded (n : StepName) (env : Env) (rid : str) (w : World)
    (v : str) (w' : World) : Prop :=
  match n with
  | video_conversion =>
      media_stage_succeeded video_conversion converted_mp4 rid w v w'
  | audio_extraction =>
      media_stage_succeeded audio_extraction audio_extract rid w v w'
  | speech_to_text => False
  | ai_analysis => analysis_succeeded rid w v w'
  end.

(** The outcome of one attempt of stage [n], as the worker sees it. *)
Definition stage_outcome (n : StepName) (rid : str) (env : Env) (m : Message)
    (w : World) (r : result str) (w' : World) : Prop :=
  match r with
  | Ok v => stage_succeeded n env rid w v w'
  | Raise _ => attempt_failed n rid env m w r w'
  end.

Definition pipeline_outcome (rid : str) (env : Env) (m : Message)
    (w : World) (r : result str) (w' : World) : Prop :=
  match r with
  | Ok v => pipeline_started env m rid w v w'
  | Raise _ => pipeline_failed env m rid w r w'
  end.

(** An attempt of stage [n] whose step row the database refused: the
    attempt raised, through [self.retry]; it called no adapter, wrote no
    scratch file and no row but, in the analysis stage, the recording's. *)
Definition step_refused (n : StepName) (rid : str) (env : Env) (m : Message)
    (w : World) (r : result str) (w' : World) : Prop :=
  (forall v, r <> Ok v)
  /\ calls w' = calls w /\ tmp w' = tmp w
  /\ same_steps w w' /\ same_files w w' /\ same_jobs w w'
  /\ same_transcripts w w' /\ same_analyses w w'
  /\ exists exc,
       retry_disposition env m (retry_countdown (task_of n)) exc
         (queue w) r (queue w')
       /\ recording_marked n rid exc w w'
       /\ (exc = IntegrityError
                   (lit "processing_processingstep.job_id, processing_processingstep.step_name")
           \/ n = ai_analysis /\ forall tr, transcription_rows rid w <> [tr]).

(** The error of configuration or of data that stage [n] meets first once
    its step row is written, if any: the key of its adapter is not
    configured, or its input file is not registered. *)
Definition early_error (n : StepName) (rid : str) (env : Env) (w : World)
  : option exn :=
  let missing ft :=
    match file_rows rid ft w with
    | [] => Some (DoesNotExist (lit "RecordingFile"))
    | _ :: _ => None
    end in
  match n with
  | video_conversion => missing original_webm
  | audio_extraction => missing original_webm
  | speech_to_text =>
      if truthy (DEEPGRAM_API_KEY env) then missing audio_extract
      else Some (Exception (lit "DEEPGRAM_API_KEY not configured"))
  | ai_analysis =>
      if truthy (GEMINI_API_KEY env) then None
      else Some (Exception (lit "GEMINI_API_KEY not configured"))
  end.

(** An attempt of stage [n] that met the error [exc] after writing its step
    row: no adapter was called, the step row is there, marked failed with
    the error text, and the attempt ended in [self.retry] like after any
    other error. *)
Definition error_surfaced (n : StepName) (job : ProcessingJob) (exc : exn)
    (env : Env) (m : Message) (w : World) (r : result str) (w' : World) : Prop :=
  calls w' = calls w
  /\ (exists st,
        steps (db w') = steps (db w) ++ [st]
        /\ step_job st = job_id job /\ step_name st = n
        /\ step_status st = failed
        /\ step_error_message st = exc_str exc)
  /\ retry_disposition env m (retry_countdown (task_of n)) exc
       (queue w) r (queue w').

(* ===================================================================== *)
(** * Further notions used in the statements *)
(* ===================================================================== *)

(** A non-empty line whose first character is ['-'], ['*'] or the bullet
    U+2022. *)
Definition bullet_item (s : str) : bool :=
  match s with
  | [] => false
  | c :: _ => (c =? 45)%N || (c =? 42)%N || (c =? 8226)%N
  end.

(** A string without whitespace. *)
Definition no_space (s : str) : bool := forallb (fun c => negb (isspace c)) s.

(** [ws] are the words of [s]: the maximal runs of characters that are not
    whitespace, from left to right. *)
Inductive words_of : str -> list str -> Prop :=
| words_none (s : str) :
    forallb isspace s = true -> words_of s []
| words_last (a w : str) :
    forallb isspace a = true -> w <> [] -> no_space w = true ->
    words_of (a ++ w) [w]
| words_more (a w : str) (c : char) (rest : str) (ws : list str) :
    forallb isspace a = true -> w <> [] -> no_space w = true ->
    isspace c = true -> words_of rest ws ->
    words_of (a ++ w ++ c :: rest) (w :: ws).

(** The scratch files of the stages for recording [rid]. *)
Definition original_path (rid : str) : str := lit "/tmp/" ++ rid ++ lit "_original.webm".
Definition converted_path (rid : str) : str := lit "/tmp/" ++ rid ++ lit "_converted.mp4".
Definition audio_path (rid : str) : str := lit "/tmp/" ++ rid ++ lit "_audio.wav".

Definition scratch_paths (n : StepName) (rid : str) : list str :=
  match n with
  | video_conversion => [original_path rid; converted_path rid]
  | audio_extraction => [original_path rid; audio_path rid]
  | speech_to_text => [audio_path rid]
  | ai_analysis => []
  end.

(** From [w] to [w'] the files [paths] are gone (or were never there) and
    every other local file is as it was. *)
Definition scratch_removed (paths : list str) (w w' : World) : Prop :=
  (forall p, In p paths -> ~ In p (tmp w'))
  /\ (forall p, ~ In p paths -> (In p (tmp w') <-> In p (tmp w))).

(** The ffmpeg command lines of the two media stages. *)
Definition conversion_command (rid : str) : list str :=
  [ lit "ffmpeg"; lit "-i"; original_path rid; lit "-c:v"; lit "libx264";
    lit "-preset"; lit "medium"; lit "-crf"; lit "23"; lit "-c:a";
    lit "aac"; lit "-b:a"; lit "128k"; lit "-y"; converted_path rid ].

Definition extraction_command (rid : str) : list str :=
  [ lit "ffmpeg"; lit "-i"; original_path rid; lit "-vn"; lit "-acodec";
    lit "pcm_s16le"; lit "-ar"; lit "16000"; lit "-ac"; lit "1";
    lit "-y"; audio_path rid ].

(** What a returning attempt of a media stage has called and registered:
    with [command] writing [out], stored under [key] as a file of type
    [ft]. *)
Definition media_artifacts (env : Env) (rid : str) (command : list str)
    (out key : str) (ft : FileType) (w w' : World) : Prop :=
  exists (webm f : RecordingFile),
    file_rows rid original_webm w = [webm]
    /\ calls w'
       = calls w ++
         [ CallDownload (rf_s3_key webm) (original_path rid);
           CallFfmpeg command;
           CallUpload out key ]
    /\ (exists cp, subprocess_run env command = Ok cp /\ returncode cp = 0%Z)
    /\ files (db w') = files (db w) ++ [f]
    /\ rf_recording f = rid /\ rf_file_type f = ft
    /\ rf_s3_key f = key
    /\ rf_s3_bucket f = AWS_STORAGE_BUCKET_NAME env
    /\ rf_file_size_bytes f = os_path_getsize env out.

(** The step row of a returning attempt: completed, its duration the
    difference of two reads of the clock, the second one later. *)
Definition step_timed (env : Env) (n : StepName) (w w' : World) : Prop :=
  exists (st : ProcessingStep) (t0 t1 : nat),
    steps (db w') = steps (db w) ++ [st]
    /\ step_name st = n /\ step_status st = completed
    /\ t0 < t1
    /\ step_started_at st = Some (timezone_now env t0)
    /\ step_completed_at st = Some (timezone_now env t1)
    /\ step_duration_seconds st
       = Some (timezone_now env t1 - timezone_now env t0)%Z.

(** The ffmpeg command of media stage [n] and the exception the stage
    raises when ffmpeg exits with a non-zero status. *)
Definition media_command (n : StepName) (rid : str) : list str :=
  match n with
  | video_conversion => conversion_command rid
  | _ => extraction_command rid
  end.

Definition ffmpeg_error (n : StepName) (cp : CompletedProcess) : exn :=
  match n with
  | video_conversion => Exception (lit "FFmpeg failed: " ++ stderr cp)
  | _ => Exception (lit "Audio extraction failed: " ++ stderr cp)
  end.

Module Cases2.

(** The broker refuses every stage message and takes the others. *)
Definition env_no_stage_dispatch : Env :=
  {| AWS_STORAGE_BUCKET_NAME := lit "recordings";
     DEEPGRAM_API_KEY := lit "dg-key";
     GEMINI_API_KEY := lit "gm-key";
     timezone_now := fun n => Z.of_nat n;
     time_time := fun _ => 0%float;
     s3_download_file := fun _ _ _ => None;
     s3_upload_fileobj := fun _ _ _ => None;
     subprocess_run := fun _ =>
       Ok {| returncode := 0%Z; stderr := []; output_written := true |};
     os_path_getsize := fun _ => 1024%Z;
     transcribe_file := fun _ => Ok Scenario.response2;
     generate_content := fun _ _ =>
       Ok {| g_text := Scenario.action_text; g_usage_metadata := Some 10%Z |};
     broker_publish := fun msg =>
       match msg_task msg with
       | T_process_recording_pipeline => None
       | _ => Some (External (lit "Connection reset by peer"))
       end;
     unicode_isdigit := ascii_isdigit |}.

(** The speech-to-text service answers with no channel at all. *)
Definition env_no_channels : Env :=
  {| AWS_STORAGE_BUCKET_NAME := lit "recordings";
     DEEPGRAM_API_KEY := lit "dg-key";
     GEMINI_API_KEY := lit "gm-key";
     timezone_now := fun n => Z.of_nat n;
     time_time := fun _ => 0%float;
     s3_download_file := fun _ _ _ => None;
     s3_upload_fileobj := fun _ _ _ => None;
     subprocess_run := fun _ =>
       Ok {| returncode := 0%Z; stderr := []; output_written := true |};
     os_path_getsize := fun _ => 1024%Z;
     transcribe_file := fun _ =>
       Ok {| dg_channels := []; dg_utterances := None; dg_language := None;
             dg_duration := 0%float |};
     generate_content := fun _ _ =>
       Ok {| g_text := Scenario.action_text; g_usage_metadata := Some 10%Z |};
     broker_publish := fun _ => None;
     unicode_isdigit := ascii_isdigit |}.


End Cases2.

(** No job has two steps of the same stage. *)
Definition unique_steps (w : World) : Prop :=
  NoDup (map (fun s => (step_job s, step_name s)) (steps (db w))).

(* ===================================================================== *)
(** * Strings *)
(* ===================================================================== *)

Lemma str_eqb_refl (a : str) : str_eqb a a = true.
Proof. unfold str_eqb. destruct (str_eq_dec a a); congruence. Qed.

Lemma str_eqb_eq (a b : str) : str_eqb a b = true <-> a = b.
Proof.
  unfold str_eqb. destruct (str_eq_dec a b); split; congruence.
Qed.

Lemma str_eqb_neq (a b : str) : str_eqb a b = false <-> a <> b.
Proof.
  unfold str_eqb. destruct (str_eq_dec a b); split; congruence.
Qed.

Lemma split_not_nil (sep : char) (s : str) : split sep s <> [].
Proof.
  destruct s as [|c r]; cbn; [discriminate|].
  destruct (c =? sep)%N; [discriminate|].
  destruct (split sep r); discriminate.
Qed.

Lemma join_cons_cons (sep p q : str) (ps : list str) :
  join sep (p :: q :: ps) = p ++ sep ++ join sep (q :: ps).
Proof. reflexivity. Qed.

Lemma join_split (sep : char) (s : str) : join [sep] (split sep s) = s.
Proof.
  induction s as [|c r IH]; cbn [split]; [reflexivity|].
  destruct (N.eqb_spec c sep) as [->|Hne].
  - pose proof (split_not_nil sep r) as Hnil.
    destruct (split sep r) as [|l ls] eqn:E; [congruence|].
    rewrite join_cons_cons. cbn [app]. now rewrite IH.
  - pose proof (split_not_nil sep r) as Hnil.
    destruct (split sep r) as [|l ls] eqn:E; [congruence|].
    destruct ls as [|l' ls'].
    + cbn in *. now subst.
    + rewrite join_cons_cons in *. cbn [app] in *. now rewrite IH.
Qed.

Lemma split_no_sep (sep : char) (s : str) :
  Forall (fun l => ~ In sep l) (split sep s).
Proof.
  induction s as [|c r IH]; cbn [split].
  - constructor; [intros []|constructor].
  - destruct (N.eqb_spec c sep) as [->|Hne].
    + constructor; [intros []|exact IH].
    + destruct (split sep r) as [|l ls].
      * constructor; [|constructor]. intros [H|[]]. congruence.
      * inversion IH; subst. constructor; [|assumption].
        intros [H|H]; [congruence|contradiction].
Qed.

Lemma lstrip_decompose (s : str) :
  exists a, s = a ++ lstrip s /\ forallb isspace a = true
            /\ (forall c, hd_error (lstrip s) = Some c -> isspace c = false).
Proof.
  induction s as [|c r (a & Hs & Ha & Hh)]; cbn [lstrip].
  - exists []. repeat split; cbn; congruence.
  - destruct (isspace c) eqn:Ec.
    + exists (c :: a). cbn. rewrite Ec, Ha. repeat split; [congruence|assumption].
    + exists []. repeat split. cbn. congruence.
Qed.

Lemma rstrip_decompose (s : str) :
  exists b, s = rstrip s ++ b /\ forallb isspace b = true
            /\ (forall c, hd_error (rev (rstrip s)) = Some c -> isspace c = false).
Proof.
  unfold rstrip. destruct (lstrip_decompose (rev s)) as (a & Hs & Ha & Hh).
  exists (rev a). rewrite rev_involutive. repeat split.
  - rewrite <- rev_app_distr, <- Hs. now rewrite rev_involutive.
  - rewrite forallb_forall in *. intros x Hx. apply Ha. now apply in_rev.
  - assumption.
Qed.

Lemma strip_stripped (l : str) : Spec.stripped_of l (strip l).
Proof.
  unfold Spec.stripped_of, strip.
  destruct (lstrip_decompose l) as (a & Hl & Ha & Hh).
  destruct (rstrip_decompose (lstrip l)) as (b & Hr & Hb & Ht).
  exists a, b. repeat split; try assumption.
  - rewrite <- Hr. exact Hl.
  - intros c Hc. apply Hh. rewrite Hr.
    destruct (rstrip (lstrip l)); cbn in *; congruence.
Qed.

Lemma split_lines (text : str) : Spec.lines_of text (split newline text).
Proof.
  repeat split.
  - apply split_not_nil.
  - apply split_no_sep.
  - apply join_split.
Qed.

Lemma Forall2_map_r {A B} (R : A -> B -> Prop) (f : A -> B) (l : list A) :
  (forall x, R x (f x)) -> Forall2 R l (map f l).
Proof. intros H. induction l; cbn; constructor; auto. Qed.

Lemma is_action_item_list_item (isdigit : char -> bool) (s : str) :
  is_action_item isdigit s = Spec.list_item isdigit s.
Proof.
  destruct s as [|c r]; [reflexivity|].
  unfold is_action_item, Spec.list_item.
  change (lit "-") with [45%N]. change (lit "*") with [42%N].
  cbn [startswith].
  assert (E : forall x : str, startswith x [] = true) by (now destruct x).
  rewrite !E, !andb_true_r. now rewrite (N.eqb_sym 45 c), (N.eqb_sym 42 c).
Qed.

(** The accumulating loop is a filter over the stripped lines. *)
Lemma parse_loop_filter (p : str -> bool) (ls : list str) (acc : list str) :
  fold_left (fun items line =>
               let line := strip line in
               if p line then items ++ [line] else items) ls acc
  = acc ++ filter p (map strip ls).
Proof.
  revert acc. induction ls as [|l ls IH]; intros acc; cbn.
  - now rewrite app_nil_r.
  - rewrite IH. destruct (p (strip l)); [|reflexivity].
    now rewrite <- app_assoc.
Qed.

Lemma parse_action_items_filter (isdigit : char -> bool) (text : str) :
  parse_action_items isdigit text
  = filter (Spec.list_item isdigit) (map strip (split newline text)).
Proof.
  unfold parse_action_items.
  rewrite (parse_loop_filter (is_action_item isdigit)). cbn [app].
  apply filter_ext. intros a. apply is_action_item_list_item.
Qed.

(* ===================================================================== *)
(** * Running task bodies *)
(* ===================================================================== *)

Arguments lit : simpl never.
Arguments str_eqb : simpl never.
Arguments exc_str : simpl never.
Arguments of_int : simpl never.
Arguments strip : simpl never.
Arguments split : simpl never.
Arguments split_ws : simpl never.
Arguments parse_action_items : simpl never.
Arguments parse_key_points : simpl never.
Arguments upsert : simpl never.
Arguments order_by_start : simpl never.
Arguments count_speakers : simpl never.
Arguments job_conflict : simpl never.
Arguments step_conflict : simpl never.
Arguments file_conflict : simpl never.
Arguments transcription_conflict : simpl never.
Arguments analysis_conflict : simpl never.
Arguments exists_file : simpl never.
Arguments get_one : simpl never.
Arguments related_object : simpl never.
Arguments arity_error : simpl never.
Arguments summary_prompt : simpl never.
Arguments action_items_prompt : simpl never.
Arguments key_points_prompt : simpl never.
Arguments sentiment_prompt : simpl never.
Arguments PrimFloat.sub : simpl never.
Arguments Nat.ltb : simpl never.
Arguments N.succ : simpl never.

(** ** Weakest preconditions *)

Lemma wp_def {A} (c : M A) env s (Q : result A -> State -> Prop) :
  Q (fst (c env s)) (snd (c env s)) -> wp c env s Q.
Proof. exact (fun H => H). Qed.

Lemma wp_bind {A B} (c : M A) (k : A -> M B) env s (Q : result B -> State -> Prop) :
  wp c env s (bind_post k env Q) -> wp (bind c k) env s Q.
Proof.
  unfold wp, bind, bind_post. destruct (c env s) as [[a|e] s1]; cbn; auto.
Qed.

Lemma wp_try {A} (body : M A) (h : exn -> M A) env s (Q : result A -> State -> Prop) :
  wp body env s (try_post h env Q) -> wp (try_except body h) env s Q.
Proof.
  unfold wp, try_except, try_post. destruct (body env s) as [[a|e] s1]; cbn; auto.
Qed.

Lemma bind_post_Ok {A B} (k : A -> M B) env (Q : result B -> State -> Prop) a s :
  wp (k a) env s Q -> bind_post k env Q (Ok a) s.
Proof. exact (fun H => H). Qed.

Lemma bind_post_Raise {A B} (k : A -> M B) env (Q : result B -> State -> Prop) e s :
  Q (Raise e) s -> bind_post k env Q (Raise e) s.
Proof. exact (fun H => H). Qed.

Lemma try_post_Ok {A} (h : exn -> M A) env (Q : result A -> State -> Prop) a s :
  Q (Ok a) s -> try_post h env Q (Ok a) s.
Proof. exact (fun H => H). Qed.

Lemma try_post_Raise {A} (h : exn -> M A) env (Q : result A -> State -> Prop) e s :
  wp (h e) env s Q -> try_post h env Q (Raise e) s.
Proof. exact (fun H => H). Qed.

Lemma wp_run {A} (c : M A) env s (Q : result A -> State -> Prop) r s' :
  wp c env s Q -> c env s = (r, s') -> Q r s'.
Proof. unfold wp. intros H E. now rewrite E in H. Qed.

Lemma wp_mono {A} (c : M A) env s (Q Q' : result A -> State -> Prop) :
  wp c env s Q -> (forall r s', Q r s' -> Q' r s') -> wp c env s Q'.
Proof. unfold wp. auto. Qed.

Lemma wp_if {A} (b : bool) (c1 c2 : M A) env s (Q : result A -> State -> Prop) :
  (b = true -> wp c1 env s Q) -> (b = false -> wp c2 env s Q) ->
  wp (if b then c1 else c2) env s Q.
Proof. destruct b; auto. Qed.

Lemma get_one_Ok {A} (model : str) (l : list A) (x : A) :
  get_one model l = Ok x -> l = [x].
Proof.
  unfold get_one. destruct l as [|y [|z l]]; intros H; inversion H; reflexivity.
Qed.

Lemma get_one_single {A} (model : str) (x : A) : get_one model [x] = Ok x.
Proof. reflexivity. Qed.

Lemma related_object_Ok {A} (accessor model : str) (l : list A) (x : A) :
  related_object accessor model l = Ok x -> l = [x].
Proof.
  unfold related_object.
  destruct l as [|y [|z l]]; intros H; inversion H; reflexivity.
Qed.

Lemma related_object_single {A} (accessor model : str) (x : A) :
  related_object accessor model [x] = Ok x.
Proof. reflexivity. Qed.

Ltac norm :=
  unfold with_world, with_db, with_next_pk, with_tmp, with_queue, with_calls,
    with_ticks, with_recordings, with_files, with_jobs, with_steps,
    with_transcriptions, with_segments, with_analyses in *;
  cbn in *.

(** Bring the state to an explicit record of its fields. *)
Ltac norm_state :=
  unfold with_world, with_db, with_next_pk, with_tmp, with_queue, with_calls,
    with_ticks, with_recordings, with_files, with_jobs, with_steps,
    with_transcriptions, with_segments, with_analyses;
  cbn [with_world with_db with_next_pk with_tmp with_queue with_calls
       with_ticks with_recordings with_files with_jobs with_steps
       with_transcriptions with_segments with_analyses
       world var_step var_recording db next_pk tmp queue calls ticks
       recordings files jobs steps transcriptions segments analyses
       fst snd option_map last].

(** Unfold the definition at the head of a computation. *)
Ltac unfold_head c :=
  lazymatch c with
  | ?f _ _ _ _ _ _ _ _ => unfold f
  | ?f _ _ _ _ _ _ _ => unfold f
  | ?f _ _ _ _ _ _ => unfold f
  | ?f _ _ _ _ _ => unfold f
  | ?f _ _ _ _ => unfold f
  | ?f _ _ _ => unfold f
  | ?f _ _ => unfold f
  | ?f _ => unfold f
  | ?f => unfold f
  end.

(** Decide a scrutinee from what is known, or split on it. *)
Ltac split_on x :=
  let x' := eval cbn in x in
  lazymatch x' with
  | x =>
      first [ match goal with H : x = _ |- _ => rewrite H end
            | destruct x eqn:? ]
  | _ => change x with x'
  end;
  cbn beta iota.

(** One step of symbolic execution. Lookups and tests whose outcome is not
    known split the goal. *)
Ltac wp_step :=
  lazymatch goal with
  | |- wp (bind _ _) _ _ _ => apply wp_bind
  | |- wp (try_except _ _) _ _ _ => apply wp_try
  | |- wp (match ?x with _ => _ end) _ _ _ => split_on x
  | |- wp (fun _ _ => _) _ _ _ => apply wp_def; cbn beta; norm_state
  | |- wp ?c _ _ _ => unfold_head c
  | |- bind_post _ _ _ (Ok _) _ => apply bind_post_Ok; cbn beta
  | |- bind_post _ _ _ (Raise _) _ => apply bind_post_Raise
  | |- try_post _ _ _ (Ok _) _ => apply try_post_Ok
  | |- try_post _ _ _ (Raise _) _ => apply try_post_Raise; cbn beta
  | |- context [fst (match ?x with _ => _ end)] => split_on x; norm_state
  | |- bind_post _ _ _ ?r _ => split_on r
  | |- try_post _ _ _ ?r _ => split_on r
  end.

Ltac wp_run := repeat wp_step.

Arguments wp : simpl never.
Arguments bind_post : simpl never.
Arguments try_post : simpl never.

(* ===================================================================== *)
(** * Keys and row updates *)
(* ===================================================================== *)

Lemma distinct_keys_NoDup (l : list uuid) : distinct_keys l = true <-> NoDup l.
Proof.
  induction l as [|k r IH]; cbn.
  - split; [constructor|reflexivity].
  - rewrite andb_true_iff, negb_true_iff, IH. split.
    + intros [Hk Hr]. constructor; [|assumption]. intros Hin.
      assert (existsb (N.eqb k) r = true); [|congruence].
      apply existsb_exists. exists k. split; [assumption|apply N.eqb_refl].
    + intros H. inversion H; subst. split; [|assumption].
      destruct (existsb (N.eqb k) r) eqn:E; [|reflexivity].
      apply existsb_exists in E. destruct E as (x & Hx & Hkx).
      apply N.eqb_eq in Hkx. subst. contradiction.
Qed.

Lemma fresh_keys_iff (w : World) :
  fresh_keys w = true <->
  (forall s, In s (steps (db w)) ->
             (step_id s < next_pk w)%N /\ (step_job s < next_pk w)%N)
  /\ (forall j, In j (jobs (db w)) -> (job_id j < next_pk w)%N)
  /\ NoDup (map job_id (jobs (db w))).
Proof.
  unfold fresh_keys. rewrite !andb_true_iff, !forallb_forall.
  rewrite distinct_keys_NoDup. split.
  - intros [[Hs Hj] Hd]. repeat split; try assumption.
    + apply Hs in H. apply andb_true_iff in H. now rewrite !N.ltb_lt in H.
    + apply Hs in H. apply andb_true_iff in H. now rewrite !N.ltb_lt in H.
    + intros j Hin. apply Hj in Hin. now apply N.ltb_lt.
  - intros (Hs & Hj & Hd). repeat split; try assumption.
    + intros s Hin. apply Hs in Hin. apply andb_true_iff.
      now rewrite !N.ltb_lt.
    + intros j Hin. apply N.ltb_lt. now apply Hj.
Qed.

Lemma upsert_last {A} (same : A -> bool) (obj y : A) (l : list A) :
  (forall x, In x l -> same x = false) -> same y = true ->
  upsert same obj (l ++ [y]) = l ++ [obj].
Proof.
  intros Hl Hy. unfold upsert.
  rewrite existsb_app. cbn [existsb]. rewrite Hy. cbn [orb]. rewrite orb_true_r.
  rewrite map_app. cbn [map]. rewrite Hy. f_equal.
  rewrite <- (map_id l) at 2. apply map_ext_in.
  intros x Hx. now rewrite (Hl x Hx).
Qed.

Lemma upsert_filter {A} (same : A -> bool) (obj x : A) (l : list A) :
  filter same l = [x] -> same obj = true ->
  filter same (upsert same obj l) = [obj].
Proof.
  intros Hf Ho. unfold upsert.
  assert (He : existsb same l = true).
  { apply existsb_exists. exists x. apply filter_In. rewrite Hf. now left. }
  rewrite He. clear He. revert Hf.
  induction l as [|y l IH]; cbn; [discriminate|].
  destruct (same y) eqn:Ey; cbn.
  - rewrite Ho. intros H. inversion H as [[Hy Hl]]. f_equal.
    clear - Hl. induction l as [|z l IH]; cbn in *; [reflexivity|].
    destruct (same z) eqn:Ez; [discriminate|]. cbn. rewrite Ez. auto.
  - rewrite Ey. auto.
Qed.

Lemma filter_singleton_In {A} (p : A -> bool) (l : list A) (x : A) :
  filter p l = [x] -> In x l /\ p x = true.
Proof.
  intros H. apply filter_In. rewrite H. now left.
Qed.
Lemma run_self_retry (m : Message) (exc : exn) (cd : nat) env s :
  @self_retry str m exc cd env s =
  if max_retries (msg_task m) <? S (msg_retries m) then (Raise exc, s)
  else match broker_publish env (retry_message m cd) with
       | None => (Raise (Retry exc cd),
                  with_world (with_queue (queue (world s) ++ [retry_message m cd])
                                         (world s)) s)
       | Some e => (Raise (Reject e), s)
       end.
Proof.
  unfold self_retry, publish, try_except, bind, ask, raise, modify_world.
  destruct (max_retries (msg_task m) <? S (msg_retries m)); [reflexivity|].
  destruct (broker_publish env (retry_message m cd)); reflexivity.
Qed.

Lemma run_fail_step (exc : exn) env s :
  fail_step exc env s =
  (Ok tt,
   match var_step s with
   | None => s
   | Some st =>
       {| world :=
            with_db (with_steps
                       (upsert (fun x => (step_id x =? step_id st)%N)
                               (failed_step exc st) (steps (db (world s))))
                       (db (world s))) (world s);
          var_step := Some (failed_step exc st);
          var_recording := var_recording s |}
   end).
Proof.
  unfold fail_step, read_step, update_step, save_step, the_step,
    ProcessingStep_save, modify_db, modify_world, bind, ret.
  destruct s as [w [st|] r]; cbn; reflexivity.
Qed.

Lemma fresh_keys_intro (w : World) :
  (forall s, In s (steps (db w)) ->
             (step_id s < next_pk w)%N /\ (step_job s < next_pk w)%N) ->
  (forall j, In j (jobs (db w)) -> (job_id j < next_pk w)%N) ->
  NoDup (map job_id (jobs (db w))) ->
  fresh_keys w = true.
Proof. intros. apply fresh_keys_iff. auto. Qed.

(** The state after the first lines of an [except] block. *)
Lemma fail_step_facts (n : StepName) (rid : str) env (w : World) (s : State) (e : exn) :
  fresh_keys w = true -> body_inv n rid w s ->
  let s1 := snd (fail_step e env s) in
  fst (fail_step e env s) = Ok tt
  /\ jobs (db (world s1)) = jobs (db w)
  /\ queue (world s1) = queue w
  /\ recordings (db (world s1)) = recordings (db w)
  /\ steps_marked n e w (world s1)
  /\ fresh_keys (world s1) = true
  /\ var_recording s1 = var_recording s
  /\ (var_step s = None -> s1 = s).
Proof.
  intros Hfresh (Hjobs & Hq & Hrecs & Hpk & Hstep & _).
  apply fresh_keys_iff in Hfresh. destruct Hfresh as (Hfs & Hfj & Hnd).
  rewrite run_fail_step. cbn [fst snd].
  destruct (var_step s) as [st|] eqn:Hvar.
  - destruct Hstep as (st0 & Hsteps & Hid0 & Hid & Hlt & Hjob & Hjlt & Hname).
    assert (Hup : upsert (fun x => (step_id x =? step_id st)%N)
                    (failed_step e st) (steps (db (world s)))
                  = steps (db w) ++ [failed_step e st]).
    { rewrite Hsteps. apply upsert_last.
      - intros x Hx. apply N.eqb_neq. apply Hfs in Hx. lia.
      - apply N.eqb_eq. exact Hid0. }
    cbn. rewrite Hup. repeat split; try assumption; try discriminate.
    + right. exists (failed_step e st). repeat split. exact Hname.
    + apply fresh_keys_intro; cbn.
      * intros x Hx. apply in_app_or in Hx. destruct Hx as [Hx|[<-|[]]].
        -- apply Hfs in Hx. lia.
        -- cbn. apply N.ltb_lt in Hjlt. lia.
      * rewrite Hjobs. intros j Hj. apply Hfj in Hj. lia.
      * now rewrite Hjobs.
  - repeat split; try assumption.
    + now left.
    + apply fresh_keys_intro.
      * rewrite Hstep. intros x Hx. apply Hfs in Hx. lia.
      * rewrite Hjobs. intros j Hj. apply Hfj in Hj. lia.
      * now rewrite Hjobs.
Qed.

Lemma stage_handler_failed (n : StepName) (rid : str) env (m : Message) (w : World)
    (s : State) (e : exn) :
  n <> ai_analysis -> fresh_keys w = true -> body_inv n rid w s ->
  wp (fail_step e ;; self_retry m e (retry_countdown (task_of n))) env s
     (fun r s' => attempt_failed n rid env m w r (world s')).
Proof.
  intros Hn Hfresh Hinv.
  destruct (fail_step_facts env e Hfresh Hinv)
    as (Hok & Hjobs & Hq & Hrecs & Hsteps & Hfresh' & _ & _).
  apply wp_def. unfold bind.
  destruct (fail_step e env s) as [r1 s1]. cbn [fst snd] in *. subst r1.
  rewrite run_self_retry. unfold attempt_failed, retry_disposition.
  destruct (max_retries (msg_task m) <? S (msg_retries m)) eqn:Hmax;
    [|destruct (broker_publish env _) eqn:Hpub]; cbn [fst snd];
    norm_state.
  all: split; [assumption|]; split; [assumption|]; right; exists e.
  all: rewrite ?Hmax, ?Hpub.
  all: repeat split; try assumption; try congruence.
  all: destruct n; try congruence; exact Hrecs.
Qed.
Lemma recording_rows_id (rid : str) (w : World) (rec : Recording) :
  recording_rows rid w = [rec] -> rec_id rec = rid.
Proof.
  intros H. apply filter_singleton_In in H. now apply str_eqb_eq.
Qed.

Lemma wp_fail_step (n : StepName) (rid : str) env (w : World) (s : State) (e : exn) :
  fresh_keys w = true -> body_inv n rid w s ->
  wp (fail_step e) env s
     (fun r s1 =>
        r = Ok tt
        /\ jobs (db (world s1)) = jobs (db w)
        /\ queue (world s1) = queue w
        /\ recordings (db (world s1)) = recordings (db w)
        /\ steps_marked n e w (world s1)
        /\ fresh_keys (world s1) = true
        /\ var_recording s1 = var_recording s
        /\ (var_step s = None -> s1 = s)).
Proof. intros Hf Hi. apply wp_def. exact (fail_step_facts env e Hf Hi). Qed.

Lemma analysis_handler_failed (rid : str) env (m : Message) (w : World)
    (s : State) (e : exn) :
  fresh_keys w = true -> body_inv ai_analysis rid w s ->
  wp (fail_step e ;;
      update_recording (set_rec_status rec_failed) ;;
      update_recording (set_rec_error_message (exc_str e)) ;;
      save_recording ;;
      self_retry m e 180) env s
     (fun r s' => attempt_failed ai_analysis rid env m w r (world s')).
Proof.
  intros Hfresh Hinv.
  apply wp_bind. eapply wp_mono; [exact (wp_fail_step env e Hfresh Hinv)|].
  intros r s1 (-> & Hjobs & Hq & Hrecs & Hsteps & Hfresh' & Hvar & Hsame).
  destruct Hinv as (_ & _ & _ & _ & Hstep & Hrec).
  apply bind_post_Ok. cbn beta.
  destruct (var_recording s) as [rec|] eqn:Hvr.
  - pose proof (recording_rows_id _ _ Hrec) as Hid.
    wp_run.
    all: unfold attempt_failed, retry_disposition; norm_state.
    all: cbn [retry_countdown task_of] in *.
    all: try match goal with H : (_ <? _) = _ |- _ => rewrite H end.
    all: try match goal with H : broker_publish _ _ = _ |- _ => rewrite H end.
    all: cbn [retry_countdown task_of] in *; cbv iota.
    all: split; [assumption|]; split; [exact Hfresh'|]; right; exists e.
    all: split; [split; congruence|]. all: split; [exact Hsteps|].
    all: cbn [recording_marked]; exists rec; eexists; split; [exact Hrec|].
    all: unfold recording_rows; cbn [db recordings].
    all: cbn [rec_id rec_status rec_error_message set_rec_error_message
              set_rec_status]; rewrite Hid, Hrecs.
    all: split; [apply (upsert_filter _ _ _ Hrec); cbn [rec_id];
                 apply str_eqb_refl|].
    all: split; reflexivity.
  - destruct Hrec as [Hnone Hmissing].
    specialize (Hsame Hnone). subst s1. wp_run.
    unfold attempt_failed. split; [assumption|]. split; [assumption|]. left.
    rewrite Hnone in Hstep. now repeat split.
Qed.
Lemma attempt_failed_raise n rid env m w r w' :
  attempt_failed n rid env m w r w' -> exists e, r = Raise e.
Proof.
  intros (_ & _ & [(_ & _ & -> & _)|(exc & Hd & _)]); [eauto|].
  unfold retry_disposition in Hd.
  destruct (_ <? _); [|destruct (broker_publish _ _)];
    destruct Hd as [-> _]; eauto.
Qed.

Lemma attempt_post_failed n rid env m w ok r s' :
  attempt_failed n rid env m w r (world s') -> attempt_post n rid env m w ok r s'.
Proof.
  intros H. destruct (attempt_failed_raise H) as [e ->]. exact H.
Qed.


Lemma job_rows_id (rid : str) (w : World) (job : ProcessingJob) :
  job_rows rid w = [job] -> job_recording job = rid /\ In job (jobs (db w)).
Proof.
  intros H. apply filter_singleton_In in H. destruct H as [Hin Heq].
  split; [now apply str_eqb_eq|assumption].
Qed.

Lemma fresh_keys_job (w : World) (job : ProcessingJob) :
  fresh_keys w = true -> In job (jobs (db w)) ->
  (job_id job <? next_pk w)%N = true.
Proof.
  intros Hf Hin. apply fresh_keys_iff in Hf. apply N.ltb_lt. now apply Hf.
Qed.

Lemma upsert_new_step (w : World) (st obj : ProcessingStep) :
  fresh_keys w = true -> step_id st = next_pk w ->
  upsert (fun x => (step_id x =? next_pk w)%N) obj (steps (db w) ++ [st])
  = steps (db w) ++ [obj].
Proof.
  intros Hf Hid. apply upsert_last.
  - intros x Hx. apply N.eqb_neq. apply fresh_keys_iff in Hf.
    apply Hf in Hx. lia.
  - now apply N.eqb_eq.
Qed.

(** Keys stay fresh when a stage appends its step, leaves the jobs alone
    and draws more keys. *)
Lemma fresh_keys_step_added (w w' : World) (st : ProcessingStep) (job : ProcessingJob) :
  fresh_keys w = true -> In job (jobs (db w)) ->
  steps (db w') = steps (db w) ++ [st] ->
  step_id st = next_pk w -> step_job st = job_id job ->
  map job_id (jobs (db w')) = map job_id (jobs (db w)) ->
  (next_pk w < next_pk w')%N ->
  fresh_keys w' = true.
Proof.
  intros Hf Hin Hs Hid Hjob Hj Hlt.
  pose proof (fresh_keys_job _ _ Hf Hin) as Hjlt. apply N.ltb_lt in Hjlt.
  apply fresh_keys_iff in Hf. destruct Hf as (Hfs & Hfj & Hnd).
  apply fresh_keys_intro.
  - rewrite Hs. intros x Hx. apply in_app_or in Hx.
    destruct Hx as [Hx|[<-|[]]]; [apply Hfs in Hx; lia|lia].
  - intros j Hjj. apply (in_map job_id) in Hjj. rewrite Hj in Hjj.
    apply in_map_iff in Hjj. destruct Hjj as (j' & <- & Hj').
    apply Hfj in Hj'. lia.
  - now rewrite Hj.
Qed.

Lemma fresh_keys_more (w w' : World) :
  fresh_keys w = true ->
  steps (db w') = steps (db w) -> jobs (db w') = jobs (db w) ->
  (next_pk w <= next_pk w')%N ->
  fresh_keys w' = true.
Proof.
  intros Hf Hs Hj Hle.
  apply fresh_keys_iff in Hf. destruct Hf as (Hfs & Hfj & Hnd).
  apply fresh_keys_intro.
  - rewrite Hs. intros x Hx. apply Hfs in Hx. lia.
  - rewrite Hj. intros j Hjj. apply Hfj in Hjj. lia.
  - now rewrite Hj.
Qed.

Lemma get_one_In {A} (model : str) (p : A -> bool) (l : list A) (x : A) :
  get_one model (filter p l) = Ok x -> In x l /\ p x = true.
Proof. intros H. apply get_one_Ok in H. now apply filter_singleton_In. Qed.

Lemma get_one_Raise_singleton {A} (model : str) (l : list A) (x : A) (e : exn) :
  get_one model l = Raise e -> l = [x] -> False.
Proof. intros H ->. discriminate. Qed.

Lemma related_object_In {A} (accessor model : str) (p : A -> bool) (l : list A)
    (x : A) :
  related_object accessor model (filter p l) = Ok x -> In x l /\ p x = true.
Proof. intros H. apply related_object_Ok in H. now apply filter_singleton_In. Qed.

Lemma related_object_Raise_singleton {A} (accessor model : str) (l : list A)
    (x : A) (e : exn) :
  related_object accessor model l = Raise e -> l = [x] -> False.
Proof. intros H ->. discriminate. Qed.

(** What a lookup that returned says of the rows it looked at. *)
Ltac found H :=
  first [ exact (get_one_Ok _ _ H) | exact (related_object_Ok _ _ _ H) ].

(** The invariant of a stage body at a point where it raised. *)
Ltac solve_inv :=
  unfold body_inv; norm_state;
  cbn [step_id step_job step_name failed_step set_step_status
       set_step_error_message set_step_completed_at
       set_step_duration_seconds set_step_output_file set_step_metadata];
  rewrite ?upsert_new_step by (assumption || reflexivity);
  repeat first [split | eexists]; try reflexivity; try lia;
  try (eapply fresh_keys_job; [eassumption|];
       first [ eapply get_one_In; eassumption
             | eapply related_object_In; eassumption ]);
  try (eapply get_one_Ok; eassumption);
  try (eapply related_object_Ok; eassumption);
  try (intros ? ?;
       first [ eapply get_one_Raise_singleton; eassumption
             | eapply related_object_Raise_singleton; eassumption ]).

Ltac handler_step :=
  lazymatch goal with
  | |- try_post _ _ (attempt_post ?n ?rid ?env ?m ?w _) (Raise ?e) ?s =>
      apply try_post_Raise; cbn beta;
      eapply wp_mono;
      [ first [ apply (@stage_handler_failed n rid env m w s e);
                [discriminate|eassumption|]
              | apply (@analysis_handler_failed rid env m w s e);
                [eassumption|] ]
      | intros ? ?; apply attempt_post_failed ]
  end.

Ltac attempt_run := repeat first [ handler_step | wp_step ].


(** The leaves of a media stage that returned. *)
Ltac solve_media_success Hfresh Heqr Heqr0 :=
  let Hrec := fresh "Hrec" in
  let Hid := fresh "Hid" in
  let Hjob := fresh "Hjob" in
  let Hin := fresh "Hin" in
  pose proof (get_one_Ok _ _ Heqr) as Hrec;
  pose proof (recording_rows_id _ _ Hrec) as Hid;
  rewrite Hid in *;
  pose proof (related_object_Ok _ _ _ Heqr0) as Hjob;
  destruct (job_rows_id _ _ Hjob) as [_ Hin];
  unfold attempt_post, media_stage_succeeded, step_completed,
    same_recordings, same_jobs, same_transcripts, same_analyses;
  norm_state;
  cbn [step_id step_job step_name set_step_status
       set_step_completed_at set_step_duration_seconds
       set_step_output_file set_step_metadata];
  rewrite upsert_new_step by (assumption || reflexivity);
  split; [reflexivity|];
  split;
    [eexists _, _, _;
     repeat first [split | eexists]; try reflexivity; try eassumption;
     (eapply fresh_keys_step_added;
      [exact Hfresh|exact Hin|reflexivity|reflexivity|reflexivity
      |reflexivity|cbn; lia])|];
  split; [eexists; repeat split; reflexivity|];
  repeat split; try reflexivity;
  assumption.

Lemma convert_attempt env (m : Message) (rid : str) (w : World) :
  fresh_keys w = true ->
  wp (convert_webm_to_mp4 m rid) env (start w)
     (attempt_post video_conversion rid env m w
        (media_stage_succeeded video_conversion converted_mp4 rid w)).
Proof.
  intros Hfresh. unfold convert_webm_to_mp4, start.
  attempt_run.
  all: try solve [solve_inv].
  all: solve_media_success Hfresh Heqr Heqr0.
Qed.

Lemma extract_attempt env (m : Message) (rid : str) (w : World) :
  fresh_keys w = true ->
  wp (extract_audio_from_video m rid) env (start w)
     (attempt_post audio_extraction rid env m w
        (media_stage_succeeded audio_extraction audio_extract rid w)).
Proof.
  intros Hfresh. unfold extract_audio_from_video, start.
  attempt_run.
  all: try solve [solve_inv].
  all: solve_media_success Hfresh Heqr Heqr0.
Qed.
(** The transcription stage: every path of its body ends in the [except]
    block. *)
Lemma transcribe_attempt env (m : Message) (rid : str) (w : World) :
  fresh_keys w = true ->
  wp (transcribe_audio m rid) env (start w)
     (attempt_post speech_to_text rid env m w (fun _ _ => False)).
Proof.
  intros Hfresh. unfold transcribe_audio, start.
  attempt_run.
  all: solve_inv.
Qed.

Lemma existsb_app_false {A} (p : A -> bool) (l l' : list A) :
  existsb p (l ++ l') = false -> existsb p l = false.
Proof.
  rewrite existsb_app. now intros H%orb_false_iff.
Qed.

(** No analysis row of any of the four types means no row at all. *)
Lemma analyses_none (rid : str) (l l1 l2 l3 : list AIAnalysis) :
  let p ty := fun a => str_eqb (ai_recording a) rid
                       && AnalysisType_eqb (ai_analysis_type a) ty in
  existsb (p summary) l = false ->
  existsb (p action_items) (l ++ l1) = false ->
  existsb (p key_points) (l ++ l2) = false ->
  existsb (p sentiment) (l ++ l3) = false ->
  filter (fun a => str_eqb (ai_recording a) rid) l = [].
Proof.
  intros p H1 H2 H3 H4.
  apply existsb_app_false in H2, H3, H4.
  destruct (filter _ l) as [|a r] eqn:E; [reflexivity|exfalso].
  assert (Ha : In a (filter (fun a => str_eqb (ai_recording a) rid) l))
    by (rewrite E; now left).
  apply filter_In in Ha. destruct Ha as [Hin Hrid].
  assert (Hex : forall ty, ai_analysis_type a = ty -> existsb (p ty) l = true).
  { intros ty Hty. apply existsb_exists. exists a. split; [assumption|].
    unfold p. rewrite Hrid, Hty. now destruct ty. }
  destruct (ai_analysis_type a) eqn:Ety;
    specialize (Hex _ eq_refl); congruence.
Qed.

Lemma filter_map_same {A} (p : A -> bool) (f : A -> A) (l : list A) :
  (forall x, In x l -> p (f x) = p x) ->
  filter p (map f l) = map f (filter p l).
Proof.
  induction l as [|x l IH]; intros H; cbn; [reflexivity|].
  rewrite (H x (or_introl eq_refl)).
  destruct (p x); cbn; rewrite IH by (intros; apply H; now right); reflexivity.
Qed.

Lemma NoDup_map_inj {A B} (f : A -> B) (l : list A) (x y : A) :
  NoDup (map f l) -> In x l -> In y l -> f x = f y -> x = y.
Proof.
  induction l as [|z l IH]; cbn; [contradiction|].
  intros Hnd [->|Hx] [->|Hy] Hf; inversion Hnd; subst; auto.
  - exfalso. apply H1. rewrite Hf. now apply in_map.
  - exfalso. apply H1. rewrite <- Hf. now apply in_map.
Qed.

(** [job.save()] of the job of [rid], with the same key and recording. *)
Lemma job_rows_saved (rid : str) (w : World) (job job' : ProcessingJob) :
  fresh_keys w = true -> job_rows rid w = [job] ->
  job_id job' = job_id job -> job_recording job' = rid ->
  filter (fun j => str_eqb (job_recording j) rid)
         (upsert (fun x => (job_id x =? job_id job')%N) job' (jobs (db w)))
  = [job'].
Proof.
  intros Hf Hrows Hid Hrec.
  apply fresh_keys_iff in Hf. destruct Hf as (_ & _ & Hnd).
  destruct (job_rows_id _ _ Hrows) as [Hjrec Hin].
  unfold upsert.
  assert (He : existsb (fun x => (job_id x =? job_id job')%N) (jobs (db w)) = true).
  { apply existsb_exists. exists job. split; [assumption|].
    apply N.eqb_eq. congruence. }
  rewrite He. rewrite filter_map_same.
  - unfold job_rows in Hrows. rewrite Hrows. cbn.
    rewrite Hid, N.eqb_refl. reflexivity.
  - intros x Hx. destruct (N.eqb_spec (job_id x) (job_id job')) as [E|E];
      [|reflexivity].
    assert (x = job) by (eapply NoDup_map_inj; eauto; congruence).
    subst x. now rewrite Hrec, Hjrec.
Qed.

Lemma job_ids_saved (job' : ProcessingJob) (l : list ProcessingJob) :
  In (job_id job') (map job_id l) ->
  map job_id (upsert (fun x => (job_id x =? job_id job')%N) job' l)
  = map job_id l.
Proof.
  intros Hin. unfold upsert.
  assert (He : existsb (fun x => (job_id x =? job_id job')%N) l = true).
  { apply in_map_iff in Hin. destruct Hin as (x & Hx & Hl).
    apply existsb_exists. exists x. split; [assumption|]. now apply N.eqb_eq. }
  rewrite He, map_map. apply map_ext. intros x.
  destruct (N.eqb_spec (job_id x) (job_id job')); congruence.
Qed.

Lemma analyze_attempt env (m : Message) (rid : str) (w : World) :
  fresh_keys w = true ->
  wp (analyze_transcription m rid) env (start w)
     (attempt_post ai_analysis rid env m w (analysis_succeeded rid w)).
Proof.
  intros Hfresh. unfold analyze_transcription, start.
  repeat first [ handler_step | wp_step ].
  all: try solve [solve_inv].
  pose proof (get_one_Ok _ _ Heqr) as Hrec.
  pose proof (recording_rows_id _ _ Hrec) as Hid.
  rewrite Hid in *.
  pose proof (related_object_Ok _ _ _ Heqr0) as Hjob.
  destruct (job_rows_id _ _ Hjob) as [Hjrec Hin].
  unfold attempt_post, analysis_succeeded, step_completed,
    same_files, same_transcripts.
  norm_state.
  cbn [step_id step_job step_name set_step_status
       set_step_completed_at set_step_duration_seconds
       set_step_output_file set_step_metadata].
  rewrite upsert_new_step by (assumption || reflexivity).
  split; [reflexivity|].
  split;
    [eexists _, _, _;
     repeat first [split | eexists]; try reflexivity; try eassumption;
     (eapply fresh_keys_step_added;
      [exact Hfresh|exact Hin|reflexivity|reflexivity|reflexivity
      | cbn [db jobs]; apply job_ids_saved; cbn; now apply in_map
      | cbn; lia])|].
  split; [reflexivity|]. split; [split; reflexivity|].
  split; [eexists; eapply related_object_Ok; eassumption|].
  split.
  { unfold analysis_conflict in *.
    rewrite <- ?app_assoc in *.
    eapply analyses_none; eassumption. }
  split.
  { eexists _, _, _, _. split; [|split].
    - rewrite <- !app_assoc. reflexivity.
    - reflexivity.
    - reflexivity. }
  split.
  { eexists. split.
    - unfold recording_rows. cbn [db recordings rec_id set_rec_status
        set_rec_completed_at]. rewrite Hid.
      apply (upsert_filter _ _ _ Hrec). cbn. apply str_eqb_refl.
    - split; [reflexivity|eexists; reflexivity]. }
  eexists _, _. split; [exact Hjob|]. split.
  - unfold job_rows. cbn [db jobs].
    refine (@job_rows_saved rid w a0
              (set_job_progress_percentage 100
                 (set_job_completed_at (Some _) (set_job_status completed a0)))
              Hfresh Hjob eq_refl Hjrec).
  - repeat split. eexists. reflexivity.
Qed.
Lemma existsb_false_filter {A} (p : A -> bool) (l : list A) :
  existsb p l = false -> filter p l = [].
Proof.
  induction l as [|x l IH]; cbn; [reflexivity|].
  destruct (p x); cbn; [discriminate|exact IH].
Qed.

Lemma fresh_keys_job_added (w w' : World) (job : ProcessingJob) :
  fresh_keys w = true ->
  steps (db w') = steps (db w) ->
  jobs (db w') = jobs (db w) ++ [job] -> job_id job = next_pk w ->
  (next_pk w < next_pk w')%N ->
  fresh_keys w' = true.
Proof.
  intros Hf Hs Hj Hid Hlt.
  apply fresh_keys_iff in Hf. destruct Hf as (Hfs & Hfj & Hnd).
  apply fresh_keys_intro.
  - rewrite Hs. intros x Hx. apply Hfs in Hx. lia.
  - rewrite Hj. intros j Hjj. apply in_app_or in Hjj.
    destruct Hjj as [Hjj|[<-|[]]]; [apply Hfj in Hjj; lia|lia].
  - rewrite Hj, map_app. cbn [map].
    apply NoDup_app; [assumption| |].
    + constructor; [intros []|constructor].
    + intros k Hk [<-|[]]. apply in_map_iff in Hk.
      destruct Hk as (j & Hjk & Hjin). apply Hfj in Hjin. lia.
Qed.

Lemma pipeline_attempt env (m : Message) (rid : str) (w : World) :
  fresh_keys w = true ->
  wp (process_recording_pipeline m rid) env (start w) (pipeline_post env m rid w).
Proof.
  intros Hfresh. unfold process_recording_pipeline, start.
  wp_run.
  all: unfold pipeline_post.
  all: try (pose proof (get_one_Ok _ _ Heqr) as Hrec;
            pose proof (recording_rows_id _ _ Hrec) as Hid;
            cbn [rec_id set_rec_status] in *; rewrite Hid in *).
  all: unfold job_conflict in *.
  7: {
    unfold pipeline_started, same_steps, same_files, same_transcripts,
      same_analyses. norm_state.
    split; [reflexivity|].
    split.
    { eexists _, _. split; [exact Hrec|]. split.
      - unfold recording_rows. cbn [db recordings].
        apply (upsert_filter _ _ _ Hrec). cbn. apply str_eqb_refl.
      - reflexivity. }
    split; [now apply existsb_false_filter|].
    split.
    { eexists. split; [reflexivity|]. repeat split.
      exists (S (ticks w)). split; [reflexivity|lia]. }
    split; [eexists; reflexivity|].
    repeat split.
    eapply fresh_keys_job_added;
      [exact Hfresh|reflexivity|reflexivity|reflexivity|cbn; lia]. }
  all: unfold pipeline_failed, retry_disposition, same_steps, same_files,
         same_transcripts, same_analyses, same_jobs; norm_state.
  all: eexists.
  all: try match goal with H : (_ <? _) = _ |- _ => rewrite H end.
  all: try match goal with H : broker_publish _ (retry_message _ _) = _ |- _ =>
             rewrite H end.
  all: (split; [split; reflexivity|]).
  all: repeat split; try reflexivity; try congruence.
  all: try (intros rec Hrec'; exfalso;
            eapply get_one_Raise_singleton; eassumption).
  all: unfold job_conflict in *; congruence.
Qed.

(* ===================================================================== *)
(** * Attempts as the worker runs them *)
(* ===================================================================== *)

Lemma run_task_body env (m : Message) (rid : str) (w : World)
    (Q : result str -> State -> Prop) (r : result str) (w' : World) :
  msg_args m = [rid] ->
  wp (task_body (msg_task m) m rid) env (start w) Q ->
  run_task env m w = (r, w') ->
  exists s', world s' = w' /\ Q r s'.
Proof.
  intros Ha Hwp Hrun. unfold run_task in Hrun. rewrite Ha in Hrun.
  fold (start w) in Hrun.
  destruct (task_body (msg_task m) m rid env (start w)) as [r0 s0] eqn:E.
  inversion Hrun; subst. exists s0. split; [reflexivity|].
  eapply wp_run; eassumption.
Qed.

(** Every attempt of a stage either returns, having done what
    [stage_succeeded] says, or fails as [attempt_failed] says. *)
Lemma stage_attempt (n : StepName) env (m : Message) (rid : str) (w : World)
    (r : result str) (w' : World) :
  fresh_keys w = true -> msg_task m = task_of n -> msg_args m = [rid] ->
  run_task env m w = (r, w') ->
  stage_outcome n rid env m w r w'.
Proof.
  intros Hf Ht Ha Hrun.
  assert (Hwp : wp (task_body (msg_task m) m rid) env (start w)
                   (attempt_post n rid env m w (stage_succeeded n env rid w))).
  { rewrite Ht. destruct n; cbn [task_of task_body stage_succeeded].
    - now apply convert_attempt.
    - now apply extract_attempt.
    - now apply transcribe_attempt.
    - now apply analyze_attempt. }
  destruct (@run_task_body env m rid w _ r w' Ha Hwp Hrun) as (s' & <- & HQ).
  unfold attempt_post in HQ. unfold stage_outcome. now destruct r.
Qed.

Lemma pipeline_run env (m : Message) (rid : str) (w : World)
    (r : result str) (w' : World) :
  fresh_keys w = true -> msg_task m = T_process_recording_pipeline ->
  msg_args m = [rid] ->
  run_task env m w = (r, w') ->
  pipeline_outcome rid env m w r w'.
Proof.
  intros Hf Ht Ha Hrun.
  assert (Hwp : wp (task_body (msg_task m) m rid) env (start w)
                   (pipeline_post env m rid w)).
  { rewrite Ht. now apply pipeline_attempt. }
  destruct (@run_task_body env m rid w _ r w' Ha Hwp Hrun) as (s' & <- & HQ).
  unfold pipeline_post in HQ. unfold pipeline_outcome. now destruct r.
Qed.

(* ===================================================================== *)
(** * Attempts that end at a known error *)
(* ===================================================================== *)

Lemma step_conflict_In (job : uuid) (n : StepName) (rows : list ProcessingStep)
    (st : ProcessingStep) :
  In st rows -> step_job st = job -> step_name st = n ->
  step_conflict job n rows = true.
Proof.
  intros Hin Hj Hn. unfold step_conflict. apply existsb_exists.
  exists st. split; [exact Hin|]. rewrite Hj, Hn, N.eqb_refl.
  now destruct n.
Qed.

(** The lookups of a task's first lines, in the form the run meets them. *)
Lemma first_lookups (rid : str) (w : World) (rec : Recording)
    (job : ProcessingJob) :
  recording_rows rid w = [rec] -> job_rows rid w = [job] ->
  rec_id rec = rid
  /\ get_one (lit "Recording")
       (filter (fun r => str_eqb (rec_id r) rid) (recordings (db w))) = Ok rec
  /\ related_object (lit "processing_job") (lit "ProcessingJob")
       (filter (fun j => str_eqb (job_recording j) (rec_id rec)) (jobs (db w)))
     = Ok job.
Proof.
  intros Hrec Hjob. pose proof (recording_rows_id _ _ Hrec) as Hid.
  unfold recording_rows in Hrec. unfold job_rows in Hjob.
  rewrite Hid, Hrec, Hjob. repeat split.
Qed.

Ltac solve_disposition :=
  unfold retry_disposition; cbn [retry_countdown task_of] in *;
  repeat match goal with H : (_ <? _) = _ |- _ => rewrite H; clear H end;
  repeat match goal with H : broker_publish _ _ = _ |- _ => rewrite H; clear H end;
  split; reflexivity.

Ltac solve_refused :=
  unfold step_refused, same_steps, same_files, same_jobs, same_transcripts,
    same_analyses; norm_state;
  split; [discriminate|];
  repeat (split; [solve [reflexivity | split; reflexivity]|]);
  eexists; split; [solve_disposition|];
  split; [reflexivity|left; reflexivity].

Lemma convert_refused env (m : Message) (rid : str) (w : World)
    (rec : Recording) (job : ProcessingJob) :
  recording_rows rid w = [rec] -> job_rows rid w = [job] ->
  step_conflict (job_id job) video_conversion (steps (db w)) = true ->
  wp (convert_webm_to_mp4 m rid) env (start w)
     (fun r s' => step_refused video_conversion rid env m w r (world s')).
Proof.
  intros Hrec Hjob Hconf.
  destruct (@first_lookups rid w rec job Hrec Hjob) as (Hid & G1 & G2).
  unfold convert_webm_to_mp4, start. wp_run.
  all: solve_refused.
Qed.

Lemma extract_refused env (m : Message) (rid : str) (w : World)
    (rec : Recording) (job : ProcessingJob) :
  recording_rows rid w = [rec] -> job_rows rid w = [job] ->
  step_conflict (job_id job) audio_extraction (steps (db w)) = true ->
  wp (extract_audio_from_video m rid) env (start w)
     (fun r s' => step_refused audio_extraction rid env m w r (world s')).
Proof.
  intros Hrec Hjob Hconf.
  destruct (@first_lookups rid w rec job Hrec Hjob) as (Hid & G1 & G2).
  unfold extract_audio_from_video, start. wp_run.
  all: solve_refused.
Qed.

Lemma transcribe_refused env (m : Message) (rid : str) (w : World)
    (rec : Recording) (job : ProcessingJob) :
  recording_rows rid w = [rec] -> job_rows rid w = [job] ->
  step_conflict (job_id job) speech_to_text (steps (db w)) = true ->
  wp (transcribe_audio m rid) env (start w)
     (fun r s' => step_refused speech_to_text rid env m w r (world s')).
Proof.
  intros Hrec Hjob Hconf.
  destruct (@first_lookups rid w rec job Hrec Hjob) as (Hid & G1 & G2).
  unfold transcribe_audio, start. wp_run.
  all: solve_refused.
Qed.

Lemma analyze_refused env (m : Message) (rid : str) (w : World)
    (rec : Recording) (job : ProcessingJob) :
  recording_rows rid w = [rec] -> job_rows rid w = [job] ->
  step_conflict (job_id job) ai_analysis (steps (db w)) = true ->
  wp (analyze_transcription m rid) env (start w)
     (fun r s' => step_refused ai_analysis rid env m w r (world s')).
Proof.
  intros Hrec Hjob Hconf.
  destruct (@first_lookups rid w rec job Hrec Hjob) as (Hid & G1 & G2).
  unfold analyze_transcription, start. wp_run.
  all: unfold step_refused, same_steps, same_files, same_jobs, same_transcripts,
    same_analyses; norm_state.
  all: (split; [discriminate|]).
  all: repeat (split; [solve [reflexivity | split; reflexivity]|]).
  all: eexists; split; [solve_disposition|].
  all: split;
    [ cbn [recording_marked]; exists rec; eexists; split; [exact Hrec|];
      unfold recording_rows; cbn [db recordings];
      cbn [rec_id rec_status rec_error_message set_rec_error_message
           set_rec_status]; rewrite Hid;
      split; [apply (upsert_filter _ _ _ Hrec); cbn [rec_id];
              apply str_eqb_refl|];
      split; reflexivity
    | first [ left; reflexivity
            | right; split; [reflexivity|]; intros tr Htr;
              unfold transcription_rows in Htr; rewrite <- Hid in Htr;
              eapply related_object_Raise_singleton; eassumption ] ].
Qed.

Lemma missing_file (rid : str) (ft : FileType) (w : World) (rec : Recording)
    (exc : exn) :
  rec_id rec = rid ->
  match file_rows rid ft w with
  | [] => Some (DoesNotExist (lit "RecordingFile"))
  | _ :: _ => None
  end = Some exc ->
  exc = DoesNotExist (lit "RecordingFile")
  /\ get_one (lit "RecordingFile")
       (filter (fun f => str_eqb (rf_recording f) (rec_id rec)
                         && FileType_eqb (rf_file_type f) ft) (files (db w)))
     = Raise (DoesNotExist (lit "RecordingFile")).
Proof.
  intros Hid H. unfold file_rows in H. rewrite Hid.
  destruct (filter _ _); [|discriminate]. injection H as <-. now split.
Qed.

Ltac solve_surfaced Hf :=
  unfold error_surfaced; norm_state;
  split; [reflexivity|];
  split; [|solve_disposition];
  eexists; split;
  [ apply upsert_last;
    [ intros x Hx; apply N.eqb_neq;
      cbn [step_id set_step_error_message set_step_status];
      apply fresh_keys_iff in Hf; destruct Hf as (Hs & _);
      apply Hs in Hx; lia
    | cbn [step_id set_step_error_message set_step_status];
      apply N.eqb_refl ]
  | repeat split ].

Lemma convert_early env (m : Message) (rid : str) (w : World)
    (rec : Recording) (job : ProcessingJob) (exc : exn) :
  fresh_keys w = true ->
  recording_rows rid w = [rec] -> job_rows rid w = [job] ->
  step_conflict (job_id job) video_conversion (steps (db w)) = false ->
  early_error video_conversion rid env w = Some exc ->
  wp (convert_webm_to_mp4 m rid) env (start w)
     (fun r s' => error_surfaced video_conversion job exc env m w r (world s')).
Proof.
  intros Hf Hrec Hjob Hconf Herr.
  destruct (@first_lookups rid w rec job Hrec Hjob) as (Hid & G1 & G2).
  destruct (@missing_file rid original_webm w rec exc Hid Herr) as (-> & G3).
  unfold convert_webm_to_mp4, start. wp_run.
  all: solve_surfaced Hf.
Qed.

Lemma extract_early env (m : Message) (rid : str) (w : World)
    (rec : Recording) (job : ProcessingJob) (exc : exn) :
  fresh_keys w = true ->
  recording_rows rid w = [rec] -> job_rows rid w = [job] ->
  step_conflict (job_id job) audio_extraction (steps (db w)) = false ->
  early_error audio_extraction rid env w = Some exc ->
  wp (extract_audio_from_video m rid) env (start w)
     (fun r s' => error_surfaced audio_extraction job exc env m w r (world s')).
Proof.
  intros Hf Hrec Hjob Hconf Herr.
  destruct (@first_lookups rid w rec job Hrec Hjob) as (Hid & G1 & G2).
  destruct (@missing_file rid original_webm w rec exc Hid Herr) as (-> & G3).
  unfold extract_audio_from_video, start. wp_run.
  all: solve_surfaced Hf.
Qed.

Lemma transcribe_early env (m : Message) (rid : str) (w : World)
    (rec : Recording) (job : ProcessingJob) (exc : exn) :
  fresh_keys w = true ->
  recording_rows rid w = [rec] -> job_rows rid w = [job] ->
  step_conflict (job_id job) speech_to_text (steps (db w)) = false ->
  early_error speech_to_text rid env w = Some exc ->
  wp (transcribe_audio m rid) env (start w)
     (fun r s' => error_surfaced speech_to_text job exc env m w r (world s')).
Proof.
  intros Hf Hrec Hjob Hconf Herr.
  destruct (@first_lookups rid w rec job Hrec Hjob) as (Hid & G1 & G2).
  cbn [early_error] in Herr.
  destruct (truthy (DEEPGRAM_API_KEY env)) eqn:Hkey.
  - destruct (@missing_file rid audio_extract w rec exc Hid Herr) as (-> & G3).
    unfold transcribe_audio, start. wp_run.
    all: solve_surfaced Hf.
  - injection Herr as <-.
    unfold transcribe_audio, start. wp_run.
    all: solve_surfaced Hf.
Qed.

Lemma analyze_early env (m : Message) (rid : str) (w : World)
    (rec : Recording) (job : ProcessingJob) (tr : Transcription) (exc : exn) :
  fresh_keys w = true ->
  recording_rows rid w = [rec] -> job_rows rid w = [job] ->
  transcription_rows rid w = [tr] ->
  step_conflict (job_id job) ai_analysis (steps (db w)) = false ->
  early_error ai_analysis rid env w = Some exc ->
  wp (analyze_transcription m rid) env (start w)
     (fun r s' => error_surfaced ai_analysis job exc env m w r (world s')).
Proof.
  intros Hf Hrec Hjob Htr Hconf Herr.
  destruct (@first_lookups rid w rec job Hrec Hjob) as (Hid & G1 & G2).
  assert (G3 := related_object_single (lit "transcription")
                  (lit "Transcription") tr).
  rewrite <- Htr in G3. unfold transcription_rows in G3. rewrite <- Hid in G3.
  cbn [early_error] in Herr.
  destruct (truthy (GEMINI_API_KEY env)) eqn:Hkey; [discriminate|].
  injection Herr as <-.
  unfold analyze_transcription, start. wp_run.
  all: solve_surfaced Hf.
Qed.

Lemma refused_attempt (n : StepName) env (m : Message) (rid : str)
    (w w' : World) (r : result str) (rec : Recording) (job : ProcessingJob) :
  msg_task m = task_of n -> msg_args m = [rid] ->
  recording_rows rid w = [rec] -> job_rows rid w = [job] ->
  step_conflict (job_id job) n (steps (db w)) = true ->
  run_task env m w = (r, w') ->
  step_refused n rid env m w r w'.
Proof.
  intros Ht Ha Hrec Hjob Hconf Hrun.
  assert (Hwp : wp (task_body (msg_task m) m rid) env (start w)
                   (fun r s' => step_refused n rid env m w r (world s'))).
  { rewrite Ht. destruct n; cbn [task_of task_body].
    - eapply convert_refused; eassumption.
    - eapply extract_refused; eassumption.
    - eapply transcribe_refused; eassumption.
    - eapply analyze_refused; eassumption. }
  destruct (@run_task_body env m rid w _ r w' Ha Hwp Hrun) as (s' & <- & HQ).
  exact HQ.
Qed.

Lemma early_error_attempt (n : StepName) env (m : Message) (rid : str)
    (w w' : World) (r : result str) (rec : Recording) (job : ProcessingJob)
    (exc : exn) :
  fresh_keys w = true ->
  msg_task m = task_of n -> msg_args m = [rid] ->
  recording_rows rid w = [rec] -> job_rows rid w = [job] ->
  step_conflict (job_id job) n (steps (db w)) = false ->
  (n = ai_analysis -> exists tr, transcription_rows rid w = [tr]) ->
  early_error n rid env w = Some exc ->
  run_task env m w = (r, w') ->
  error_surfaced n job exc env m w r w'.
Proof.
  intros Hf Ht Ha Hrec Hjob Hconf Htr Herr Hrun.
  assert (Hwp : wp (task_body (msg_task m) m rid) env (start w)
                   (fun r s' => error_surfaced n job exc env m w r (world s'))).
  { rewrite Ht. destruct n; cbn [task_of task_body].
    - eapply convert_early; eassumption.
    - eapply extract_early; eassumption.
    - eapply transcribe_early; eassumption.
    - destruct (Htr eq_refl) as [tr Htr'].
      eapply analyze_early; eassumption. }
  destruct (@run_task_body env m rid w _ r w' Ha Hwp Hrun) as (s' & <- & HQ).
  exact HQ.
Qed.

(* ===================================================================== *)
(** * Runs along a known path *)
(* ===================================================================== *)

(** As [split_on], but a scrutinee is also decided by a hypothesis that
    states its value up to conversion. *)
Ltac decide_on x :=
  let x' := eval cbn in x in
  lazymatch x' with
  | x =>
      first [ match goal with H : x = _ |- _ => rewrite H end
            | match goal with
              | H : ?y = _ |- _ => unify x y; change x with y; rewrite H
              end
            | destruct x eqn:? ]
  | _ => change x with x'
  end;
  cbn beta iota.

Ltac path_step :=
  lazymatch goal with
  | |- wp (bind _ _) _ _ _ => apply wp_bind
  | |- wp (try_except _ _) _ _ _ => apply wp_try
  | |- wp (match ?x with _ => _ end) _ _ _ => decide_on x
  | |- wp (fun _ _ => _) _ _ _ => apply wp_def; cbn beta; norm_state
  | |- wp ?c _ _ _ => unfold_head c
  | |- bind_post _ _ _ (Ok _) _ => apply bind_post_Ok; cbn beta
  | |- bind_post _ _ _ (Raise _) _ => apply bind_post_Raise
  | |- try_post _ _ _ (Ok _) _ => apply try_post_Ok
  | |- try_post _ _ _ (Raise _) _ => apply try_post_Raise; cbn beta
  | |- context [fst (match ?x with _ => _ end)] => decide_on x; norm_state
  | |- bind_post _ _ _ ?r _ => decide_on r
  | |- try_post _ _ _ ?r _ => decide_on r
  end.

Ltac path_run := repeat path_step.

Ltac solve_marked Hrec Hid :=
  cbn [recording_marked]; eexists; eexists; split; [exact Hrec|];
  unfold recording_rows; cbn [db recordings];
  cbn [rec_id rec_status rec_error_message set_rec_error_message
       set_rec_status]; rewrite Hid;
  split; [apply (upsert_filter _ _ _ Hrec); cbn [rec_id];
          apply str_eqb_refl|];
  split; reflexivity.

(** The step row after [fail_step]: the row the attempt appended, marked. *)
Ltac solve_failed_step Hf :=
  norm_state; eexists; split;
  [ apply upsert_last;
    [ intros x Hx; apply N.eqb_neq;
      cbn [step_id set_step_error_message set_step_status];
      apply fresh_keys_iff in Hf; destruct Hf as (Hs & _);
      apply Hs in Hx; lia
    | cbn [step_id set_step_error_message set_step_status];
      apply N.eqb_refl ]
  | repeat split ].

Lemma in_without (a p : str) (l : list str) :
  In p (filter (fun q => negb (str_eqb a q)) l) <-> In p l /\ a <> p.
Proof.
  rewrite filter_In, negb_true_iff, str_eqb_neq. reflexivity.
Qed.

Ltac solve_scratch :=
  unfold scratch_removed, original_path, converted_path, audio_path;
  norm_state; cbn [In];
  repeat match goal with H : exists_file _ _ = _ |- _ => clear H end;
  split; intros p Hp; clear - Hp;
  repeat match goal with
         | |- context [if ?b then _ else _] => destruct b
         end;
  repeat first [ progress cbn [In] | rewrite in_without ];
  intuition congruence.

Ltac solve_media_artifacts Hid :=
  unfold media_artifacts, conversion_command, extraction_command,
    original_path, converted_path, audio_path;
  norm_state;
  eexists _, _;
  split; [unfold file_rows; rewrite <- Hid; eapply get_one_Ok; eassumption|];
  split; [rewrite <- !app_assoc; reflexivity|];
  split; [eexists; split; [eassumption|]; apply Z.eqb_eq; assumption|];
  split; [reflexivity|];
  cbn [rf_recording rf_file_type rf_s3_key rf_s3_bucket rf_file_size_bytes];
  repeat split; exact Hid.

Ltac solve_step_timed Hf :=
  intros Hf; unfold step_timed; norm_state;
  cbn [step_id step_job step_name set_step_status
       set_step_completed_at set_step_duration_seconds
       set_step_output_file set_step_metadata];
  rewrite upsert_new_step by (assumption || reflexivity);
  eexists _, _, _; split; [reflexivity|];
  cbn [step_name step_status step_started_at step_completed_at
       step_duration_seconds];
  split; [reflexivity|]; split; [reflexivity|];
  split; [|repeat split]; lia.


(* ===================================================================== *)
(** * What a returning attempt leaves behind *)
(* ===================================================================== *)

Lemma convert_details_run env (m : Message) (rid : str) (w : World) :
  wp (convert_webm_to_mp4 m rid) env (start w)
     (fun r s' =>
        match r with
        | Ok _ =>
            scratch_removed (scratch_paths video_conversion rid) w (world s')
            /\ media_artifacts env rid (conversion_command rid)
                 (converted_path rid)
                 (lit "recordings/" ++ rid ++ lit "/converted.mp4")
                 converted_mp4 w (world s')
            /\ (fresh_keys w = true -> step_timed env video_conversion w (world s'))
        | Raise _ => True
        end).
Proof.
  unfold convert_webm_to_mp4, start. wp_run.
  all: try exact I.
  all: pose proof (recording_rows_id _ _ (get_one_Ok _ _ Heqr)) as Hid.
  all: split; [cbn [scratch_paths]; solve_scratch|].
  all: split; [solve_media_artifacts Hid|solve_step_timed Hf].
Qed.

Lemma extract_details_run env (m : Message) (rid : str) (w : World) :
  wp (extract_audio_from_video m rid) env (start w)
     (fun r s' =>
        match r with
        | Ok _ =>
            scratch_removed (scratch_paths audio_extraction rid) w (world s')
            /\ media_artifacts env rid (extraction_command rid)
                 (audio_path rid)
                 (lit "recordings/" ++ rid ++ lit "/audio.wav")
                 audio_extract w (world s')
            /\ (fresh_keys w = true -> step_timed env audio_extraction w (world s'))
        | Raise _ => True
        end).
Proof.
  unfold extract_audio_from_video, start. wp_run.
  all: try exact I.
  all: pose proof (recording_rows_id _ _ (get_one_Ok _ _ Heqr)) as Hid.
  all: split; [cbn [scratch_paths]; solve_scratch|].
  all: split; [solve_media_artifacts Hid|solve_step_timed Hf].
Qed.

Lemma transcribe_details_run env (m : Message) (rid : str) (w : World) :
  wp (transcribe_audio m rid) env (start w)
     (fun r s' =>
        match r with
        | Ok _ => False
        | Raise _ => True
        end).
Proof.
  unfold transcribe_audio, start. wp_run.
  all: exact I.
Qed.

Lemma analysis_details_run env (m : Message) (rid : str) (w : World) :
  wp (analyze_transcription m rid) env (start w)
     (fun r s' =>
        match r with
        | Ok _ =>
            tmp (world s') = tmp w
            /\ (fresh_keys w = true -> step_timed env ai_analysis w (world s'))
        | Raise _ => True
        end).
Proof.
  unfold analyze_transcription, start. wp_run.
  all: try exact I.
  split; [reflexivity|solve_step_timed Hf].
Qed.

(** The four stages together. *)
Lemma returning_attempt_details (n : StepName) env (m : Message) (rid v : str)
    (w w' : World) :
  msg_task m = task_of n -> msg_args m = [rid] ->
  run_task env m w = (Ok v, w') ->
  scratch_removed (scratch_paths n rid) w w'
  /\ (fresh_keys w = true -> step_timed env n w w')
  /\ match n with
     | video_conversion =>
         media_artifacts env rid (conversion_command rid) (converted_path rid)
           (lit "recordings/" ++ rid ++ lit "/converted.mp4") converted_mp4 w w'
     | audio_extraction =>
         media_artifacts env rid (extraction_command rid) (audio_path rid)
           (lit "recordings/" ++ rid ++ lit "/audio.wav") audio_extract w w'
     | speech_to_text => False
     | ai_analysis => True
     end.
Proof.
  intros Ht Ha Hrun.
  destruct n; cbn [task_of] in Ht.
  - pose proof (@convert_details_run env m rid w) as Hwp.
    change (convert_webm_to_mp4 m rid)
      with (task_body T_convert_webm_to_mp4 m rid) in Hwp.
    rewrite <- Ht in Hwp.
    destruct (@run_task_body env m rid w _ (Ok v) w' Ha Hwp Hrun)
      as (s' & <- & H1 & H2 & H3).
    auto.
  - pose proof (@extract_details_run env m rid w) as Hwp.
    change (extract_audio_from_video m rid)
      with (task_body T_extract_audio_from_video m rid) in Hwp.
    rewrite <- Ht in Hwp.
    destruct (@run_task_body env m rid w _ (Ok v) w' Ha Hwp Hrun)
      as (s' & <- & H1 & H2 & H3).
    auto.
  - pose proof (@transcribe_details_run env m rid w) as Hwp.
    change (transcribe_audio m rid)
      with (task_body T_transcribe_audio m rid) in Hwp.
    rewrite <- Ht in Hwp.
    destruct (@run_task_body env m rid w _ (Ok v) w' Ha Hwp Hrun)
      as (s' & <- & []).
  - pose proof (@analysis_details_run env m rid w) as Hwp.
    change (analyze_transcription m rid)
      with (task_body T_analyze_transcription m rid) in Hwp.
    rewrite <- Ht in Hwp.
    destruct (@run_task_body env m rid w _ (Ok v) w' Ha Hwp Hrun)
      as (s' & <- & H2 & H3).
    split; [|auto].
    unfold scratch_removed. cbn [scratch_paths In]. rewrite H2.
    split; [intros p []|reflexivity].
Qed.

(* ===================================================================== *)
(** * Retrying after a failure *)
(* ===================================================================== *)

(** Where the step row an attempt leaves comes from. *)
Ltac solve_step_origin Hf :=
  norm_state;
  cbn [step_id step_job step_name set_step_status set_step_error_message
       set_step_completed_at set_step_duration_seconds
       set_step_output_file set_step_metadata];
  first
    [ left; reflexivity
    | right;
      match goal with
      | H : get_one (lit "Recording") _ = Ok ?rec |- _ =>
          let Hid := fresh "Hid" in
          pose proof (recording_rows_id _ _ (get_one_Ok _ _ H)) as Hid;
          rewrite Hid in *;
          eexists rec, _, _;
          split; [exact (get_one_Ok _ _ H)|]
      end;
      split; [unfold job_rows; eapply related_object_Ok; eassumption|];
      split; [repeat rewrite upsert_new_step by (assumption || reflexivity);
              reflexivity|];
      split; reflexivity ].

Lemma convert_step_origin env (m : Message) (rid : str) (w : World) :
  fresh_keys w = true ->
  wp (convert_webm_to_mp4 m rid) env (start w)
     (fun r s' =>
        steps (db (world s')) = steps (db w)
        \/ exists rec job st,
             recording_rows rid w = [rec] /\ job_rows rid w = [job]
             /\ steps (db (world s')) = steps (db w) ++ [st]
             /\ step_job st = job_id job /\ step_name st = video_conversion).
Proof.
  intros Hf. unfold convert_webm_to_mp4, start. wp_run.
  all: solve_step_origin Hf.
Qed.

Lemma extract_step_origin env (m : Message) (rid : str) (w : World) :
  fresh_keys w = true ->
  wp (extract_audio_from_video m rid) env (start w)
     (fun r s' =>
        steps (db (world s')) = steps (db w)
        \/ exists rec job st,
             recording_rows rid w = [rec] /\ job_rows rid w = [job]
             /\ steps (db (world s')) = steps (db w) ++ [st]
             /\ step_job st = job_id job /\ step_name st = audio_extraction).
Proof.
  intros Hf. unfold extract_audio_from_video, start. wp_run.
  all: solve_step_origin Hf.
Qed.

Lemma transcribe_step_origin env (m : Message) (rid : str) (w : World) :
  fresh_keys w = true ->
  wp (transcribe_audio m rid) env (start w)
     (fun r s' =>
        steps (db (world s')) = steps (db w)
        \/ exists rec job st,
             recording_rows rid w = [rec] /\ job_rows rid w = [job]
             /\ steps (db (world s')) = steps (db w) ++ [st]
             /\ step_job st = job_id job /\ step_name st = speech_to_text).
Proof.
  intros Hf. unfold transcribe_audio, start. wp_run.
  all: solve_step_origin Hf.
Qed.

Lemma analyze_step_origin env (m : Message) (rid : str) (w : World) :
  fresh_keys w = true ->
  wp (analyze_transcription m rid) env (start w)
     (fun r s' =>
        steps (db (world s')) = steps (db w)
        \/ exists rec job st,
             recording_rows rid w = [rec] /\ job_rows rid w = [job]
             /\ steps (db (world s')) = steps (db w) ++ [st]
             /\ step_job st = job_id job /\ step_name st = ai_analysis).
Proof.
  intros Hf. unfold analyze_transcription, start. wp_run.
  all: solve_step_origin Hf.
Qed.

Lemma step_origin (n : StepName) env (m : Message) (rid : str) (w w' : World)
    (r : result str) :
  fresh_keys w = true -> msg_task m = task_of n -> msg_args m = [rid] ->
  run_task env m w = (r, w') ->
  steps (db w') = steps (db w)
  \/ exists rec job st,
       recording_rows rid w = [rec] /\ job_rows rid w = [job]
       /\ steps (db w') = steps (db w) ++ [st]
       /\ step_job st = job_id job /\ step_name st = n.
Proof.
  intros Hf Ht Ha Hrun.
  assert (Hwp : wp (task_body (msg_task m) m rid) env (start w)
            (fun r s' =>
               steps (db (world s')) = steps (db w)
               \/ exists rec job st,
                    recording_rows rid w = [rec] /\ job_rows rid w = [job]
                    /\ steps (db (world s')) = steps (db w) ++ [st]
                    /\ step_job st = job_id job /\ step_name st = n)).
  { rewrite Ht. destruct n; cbn [task_of task_body].
    - now apply convert_step_origin.
    - now apply extract_step_origin.
    - now apply transcribe_step_origin.
    - now apply analyze_step_origin. }
  destruct (@run_task_body env m rid w _ r w' Ha Hwp Hrun) as (s' & <- & HQ).
  exact HQ.
Qed.

Lemma recording_rows_same (rid : str) (w w' : World) :
  recordings (db w') = recordings (db w) ->
  recording_rows rid w' = recording_rows rid w.
Proof. unfold recording_rows. now intros ->. Qed.


(* ===================================================================== *)
(** * Duplicate dispatch of a stage *)
(* ===================================================================== *)

(** C1, as the code has it. No stage looks for an existing step: each
    creates its step row unconditionally, and (job, step_name) is unique.
    So when the job of the recording already has a step of stage [n]
    (completed or not), a further attempt of that stage does not return:
    the insert is refused and the attempt ends in [self.retry]. It is true
    that the attempt calls no adapter and adds no step, transcription,
    segment or analysis row; but it raises, and while retries remain it
    puts itself on the queue again. *)
Theorem duplicate_dispatch_is_refused :
  forall (n : StepName) (env : Env) (m : Message) (rid : str) (w w' : World)
         (r : result str) (rec : Recording) (job : ProcessingJob)
         (st : ProcessingStep),
    msg_task m = task_of n -> msg_args m = [rid] ->
    recording_rows rid w = [rec] -> job_rows rid w = [job] ->
    In st (steps (db w)) -> step_job st = job_id job -> step_name st = n ->
    run_task env m w = (r, w') ->
    (forall v, r <> Ok v)
    /\ calls w' = calls w
    /\ steps (db w') = steps (db w)
    /\ transcriptions (db w') = transcriptions (db w)
    /\ segments (db w') = segments (db w)
    /\ analyses (db w') = analyses (db w)
    /\ exists exc,
         retry_disposition env m (retry_countdown (task_of n)) exc
           (queue w) r (queue w')
         /\ ((n = ai_analysis -> exists tr, transcription_rows rid w = [tr]) ->
             exc = IntegrityError
                     (lit "processing_processingstep.job_id, processing_processingstep.step_name")).
Proof.
  intros n env m rid w w' r rec job st Ht Ha Hrec Hjob Hin Hsj Hsn Hrun.
  pose proof (step_conflict_In _ _ Hin Hsj Hsn) as Hconf.
  destruct (@refused_attempt n env m rid w w' r rec job Ht Ha Hrec Hjob Hconf Hrun)
    as (Hr & Hc & _ & Hs & _ & _ & (Htr & Hsg) & Han & exc & Hd & _ & Hexc).
  repeat (split; [assumption|]).
  exists exc. split; [exact Hd|]. intros Htrs.
  destruct Hexc as [E|[Hn Hno]]; [exact E|].
  destruct (Htrs Hn) as [tr Htr']. now destruct (Hno tr).
Qed.

(** R1 with its conversion step completed, the conversion dispatched a
    second time: the attempt raises and is queued again. *)
Lemma duplicate_dispatch_is_refused_witness :
  let w := snd (Scenario.run_upto 2 Scenario.env_ok Scenario.uploaded) in
  let m := Scenario.msg T_convert_webm_to_mp4 101%N 0 in
  let r := fst (run_task Scenario.env_ok m w) in
  let w' := snd (run_task Scenario.env_ok m w) in
  (forall v, r <> Ok v)
  /\ calls w' = calls w
  /\ steps (db w') = steps (db w)
  /\ transcriptions (db w') = transcriptions (db w)
  /\ segments (db w') = segments (db w)
  /\ analyses (db w') = analyses (db w)
  /\ exists exc,
       retry_disposition Scenario.env_ok m 120 exc (queue w) r (queue w')
       /\ ((video_conversion = ai_analysis ->
            exists tr, transcription_rows Scenario.R1 w = [tr]) ->
           exc = IntegrityError
                   (lit "processing_processingstep.job_id, processing_processingstep.step_name")).
Proof.
  intros w m r w'.
  refine (@duplicate_dispatch_is_refused video_conversion Scenario.env_ok m
            Scenario.R1 w w' r _ _ _ _ _ _ _ _ _ _ _).
  - reflexivity.
  - reflexivity.
  - vm_compute. reflexivity.
  - vm_compute. reflexivity.
  - vm_compute. left. reflexivity.
  - reflexivity.
  - reflexivity.
  - apply surjective_pairing.
Defined.

(** Counterexample to C1 as stated: the conversion step of R1 is
    'completed'; dispatching the conversion again does not return success
    but raises [Retry], and a retry message is on the queue. *)
Lemma duplicate_dispatch_raises :
  let w := snd (Scenario.run_upto 2 Scenario.env_ok Scenario.uploaded) in
  let m := Scenario.msg T_convert_webm_to_mp4 101%N 0 in
  map (fun s => (step_name s, step_status s)) (steps (db w))
    = [(video_conversion, completed)]
  /\ fst (run_task Scenario.env_ok m w)
     = Raise (Retry (IntegrityError
                       (lit "processing_processingstep.job_id, processing_processingstep.step_name"))
                    120)
  /\ fst (run_task Scenario.env_ok m w) <> Ok Scenario.R1
  /\ map (fun x => (msg_task x, msg_retries x))
         (skipn (List.length (queue w))
                (queue (snd (run_task Scenario.env_ok m w))))
     = [(T_convert_webm_to_mp4, 1)].
Proof.
  vm_compute. split; [reflexivity|]. split; [reflexivity|].
  split; [discriminate|reflexivity].
Qed.

(* ===================================================================== *)
(** * When the retry budget is exhausted *)
(* ===================================================================== *)

(** C2 fails on the code. The [except] blocks of the conversion, the
    extraction and the transcription mark the step and stop there; only the
    [except] block of the analysis goes on to mark the recording 'failed',
    and no task ever writes a failed job. For R1, started by the
    orchestrator, with the object store refusing every download: the
    conversion is attempted three times (retries 0, 1, 2) and the queue is
    then empty; its step is 'failed' and no extraction step exists, as the
    claim says; but the job is still 'running' and the recording still
    'processing', with no error text. A failed attempt of the analysis in
    that same state does mark the recording 'failed' with the error text. *)
Theorem exhausted_retries_leave_job_running :
  let env := Scenario.env_no_download in
  let w := snd (Scenario.run_upto 1 Scenario.env_ok Scenario.uploaded) in
  let run := worker [env; env; env; env; env] w in
  let analysis :=
    run_task env (Scenario.msg T_analyze_transcription 100%N 0) (snd run) in
  map (fun a => (msg_task (fst a), msg_retries (fst a))) (fst run)
    = [ (T_convert_webm_to_mp4, 0); (T_convert_webm_to_mp4, 1);
        (T_convert_webm_to_mp4, 2) ]
  /\ Forall (fun a => forall v, snd a <> Ok v) (fst run)
  /\ queue (snd run) = []
  /\ map (fun s => (step_name s, step_status s)) (steps (db (snd run)))
     = [(video_conversion, failed)]
  /\ map job_status (jobs (db (snd run))) = [running]
  /\ map (fun r => (rec_status r, rec_error_message r))
         (recordings (db (snd run)))
     = [(rec_processing, [])]
  /\ map (fun r => (rec_status r, rec_error_message r))
         (recordings (db (snd analysis)))
     = [(rec_failed, lit "Recording has no transcription.")]
  /\ map job_status (jobs (db (snd analysis))) = [running].
Proof.
  vm_compute. split; [reflexivity|]. split.
  { repeat (constructor; [intros v; discriminate|]). constructor. }
  repeat split.
Qed.

(* ===================================================================== *)
(** * Re-dispatching the orchestrator *)
(* ===================================================================== *)

Lemma job_conflict_some (rid : str) (w : World) (job : ProcessingJob) :
  In job (job_rows rid w) -> job_conflict rid (jobs (db w)) = true.
Proof.
  unfold job_rows, job_conflict. intros H. apply filter_In in H.
  apply existsb_exists. exists job. exact H.
Qed.

(** C3, as the code has it. The orchestrator never reads the steps. When
    the recording already has a job (as after a failed run), an attempt
    cannot return: with the recording present it is the insert of a second
    job that is refused; the attempt ends in [self.retry] with countdown 60,
    so the only message it can publish is its own retry, and jobs and steps
    stay as they were. And whenever an attempt does return, the one message
    it has published is the whole chain from video conversion on, whatever
    steps exist. *)
Theorem redispatched_orchestrator :
  forall (env : Env) (m : Message) (rid : str) (w w' : World)
         (r : result str),
    fresh_keys w = true ->
    msg_task m = T_process_recording_pipeline -> msg_args m = [rid] ->
    run_task env m w = (r, w') ->
    ((exists job, In job (job_rows rid w)) ->
       (forall v, r <> Ok v)
       /\ steps (db w') = steps (db w) /\ jobs (db w') = jobs (db w)
       /\ exists exc,
            retry_disposition env m 60 exc (queue w) r (queue w')
            /\ forall rec, recording_rows rid w = [rec] ->
                 exc = IntegrityError (lit "processing_processingjob.recording_id"))
    /\ (forall v, r = Ok v ->
          exists id, queue w' = queue w ++ [first_stage_message id rid]).
Proof.
  intros env m rid w w' r Hf Ht Ha Hrun.
  assert (Hout : pipeline_outcome rid env m w r w')
    by (eapply pipeline_run; eassumption).
  unfold pipeline_outcome in Hout. split.
  - intros [job Hjob]. pose proof (job_conflict_some _ _ _ Hjob) as Hconf.
    destruct r as [v|e].
    + destruct Hout as (_ & _ & Hnone & _). rewrite Hnone in Hjob.
      contradiction.
    + destruct Hout as (exc & Hd & Hs & _ & _ & _ & Hj).
      destruct (Hj Hconf) as [Hjobs Hexc].
      split; [discriminate|]. split; [exact Hs|]. split; [exact Hjobs|].
      exists exc. auto.
  - intros v ->. destruct Hout as (_ & _ & _ & _ & Hq & _). exact Hq.
Qed.

Lemma redispatched_orchestrator_witness :
  let env := Scenario.env_ok in
  let m := Scenario.msg T_process_recording_pipeline 102%N 0 in
  let w := Scenario.redispatch_world in
  let r := fst (run_task env m w) in
  let w' := snd (run_task env m w) in
  ((forall v, r <> Ok v)
   /\ steps (db w') = steps (db w) /\ jobs (db w') = jobs (db w)
   /\ exists exc,
        retry_disposition env m 60 exc (queue w) r (queue w')
        /\ forall rec, recording_rows Scenario.R1 w = [rec] ->
             exc = IntegrityError (lit "processing_processingjob.recording_id")).
Proof.
  intros env m w r w'.
  refine (proj1 (@redispatched_orchestrator env m Scenario.R1 w w' r
                   _ _ _ _) _).
  - vm_compute. reflexivity.
  - reflexivity.
  - reflexivity.
  - apply surjective_pairing.
  - eexists. vm_compute. left. reflexivity.
Defined.

(** Counterexample to C3 as stated: conversion is 'completed', extraction
    'failed'; the re-dispatched orchestrator raises and publishes nothing
    but its own retry, no message for the extraction stage. *)
Lemma redispatch_dispatches_no_stage :
  let env := Scenario.env_ok in
  let m := Scenario.msg T_process_recording_pipeline 102%N 0 in
  let w := Scenario.redispatch_world in
  map (fun s => (step_name s, step_status s)) (steps (db w))
    = [(video_conversion, completed); (audio_extraction, failed)]
  /\ fst (run_task env m w)
     = Raise (Retry (IntegrityError (lit "processing_processingjob.recording_id")) 60)
  /\ map msg_task (queue (snd (run_task env m w)))
     = [T_process_recording_pipeline]
  /\ ~ In T_extract_audio_from_video
         (map msg_task (queue (snd (run_task env m w)))).
Proof.
  vm_compute. split; [reflexivity|]. split; [reflexivity|].
  split; [reflexivity|]. intros [H|[]]. discriminate.
Qed.

(* ===================================================================== *)
(** * Errors of configuration and of data *)
(* ===================================================================== *)

(** C4, as the code has it. The tasks have one [except Exception] block
    each and no class of error is exempt from [self.retry]. When a stage,
    having written its step row, finds the key of its adapter not
    configured or its input file not registered, it calls no adapter and
    the step row is marked failed with the error text; but the attempt ends
    in [self.retry] as after any other error: as long as retries remain
    and the broker accepts the message, the attempt is queued again with
    the stage's countdown and [Retry] is raised. *)
Theorem config_and_data_errors_are_retried :
  forall (n : StepName) (env : Env) (m : Message) (rid : str) (w w' : World)
         (r : result str) (rec : Recording) (job : ProcessingJob) (exc : exn),
    fresh_keys w = true ->
    msg_task m = task_of n -> msg_args m = [rid] ->
    recording_rows rid w = [rec] -> job_rows rid w = [job] ->
    step_conflict (job_id job) n (steps (db w)) = false ->
    (n = ai_analysis -> exists tr, transcription_rows rid w = [tr]) ->
    early_error n rid env w = Some exc ->
    run_task env m w = (r, w') ->
    calls w' = calls w
    /\ (exists st,
          steps (db w') = steps (db w) ++ [st]
          /\ step_job st = job_id job /\ step_name st = n
          /\ step_status st = failed
          /\ step_error_message st = exc_str exc)
    /\ retry_disposition env m (retry_countdown (task_of n)) exc
         (queue w) r (queue w')
    /\ (msg_retries m < max_retries (task_of n) ->
        broker_publish env (retry_message m (retry_countdown (task_of n))) = None ->
        r = Raise (Retry exc (retry_countdown (task_of n)))
        /\ queue w' = queue w ++ [retry_message m (retry_countdown (task_of n))]).
Proof.
  intros n env m rid w w' r rec job exc Hf Ht Ha Hrec Hjob Hconf Htr Herr Hrun.
  destruct (@early_error_attempt n env m rid w w' r rec job exc
              Hf Ht Ha Hrec Hjob Hconf Htr Herr Hrun) as (Hc & Hst & Hd).
  split; [exact Hc|]. split; [exact Hst|]. split; [exact Hd|].
  intros Hlt Hpub. unfold retry_disposition in Hd.
  rewrite Ht, Hpub in Hd.
  replace (max_retries (task_of n) <? S (msg_retries m)) with false in Hd;
    [exact Hd|].
  symmetry. apply Nat.ltb_ge. lia.
Qed.

(** The transcription stage for R1 with no speech-to-text key, first
    delivery. *)
Lemma config_and_data_errors_are_retried_witness :
  let w := snd (Scenario.run_upto 3 Scenario.env_ok Scenario.uploaded) in
  let m := Scenario.msg T_transcribe_audio 100%N 0 in
  let env := Scenario.env_no_key in
  let r := fst (run_task env m w) in
  let w' := snd (run_task env m w) in
  let exc := Exception (lit "DEEPGRAM_API_KEY not configured") in
  calls w' = calls w
  /\ (exists st,
        steps (db w') = steps (db w) ++ [st]
        /\ step_job st = 1%N /\ step_name st = speech_to_text
        /\ step_status st = failed
        /\ step_error_message st = exc_str exc)
  /\ retry_disposition env m 180 exc (queue w) r (queue w')
  /\ (0 < 3 ->
      broker_publish env (retry_message m 180) = None ->
      r = Raise (Retry exc 180)
      /\ queue w' = queue w ++ [retry_message m 180]).
Proof.
  intros w m env r w' exc.
  refine (@config_and_data_errors_are_retried speech_to_text env m Scenario.R1
            w w' r _ {| job_id := 1%N; job_recording := Scenario.R1;
                        job_celery_task_id := 100%N; job_status := running;
                        job_current_step := []; job_progress_percentage := 0%Z;
                        job_retry_count := 0%Z; job_max_retries := 3%Z;
                        job_created_at := 3%Z; job_started_at := Some 2%Z;
                        job_completed_at := None |} exc _ _ _ _ _ _ _ _ _).
  - vm_compute. reflexivity.
  - reflexivity.
  - reflexivity.
  - vm_compute. reflexivity.
  - vm_compute. reflexivity.
  - vm_compute. reflexivity.
  - discriminate.
  - vm_compute. reflexivity.
  - apply surjective_pairing.
Defined.

(** Counterexample to C4 as stated: the speech-to-text key is missing. The
    first attempt raises [Retry] and is queued again; the worker attempts
    the stage four times, with retry counts 0 to 3, before the queue is
    empty. *)
Lemma missing_key_is_retried :
  let w := snd (Scenario.run_upto 3 Scenario.env_ok Scenario.uploaded) in
  let m := Scenario.msg T_transcribe_audio 100%N 0 in
  let env := Scenario.env_no_key in
  DEEPGRAM_API_KEY env = []
  /\ fst (run_task env m w)
     = Raise (Retry (Exception (lit "DEEPGRAM_API_KEY not configured")) 180)
  /\ map (fun a => (msg_task (fst a), msg_retries (fst a)))
         (fst (worker [env; env; env; env; env; env] (with_queue [m] w)))
     = [ (T_transcribe_audio, 0); (T_transcribe_audio, 1);
         (T_transcribe_audio, 2); (T_transcribe_audio, 3) ]
  /\ queue (snd (worker [env; env; env; env; env; env] (with_queue [m] w))) = [].
Proof.
  vm_compute. repeat split.
Qed.

(* ===================================================================== *)
(** * Starting the pipeline *)
(* ===================================================================== *)

Lemma job_conflict_none (rid : str) (w : World) :
  job_rows rid w = [] -> job_conflict rid (jobs (db w)) = false.
Proof.
  unfold job_rows, job_conflict. intros H.
  destruct (existsb _ _) eqn:E; [|reflexivity].
  apply existsb_exists in E. destruct E as (j & Hin & Hj).
  assert (In j (filter (fun j => str_eqb (job_recording j) rid) (jobs (db w))))
    by (apply filter_In; auto).
  rewrite H in *. contradiction.
Qed.




(* ===================================================================== *)
(** * A successful full run *)
(* ===================================================================== *)

Lemma filter_none {A} (p : A -> bool) (l : list A) :
  (forall x, In x l -> p x = false) -> filter p l = [].
Proof.
  induction l as [|x r IH]; intros H; [reflexivity|].
  cbn [filter]. rewrite (H x (or_introl eq_refl)).
  apply IH. intros y Hy. apply H. now right.
Qed.

Lemma job_rows_same (rid : str) (w w' : World) :
  same_jobs w w' -> job_rows rid w' = job_rows rid w.
Proof. unfold same_jobs, job_rows. now intros ->. Qed.

(** C6 fails on the code: no run of the pipeline is a successful full
    run. For R1, uploaded, with every collaborator answering. Started by
    the orchestrator, the run ends after the conversion: the chain is built
    from [task.s(recording_id)], so the extraction is to be sent with the
    conversion's return value in front of its own argument, and the check
    of these two arguments raises TypeError before anything is queued; one
    step is 'completed', the job stays 'running' at 0 percent and the
    recording 'processing'. And with each task dispatched by hand with the
    recording id alone, conversion and extraction return, but the
    transcription raises AttributeError at [result.utterances] once the
    service has answered, and the analysis then finds no transcription:
    there is no transcription and no analysis, the job is still 'running'
    and the recording is 'failed'. *)
Theorem pipeline_run_is_never_completed :
  let env := Scenario.env_ok in
  let m := Scenario.msg T_process_recording_pipeline 100%N 0 in
  let run := worker [env; env; env; env; env; env]
               (with_queue [m] Scenario.uploaded) in
  let w := snd run in
  let direct := Scenario.run_upto 5 env Scenario.uploaded in
  let w5 := snd direct in
  (exists v msg,
     map (fun a => (msg_task (fst a), msg_args (fst a), snd a)) (fst run)
     = [ (T_process_recording_pipeline, [Scenario.R1], Ok v);
         (T_convert_webm_to_mp4, [Scenario.R1], Raise (TypeError msg)) ])
  /\ queue w = []
  /\ map (fun s => (step_name s, step_status s)) (steps (db w))
     = [(video_conversion, completed)]
  /\ map (fun j => (job_status j, job_progress_percentage j, job_completed_at j))
         (jobs (db w))
     = [(running, 0%Z, None)]
  /\ transcriptions (db w) = [] /\ analyses (db w) = []
  /\ map (fun r => (rec_status r, rec_completed_at r)) (recordings (db w))
     = [(rec_processing, None)]
  /\ (exists v msg,
        fst direct
        = [ Ok v; Ok Scenario.R1; Ok Scenario.R1;
            Raise (Retry (AttributeError msg) 180);
            Raise (Retry (RelatedObjectDoesNotExist (lit "Recording")
                            (lit "transcription")) 180) ])
  /\ map (fun s => (step_name s, step_status s)) (steps (db w5))
     = [ (video_conversion, completed); (audio_extraction, completed);
         (speech_to_text, failed) ]
  /\ map (fun j => (job_status j, job_progress_percentage j, job_completed_at j))
         (jobs (db w5))
     = [(running, 0%Z, None)]
  /\ transcriptions (db w5) = [] /\ analyses (db w5) = []
  /\ map (fun r => (rec_status r, rec_completed_at r)) (recordings (db w5))
     = [(rec_failed, None)].
Proof.
  vm_compute.
  split; [eexists _, _; reflexivity|].
  do 6 (split; [reflexivity|]).
  split; [eexists _, _; reflexivity|].
  repeat split.
Qed.

(* ===================================================================== *)
(** * Scratch files *)
(* ===================================================================== *)

(** C7 fails on the failure path. The [os.remove] calls are the last lines
    of the [try] body, so only an attempt that returns deletes its scratch
    files. For R1 with ffmpeg exiting with status 1: the attempt downloads
    the original to [/tmp/R1_original.webm], raises, and the file is still
    there when the attempt has re-raised; the same attempt with a working
    ffmpeg leaves no scratch file. *)
Theorem failed_conversion_keeps_scratch_file :
  let w := snd (Scenario.run_upto 1 Scenario.env_ok Scenario.uploaded) in
  let m := Scenario.msg T_convert_webm_to_mp4 100%N 0 in
  let failing := run_task Scenario.env_ffmpeg_fails m w in
  let passing := run_task Scenario.env_ok m w in
  tmp w = []
  /\ fst failing
     = Raise (Retry (Exception (lit "FFmpeg failed: Invalid data found")) 120)
  /\ tmp (snd failing) = [lit "/tmp/R1_original.webm"]
  /\ fst passing = Ok Scenario.R1
  /\ tmp (snd passing) = [].
Proof.
  vm_compute. repeat split.
Qed.

(* ===================================================================== *)
(** * Speakers and segments *)
(* ===================================================================== *)

(** C8 fails on the code. The service answers with two utterances, of
    speakers 0 and 1; they are at [response.results.utterances]. The stage
    reads [result.utterances] on the first alternative, which has no such
    attribute: once the service has answered, the attempt raises
    AttributeError while the arguments of [Transcription.objects.create]
    are evaluated. No transcription and no segment is stored; the step is
    marked 'failed' with the text of that error and the attempt ends in
    [self.retry]. For R1 with conversion and extraction done: *)
Theorem utterances_are_never_stored :
  let env := Scenario.env_ok in
  let w := snd (Scenario.run_upto 3 env Scenario.uploaded) in
  let m := Scenario.msg T_transcribe_audio 100%N 0 in
  let run := run_task env m w in
  transcribe_file env (lit "/tmp/R1_audio.wav") = Ok Scenario.response2
  /\ option_map (map u_speaker) (dg_utterances Scenario.response2)
     = Some [0%Z; 1%Z]
  /\ calls (snd run)
     = calls w ++ [ CallDownload (lit "recordings/R1/audio.wav")
                      (lit "/tmp/R1_audio.wav");
                    CallDeepgram (lit "/tmp/R1_audio.wav") ]
  /\ transcriptions (db (snd run)) = []
  /\ segments (db (snd run)) = []
  /\ exists alt,
       first_alternative Scenario.response2 = Ok alt
       /\ let text := lit "'" ++ alt_class alt
                      ++ lit "' object has no attribute 'utterances'" in
          fst run = Raise (Retry (AttributeError text) 180)
          /\ map (fun s => (step_name s, step_status s, step_error_message s))
                 (steps (db (snd run)))
             = [ (video_conversion, completed, []);
                 (audio_extraction, completed, []);
                 (speech_to_text, failed, text) ].
Proof.
  vm_compute. do 5 (split; [reflexivity|]).
  eexists. split; [reflexivity|]. split; reflexivity.
Qed.

(* ===================================================================== *)
(** * The action-items parser *)
(* ===================================================================== *)

Lemma scenario_action_items (isdigit : char -> bool) :
  (forall c, (c < 128)%N -> isdigit c = ascii_isdigit c) ->
  List.length (parse_action_items isdigit Scenario.action_text) = 3.
Proof.
  intros Hd. rewrite parse_action_items_filter.
  unfold Scenario.action_text.
  set (ls := map strip _). vm_compute in ls. subst ls.
  cbn [filter Spec.list_item].
  rewrite !Hd by reflexivity. reflexivity.
Qed.

(** C9. The action-items helper sends its prompt, and from the text the
    adapter answers it keeps exactly the lines that, once stripped of
    surrounding whitespace, are non-empty and begin with a digit, ['-'] or
    ['*'], in their order; [total_count] is the length of that list. On the
    scenario text, three numbered lines among two unrelated ones, the
    list has length 3. *)
Theorem extract_action_items_keeps_list_items :
  forall (env : Env) (model transcript : str) (s : State) (response : GeminiResponse),
    generate_content env model (action_items_prompt transcript) = Ok response ->
    exists (r : AnalysisResult) (s' : State) (lines stripped : list str),
      extract_action_items model transcript env s = (Ok r, s')
      /\ Spec.lines_of (g_text response) lines
      /\ Forall2 Spec.stripped_of lines stripped
      /\ res_data r =
           ActionItemsData
             (filter (Spec.list_item (unicode_isdigit env)) stripped)
             (List.length (filter (Spec.list_item (unicode_isdigit env)) stripped))
      /\ ((forall c, (c < 128)%N -> unicode_isdigit env c = ascii_isdigit c) ->
          g_text response = Scenario.action_text ->
          exists items, res_data r = ActionItemsData items 3
                        /\ List.length items = 3).
Proof.
  intros env model transcript s response Hgen.
  unfold extract_action_items, timed_generate_content, time, tick, log_call,
    modify_world, lift, ask, bind, ret.
  cbn beta iota zeta. rewrite Hgen. cbn beta iota zeta.
  eexists _, _, (split newline (g_text response)),
    (map strip (split newline (g_text response))).
  split; [reflexivity|].
  split; [apply split_lines|].
  split; [apply Forall2_map_r, strip_stripped|].
  cbn [res_data]. rewrite parse_action_items_filter.
  split; [reflexivity|].
  intros Hd Htext.
  exists (parse_action_items (unicode_isdigit env) (g_text response)).
  rewrite <- parse_action_items_filter, Htext.
  now rewrite (scenario_action_items _ Hd).
Qed.

Lemma extract_action_items_keeps_list_items_witness :
  exists (r : AnalysisResult) (s' : State),
    extract_action_items (lit "gemini-1.5-flash") (lit "Speaker 0: Hello")
      Scenario.env_ok
      {| world := Scenario.uploaded; var_step := None; var_recording := None |}
    = (Ok r, s')
    /\ exists items, res_data r = ActionItemsData items 3
                     /\ List.length items = 3.
Proof.
  destruct (@extract_action_items_keeps_list_items Scenario.env_ok
              (lit "gemini-1.5-flash") (lit "Speaker 0: Hello")
              {| world := Scenario.uploaded; var_step := None;
                 var_recording := None |}
              {| g_text := Scenario.action_text; g_usage_metadata := Some 10%Z |}
              eq_refl)
    as (r & s' & lines & stripped & Hrun & _ & _ & _ & Hscenario).
  exists r, s'. split; [exact Hrun|].
  apply Hscenario; reflexivity.
Defined.

(* ===================================================================== *)
(** * Failed attempts and the recording *)
(* ===================================================================== *)

(** C10. Every failed attempt of the analysis stage on an existing
    recording leaves that recording 'failed' with the text of the error
    that was caught, also when the attempt is to be retried: the state in
    which the retry message sits on the queue already has it. A failed
    attempt of one of the other three stages leaves the recordings table
    as it was. *)
Theorem failed_attempt_and_recording :
  forall (n : StepName) (env : Env) (m : Message) (rid : str) (w w' : World)
         (r : result str),
    fresh_keys w = true ->
    msg_task m = task_of n -> msg_args m = [rid] ->
    run_task env m w = (r, w') ->
    (forall v, r <> Ok v) ->
    match n with
    | ai_analysis =>
        forall rec, recording_rows rid w = [rec] ->
          exists exc rec',
            retry_disposition env m 180 exc (queue w) r (queue w')
            /\ recording_rows rid w' = [rec']
            /\ rec_status rec' = rec_failed
            /\ rec_error_message rec' = exc_str exc
    | _ => recordings (db w') = recordings (db w)
    end.
Proof.
  intros n env m rid w w' r Hf Ht Ha Hrun Hfail.
  assert (Hout : stage_outcome n rid env m w r w')
    by (eapply stage_attempt; eassumption).
  unfold stage_outcome in Hout.
  destruct r as [v|e]; [now destruct (Hfail v)|].
  destruct Hout as (_ & _ & [(Hn & Hmiss & _)|(exc & Hd & _ & Hmark)]).
  - subst n. intros rec Hrec. now destruct (Hmiss rec).
  - destruct n; cbn [recording_marked] in Hmark; try exact Hmark.
    intros rec Hrec. destruct Hmark as (rec0 & rec' & _ & Hrows & Hst & Hmsg).
    exists exc, rec'. cbn [retry_countdown task_of] in Hd. auto.
Qed.

(** The analysis stage for R1 after the transcription has failed, first
    delivery: the attempt is re-published and the recording is already
    'failed'. *)
Lemma failed_attempt_and_recording_witness :
  let w := snd (Scenario.run_upto 4 Scenario.env_ok Scenario.uploaded) in
  let m := Scenario.msg T_analyze_transcription 100%N 0 in
  let env := Scenario.env_ok in
  exists exc rec',
    retry_disposition env m 180 exc (queue w)
      (fst (run_task env m w)) (queue (snd (run_task env m w)))
    /\ recording_rows Scenario.R1 (snd (run_task env m w)) = [rec']
    /\ rec_status rec' = rec_failed
    /\ rec_error_message rec' = exc_str exc.
Proof.
  intros w m env.
  refine (@failed_attempt_and_recording ai_analysis env m Scenario.R1 w
            (snd (run_task env m w)) (fst (run_task env m w))
            _ _ _ _ _ _ _).
  - vm_compute. reflexivity.
  - reflexivity.
  - reflexivity.
  - apply surjective_pairing.
  - vm_compute. discriminate.
  - vm_compute. reflexivity.
Defined.

(* ===================================================================== *)
(** * The other parsers of the analysis helpers *)
(* ===================================================================== *)

Lemma parse_key_points_filter (text : str) :
  parse_key_points text = filter bullet_item (map strip (split newline text)).
Proof.
  unfold parse_key_points.
  rewrite (parse_loop_filter
             (fun line => truthy line
                          && (startswith line (lit "-") || startswith line (lit "*")
                              || startswith line [bullet]))).
  cbn [app]. apply filter_ext. intros [|c r]; [reflexivity|].
  unfold bullet_item, bullet.
  change (lit "-") with [45%N]. change (lit "*") with [42%N].
  cbn [truthy startswith andb].
  assert (E : forall x : str, startswith x [] = true) by (now destruct x).
  rewrite !E, !andb_true_r.
  now rewrite (N.eqb_sym 45 c), (N.eqb_sym 42 c), (N.eqb_sym 8226 c).
Qed.

(** X1. The key-points helper sends its prompt and, from the text the
    service answers, keeps exactly the lines that, once stripped of
    surrounding whitespace, are non-empty and begin with ['-'], ['*'] or
    the bullet U+2022, in their order; [total_count] is the length of that
    list and [text] is the answer unchanged. A numbered line is never a
    key point: an answer whose stripped lines all begin with an ASCII digit
    gives no points at all. *)
Theorem extract_key_points_keeps_bullets :
  forall (env : Env) (model transcript : str) (s : State) (response : GeminiResponse),
    generate_content env model (key_points_prompt transcript) = Ok response ->
    exists (r : AnalysisResult) (s' : State) (lines stripped : list str),
      extract_key_points model transcript env s = (Ok r, s')
      /\ Spec.lines_of (g_text response) lines
      /\ Forall2 Spec.stripped_of lines stripped
      /\ res_data r = KeyPointsData (filter bullet_item stripped)
                        (List.length (filter bullet_item stripped))
      /\ res_text r = g_text response
      /\ (Forall (fun l => exists c rest, l = c :: rest /\ ascii_isdigit c = true)
                 stripped ->
          res_data r = KeyPointsData [] 0).
Proof.
  intros env model transcript s response Hgen.
  unfold extract_key_points, timed_generate_content, time, tick, log_call,
    modify_world, lift, ask, bind, ret.
  cbn beta iota zeta. rewrite Hgen. cbn beta iota zeta.
  eexists _, _, (split newline (g_text response)),
    (map strip (split newline (g_text response))).
  split; [reflexivity|].
  split; [apply split_lines|].
  split; [apply Forall2_map_r, strip_stripped|].
  cbn [res_data res_text]. rewrite parse_key_points_filter.
  split; [reflexivity|]. split; [reflexivity|].
  intros Hall.
  replace (filter bullet_item (map strip (split newline (g_text response))))
    with (@nil str); [reflexivity|].
  symmetry. apply filter_none. intros l Hl.
  rewrite Forall_forall in Hall. destruct (Hall l Hl) as (c & rest & -> & Hd).
  unfold bullet_item, ascii_isdigit in *.
  apply andb_true_iff in Hd. destruct Hd as [H1 H2].
  apply N.leb_le in H1. apply N.leb_le in H2.
  repeat (apply orb_false_iff; split); apply N.eqb_neq; lia.
Qed.

Lemma extract_key_points_keeps_bullets_witness :
  exists (r : AnalysisResult) (s' : State),
    extract_key_points (lit "gemini-1.5-flash") (lit "Speaker 0: Hello")
      Scenario.env_ok (start Scenario.uploaded) = (Ok r, s')
    /\ res_text r = Scenario.action_text.
Proof.
  destruct (@extract_key_points_keeps_bullets Scenario.env_ok
              (lit "gemini-1.5-flash") (lit "Speaker 0: Hello")
              (start Scenario.uploaded)
              {| g_text := Scenario.action_text; g_usage_metadata := Some 10%Z |}
              eq_refl)
    as (r & s' & lines & stripped & Hrun & _ & _ & _ & Htext & _).
  exists r, s'. split; [exact Hrun|exact Htext].
Defined.

Lemma words_of_space (c : char) (s : str) (ws : list str) :
  isspace c = true -> words_of s ws -> words_of (c :: s) ws.
Proof.
  intros Hc H. inversion H; subst.
  - apply words_none. cbn [forallb]. now rewrite Hc.
  - apply (@words_last (c :: a) w); try assumption. cbn [forallb]. now rewrite Hc.
  - apply (@words_more (c :: a) w c0 rest ws0); try assumption. cbn [forallb]. now rewrite Hc.
Qed.

(** The scan of [str.split()]: with a run [cur] being read, the next word
    is that run continued up to the next whitespace. *)
Lemma split_ws_from_spec (s : str) :
  forall cur : str,
    no_space cur = true ->
    match cur with
    | [] => words_of s (split_ws_from [] s)
    | _ :: _ =>
        exists w ws,
          split_ws_from cur s = (rev cur ++ w) :: ws
          /\ no_space w = true
          /\ ((s = w /\ ws = [])
              \/ exists c rest, s = w ++ c :: rest /\ isspace c = true
                                /\ words_of rest ws)
    end.
Proof.
  induction s as [|c r IH]; intros cur Hcur.
  - destruct cur as [|x cur]; cbn [split_ws_from].
    + now apply words_none.
    + exists [], []. rewrite app_nil_r. repeat split. now left.
  - cbn [split_ws_from]. destruct (isspace c) eqn:Hc.
    + pose proof (IH [] eq_refl) as Hrest. cbn iota in Hrest.
      destruct cur as [|x cur].
      * now apply words_of_space.
      * exists [], (split_ws_from [] r). rewrite app_nil_r.
        repeat split. right. exists c, r. now repeat split.
    + assert (Hcur' : no_space (c :: cur) = true).
      { unfold no_space in *. cbn [forallb]. now rewrite Hc, Hcur. }
      destruct (IH (c :: cur) Hcur') as (w & ws & Hsplit & Hw & Hcase).
      assert (Hcw : no_space (c :: w) = true).
      { unfold no_space in *. cbn [forallb]. now rewrite Hc, Hw. }
      destruct cur as [|x cur].
      * rewrite Hsplit. cbn [rev app].
        destruct Hcase as [[-> ->]|(c' & rest & -> & Hc' & Hrest)].
        -- apply (@words_last [] (c :: w)); [reflexivity|discriminate|exact Hcw].
        -- apply (@words_more [] (c :: w) c' rest ws);
             [reflexivity|discriminate|exact Hcw|exact Hc'|exact Hrest].
      * exists (c :: w), ws. split.
        { rewrite Hsplit. cbn [rev]. now rewrite <- !app_assoc. }
        split; [exact Hcw|].
        destruct Hcase as [[-> ->]|(c' & rest & -> & Hc' & Hrest)].
        -- now left.
        -- right. exists c', rest. now repeat split.
Qed.

Lemma split_ws_words (s : str) : words_of s (split_ws s).
Proof. exact (split_ws_from_spec s [] eq_refl). Qed.

Lemma words_of_blank (s : str) (ws : list str) :
  words_of s ws -> (ws = [] <-> forallb isspace s = true).
Proof.
  intros H. split.
  - intros ->. inversion H; subst; assumption.
  - intros Hs. inversion H; subst; [reflexivity| |].
    + rewrite forallb_app in Hs. apply andb_true_iff in Hs. destruct Hs as [_ Hw].
      destruct w as [|x w]; [congruence|].
      unfold no_space in *. cbn [forallb] in *.
      apply andb_true_iff in Hw. destruct Hw as [Hx _].
      apply andb_true_iff in H2. destruct H2 as [Hx' _].
      now rewrite Hx in Hx'.
    + rewrite forallb_app in Hs. apply andb_true_iff in Hs. destruct Hs as [_ Hw].
      rewrite forallb_app in Hw. apply andb_true_iff in Hw. destruct Hw as [Hw _].
      destruct w as [|x w]; [congruence|].
      unfold no_space in *. cbn [forallb] in *.
      apply andb_true_iff in Hw. destruct Hw as [Hx _].
      apply andb_true_iff in H2. destruct H2 as [Hx' _].
      now rewrite Hx in Hx'.
Qed.

(** X2. The summary helper sends its prompt and returns the answer as
    [summary] and [text]; [word_count] is the number of the answer's
    words, the maximal runs of non-whitespace characters. It is 0 exactly
    when the answer is empty or all whitespace. *)
Theorem generate_summary_counts_words :
  forall (env : Env) (model transcript : str) (s : State) (response : GeminiResponse),
    generate_content env model (summary_prompt transcript) = Ok response ->
    exists (r : AnalysisResult) (s' : State) (words : list str),
      generate_summary model transcript env s = (Ok r, s')
      /\ words_of (g_text response) words
      /\ res_data r = SummaryData (g_text response) (List.length words)
      /\ res_text r = g_text response
      /\ (List.length words = 0 <-> forallb isspace (g_text response) = true).
Proof.
  intros env model transcript s response Hgen.
  unfold generate_summary, timed_generate_content, time, tick, log_call,
    modify_world, lift, ask, bind, ret.
  cbn beta iota zeta. rewrite Hgen. cbn beta iota zeta.
  eexists _, _, (split_ws (g_text response)).
  split; [reflexivity|].
  split; [apply split_ws_words|].
  split; [reflexivity|]. split; [reflexivity|].
  rewrite <- (words_of_blank (split_ws_words (g_text response))).
  now rewrite length_zero_iff_nil.
Qed.

Lemma generate_summary_counts_words_witness :
  exists (r : AnalysisResult) (s' : State) (words : list str),
    generate_summary (lit "gemini-1.5-flash") (lit "Speaker 0: Hello")
      Scenario.env_ok (start Scenario.uploaded) = (Ok r, s')
    /\ words_of Scenario.action_text words
    /\ res_data r = SummaryData Scenario.action_text (List.length words).
Proof.
  destruct (@generate_summary_counts_words Scenario.env_ok
              (lit "gemini-1.5-flash") (lit "Speaker 0: Hello")
              (start Scenario.uploaded)
              {| g_text := Scenario.action_text; g_usage_metadata := Some 10%Z |}
              eq_refl)
    as (r & s' & words & Hrun & Hwords & Hdata & _).
  exists r, s', words. repeat split; assumption.
Defined.

Lemma insert_segment_perm (x : TranscriptionSegment) (l : list TranscriptionSegment) :
  Permutation (x :: l) (insert_segment x l).
Proof.
  induction l as [|y r IH]; cbn [insert_segment]; [reflexivity|].
  destruct (PrimFloat.ltb _ _); [|reflexivity].
  rewrite perm_swap. now apply perm_skip.
Qed.

Lemma order_by_start_perm (l : list TranscriptionSegment) :
  Permutation l (order_by_start l).
Proof.
  induction l as [|x r IH]; [reflexivity|].
  unfold order_by_start in *. cbn [fold_right].
  rewrite <- insert_segment_perm. now apply perm_skip.
Qed.

Lemma render_loop {A} (f : A -> str) (l : list A) (acc : list str) :
  fold_left (fun lines x => lines ++ [f x]) l acc = acc ++ map f l.
Proof.
  revert acc. induction l as [|x r IH]; intros acc; cbn.
  - now rewrite app_nil_r.
  - rewrite IH. now rewrite <- app_assoc.
Qed.

(** X3. The transcript handed to the analysis prompts: every segment of
    the transcription is rendered exactly once, as its speaker label, a
    colon and a space, and its text, with "Unknown Speaker" standing for an
    empty label; the renderings are joined by newlines. The helper reads
    the segments only: it never raises and leaves the state as it was. A
    transcription without segments gives the empty string. *)
Theorem format_transcript_renders_each_segment :
  forall (tr : Transcription) (env : Env) (s : State),
    exists (segs : list TranscriptionSegment) (lines : list str),
      format_transcript_with_speakers tr env s = (Ok (join [newline] lines), s)
      /\ Permutation (segment_rows (tr_id tr) (world s)) segs
      /\ Forall2 (fun sg line =>
                    line = (match seg_speaker_label sg with
                            | [] => lit "Unknown Speaker"
                            | _ :: _ => seg_speaker_label sg
                            end) ++ lit ": " ++ seg_text sg)
                 segs lines
      /\ (segment_rows (tr_id tr) (world s) = [] -> lines = []).
Proof.
  intros tr env s.
  unfold format_transcript_with_speakers, segments_all, get_world, bind, ret.
  cbn beta iota zeta. fold (segment_rows (tr_id tr) (world s)).
  rewrite render_loop. cbn [app].
  eexists _, _. split; [reflexivity|].
  split; [apply order_by_start_perm|]. split.
  - apply Forall2_map_r. intros sg. unfold truthy.
    now destruct (seg_speaker_label sg).
  - intros ->. reflexivity.
Qed.

(* ===================================================================== *)
(** * Attempts whose first lookups fail *)
(* ===================================================================== *)

Lemma no_recording (rid : str) (w : World) :
  recording_rows rid w = [] ->
  get_one (lit "Recording")
    (filter (fun r => str_eqb (rec_id r) rid) (recordings (db w)))
  = Raise (DoesNotExist (lit "Recording")).
Proof. unfold recording_rows. now intros ->. Qed.

Ltac solve_untouched :=
  norm_state;
  repeat (split; [reflexivity|]);
  first [ solve_disposition | split; reflexivity ].

Lemma unknown_recording_run (t : Task) env (m : Message) (rid : str) (w : World) :
  recording_rows rid w = [] ->
  wp (task_body t m rid) env (start w)
     (fun r s' =>
        db (world s') = db w /\ tmp (world s') = tmp w
        /\ calls (world s') = calls w
        /\ match t with
           | T_analyze_transcription =>
               r = Raise (UnboundLocalError (lit "recording"))
               /\ queue (world s') = queue w
           | _ =>
               retry_disposition env m (retry_countdown t)
                 (DoesNotExist (lit "Recording")) (queue w) r (queue (world s'))
           end).
Proof.
  intros Hrec. pose proof (no_recording _ _ Hrec) as G1.
  destruct t; cbn [task_body retry_countdown].
  - unfold process_recording_pipeline, start. wp_run.
    all: solve_untouched.
  - unfold convert_webm_to_mp4, start. wp_run.
    all: solve_untouched.
  - unfold extract_audio_from_video, start. wp_run.
    all: solve_untouched.
  - unfold transcribe_audio, start. wp_run.
    all: solve_untouched.
  - unfold analyze_transcription, start. wp_run.
    all: solve_untouched.
Qed.

(** X4. A task dispatched for a recording id that has no row. The four
    tasks other than the analysis end in [self.retry] with the
    [DoesNotExist] of the lookup, and are re-queued while retries remain.
    The analysis task is different: its [except] block writes
    [recording.status] although [recording] was never bound, so what leaves
    the task is an [UnboundLocalError] and no retry is queued. In every
    case nothing is written: database, scratch files and call log are as
    before. *)
Theorem unknown_recording :
  forall (env : Env) (m : Message) (rid : str) (w w' : World) (r : result str),
    msg_args m = [rid] -> recording_rows rid w = [] ->
    run_task env m w = (r, w') ->
    db w' = db w /\ tmp w' = tmp w /\ calls w' = calls w
    /\ match msg_task m with
       | T_analyze_transcription =>
           r = Raise (UnboundLocalError (lit "recording")) /\ queue w' = queue w
       | _ =>
           retry_disposition env m (retry_countdown (msg_task m))
             (DoesNotExist (lit "Recording")) (queue w) r (queue w')
       end.
Proof.
  intros env m rid w w' r Ha Hrec Hrun.
  destruct (@run_task_body env m rid w _ r w' Ha
              (@unknown_recording_run (msg_task m) env m rid w Hrec) Hrun)
    as (s' & <- & HQ).
  exact HQ.
Qed.

Lemma unknown_recording_witness :
  let m := {| msg_id := 7%N; msg_task := T_analyze_transcription;
              msg_args := [lit "R2"]; msg_retries := 0; msg_chain := [];
              msg_countdown := 0 |} in
  let run := run_task Scenario.env_ok m Scenario.uploaded in
  db (snd run) = db Scenario.uploaded
  /\ tmp (snd run) = tmp Scenario.uploaded
  /\ calls (snd run) = calls Scenario.uploaded
  /\ fst run = Raise (UnboundLocalError (lit "recording"))
  /\ queue (snd run) = queue Scenario.uploaded.
Proof.
  intros m run.
  refine (@unknown_recording Scenario.env_ok m (lit "R2") Scenario.uploaded
            (snd run) (fst run) _ _ _).
  - reflexivity.
  - vm_compute. reflexivity.
  - apply surjective_pairing.
Defined.

Lemma no_job (rid : str) (w : World) (rec : Recording) :
  recording_rows rid w = [rec] -> job_rows rid w = [] ->
  rec_id rec = rid
  /\ get_one (lit "Recording")
       (filter (fun r => str_eqb (rec_id r) rid) (recordings (db w))) = Ok rec
  /\ related_object (lit "processing_job") (lit "ProcessingJob")
       (filter (fun j => str_eqb (job_recording j) (rec_id rec)) (jobs (db w)))
     = Raise (RelatedObjectDoesNotExist (lit "Recording") (lit "processing_job")).
Proof.
  intros Hrec Hjob. pose proof (recording_rows_id _ _ Hrec) as Hid.
  unfold recording_rows in Hrec. unfold job_rows in Hjob.
  rewrite Hid, Hrec, Hjob. repeat split.
Qed.

Lemma stage_without_job_run (n : StepName) env (m : Message) (rid : str)
    (w : World) (rec : Recording) :
  recording_rows rid w = [rec] -> job_rows rid w = [] ->
  wp (task_body (task_of n) m rid) env (start w)
     (fun r s' =>
        calls (world s') = calls w /\ tmp (world s') = tmp w
        /\ same_steps w (world s') /\ same_files w (world s')
        /\ same_jobs w (world s') /\ same_transcripts w (world s')
        /\ same_analyses w (world s')
        /\ retry_disposition env m (retry_countdown (task_of n))
             (RelatedObjectDoesNotExist (lit "Recording") (lit "processing_job")) (queue w) r (queue (world s'))
        /\ recording_marked n rid (RelatedObjectDoesNotExist (lit "Recording") (lit "processing_job")) w (world s')).
Proof.
  intros Hrec Hjob.
  destruct (@no_job rid w rec Hrec Hjob) as (Hid & G1 & G2).
  unfold same_steps, same_files, same_jobs, same_transcripts, same_analyses.
  destruct n; cbn [task_of task_body].
  - unfold convert_webm_to_mp4, start. wp_run.
    all: norm_state;
      repeat (split; [solve [reflexivity | split; reflexivity]|]);
      (split; [solve_disposition|reflexivity]).
  - unfold extract_audio_from_video, start. wp_run.
    all: norm_state;
      repeat (split; [solve [reflexivity | split; reflexivity]|]);
      (split; [solve_disposition|reflexivity]).
  - unfold transcribe_audio, start. wp_run.
    all: norm_state;
      repeat (split; [solve [reflexivity | split; reflexivity]|]);
      (split; [solve_disposition|reflexivity]).
  - unfold analyze_transcription, start. wp_run.
    all: norm_state;
      repeat (split; [solve [reflexivity | split; reflexivity]|]);
      (split; [solve_disposition|solve_marked Hrec Hid]).
Qed.

(** X5. A stage dispatched for a recording that has no job (the
    orchestrator has not run): the attempt ends in [self.retry] with the
    [RelatedObjectDoesNotExist] of [recording.processing_job]. No step row
    is written, no adapter is called, no file, transcription or analysis is
    touched. The first three stages leave the recording alone; the analysis
    stage marks it 'failed' with the error text, "Recording has no
    processing_job.". *)
Theorem stage_without_job :
  forall (n : StepName) (env : Env) (m : Message) (rid : str) (w w' : World)
         (r : result str) (rec : Recording),
    msg_task m = task_of n -> msg_args m = [rid] ->
    recording_rows rid w = [rec] -> job_rows rid w = [] ->
    run_task env m w = (r, w') ->
    calls w' = calls w /\ tmp w' = tmp w
    /\ steps (db w') = steps (db w) /\ files (db w') = files (db w)
    /\ jobs (db w') = jobs (db w)
    /\ transcriptions (db w') = transcriptions (db w)
    /\ segments (db w') = segments (db w)
    /\ analyses (db w') = analyses (db w)
    /\ retry_disposition env m (retry_countdown (task_of n))
         (RelatedObjectDoesNotExist (lit "Recording") (lit "processing_job")) (queue w) r (queue w')
    /\ match n with
       | ai_analysis =>
           exists rec',
             recording_rows rid w' = [rec']
             /\ rec_status rec' = rec_failed
             /\ rec_error_message rec' = lit "Recording has no processing_job."
       | _ => recordings (db w') = recordings (db w)
       end.
Proof.
  intros n env m rid w w' r rec Ht Ha Hrec Hjob Hrun.
  pose proof (@stage_without_job_run n env m rid w rec Hrec Hjob) as Hwp.
  rewrite <- Ht in Hwp at 1.
  destruct (@run_task_body env m rid w _ r w' Ha Hwp Hrun)
    as (s' & <- & Hc & Htmp & Hs & Hf & Hj & (Htr & Hsg) & Han & Hd & Hm).
  repeat (split; [assumption|]).
  destruct n; cbn [recording_marked] in Hm; try exact Hm.
  destruct Hm as (rec0 & rec' & _ & Hrows & Hst & Hmsg). eauto.
Qed.

Lemma stage_without_job_witness :
  let m := Scenario.msg T_convert_webm_to_mp4 100%N 0 in
  let run := run_task Scenario.env_ok m Scenario.uploaded in
  calls (snd run) = calls Scenario.uploaded
  /\ tmp (snd run) = tmp Scenario.uploaded
  /\ steps (db (snd run)) = steps (db Scenario.uploaded)
  /\ files (db (snd run)) = files (db Scenario.uploaded)
  /\ jobs (db (snd run)) = jobs (db Scenario.uploaded)
  /\ transcriptions (db (snd run)) = transcriptions (db Scenario.uploaded)
  /\ segments (db (snd run)) = segments (db Scenario.uploaded)
  /\ analyses (db (snd run)) = analyses (db Scenario.uploaded)
  /\ retry_disposition Scenario.env_ok m 120
       (RelatedObjectDoesNotExist (lit "Recording") (lit "processing_job")) (queue Scenario.uploaded)
       (fst run) (queue (snd run))
  /\ recordings (db (snd run)) = recordings (db Scenario.uploaded).
Proof.
  intros m run.
  refine (@stage_without_job video_conversion Scenario.env_ok m Scenario.R1
            Scenario.uploaded (snd run) (fst run) _ _ _ _ _ _).
  - reflexivity.
  - reflexivity.
  - vm_compute. reflexivity.
  - vm_compute. reflexivity.
  - apply surjective_pairing.
Defined.

Lemma analysis_without_transcription_run env (m : Message) (rid : str)
    (w : World) (rec : Recording) (job : ProcessingJob) :
  recording_rows rid w = [rec] -> job_rows rid w = [job] ->
  transcription_rows rid w = [] ->
  wp (analyze_transcription m rid) env (start w)
     (fun r s' =>
        calls (world s') = calls w /\ tmp (world s') = tmp w
        /\ same_steps w (world s') /\ same_files w (world s')
        /\ same_jobs w (world s') /\ same_transcripts w (world s')
        /\ same_analyses w (world s')
        /\ retry_disposition env m 180
             (RelatedObjectDoesNotExist (lit "Recording") (lit "transcription")) (queue w) r (queue (world s'))
        /\ recording_marked ai_analysis rid
             (RelatedObjectDoesNotExist (lit "Recording") (lit "transcription"))
             w (world s')).
Proof.
  intros Hrec Hjob Htr.
  destruct (@first_lookups rid w rec job Hrec Hjob) as (Hid & G1 & G2).
  assert (G3 : related_object (lit "transcription") (lit "Transcription")
                 (filter (fun t => str_eqb (tr_recording t) (rec_id rec))
                         (transcriptions (db w)))
               = Raise (RelatedObjectDoesNotExist (lit "Recording")
                          (lit "transcription"))).
  { unfold transcription_rows in Htr. now rewrite Hid, Htr. }
  unfold same_steps, same_files, same_jobs, same_transcripts, same_analyses.
  unfold analyze_transcription, start. wp_run.
  all: norm_state;
    repeat (split; [solve [reflexivity | split; reflexivity]|]);
    (split; [solve_disposition|solve_marked Hrec Hid]).
Qed.

(** X6. The analysis stage dispatched for a recording that has a job but
    no transcription: [recording.transcription] raises
    [RelatedObjectDoesNotExist] before the step row is created, so no
    'ai_analysis' step records the failure and the service is never called;
    the recording is marked 'failed' with the error text, "Recording has no
    transcription.", and the attempt ends in [self.retry] with countdown
    180. *)
Theorem analysis_without_transcription :
  forall (env : Env) (m : Message) (rid : str) (w w' : World)
         (r : result str) (rec : Recording) (job : ProcessingJob),
    msg_task m = T_analyze_transcription -> msg_args m = [rid] ->
    recording_rows rid w = [rec] -> job_rows rid w = [job] ->
    transcription_rows rid w = [] ->
    run_task env m w = (r, w') ->
    calls w' = calls w
    /\ steps (db w') = steps (db w)
    /\ analyses (db w') = analyses (db w)
    /\ jobs (db w') = jobs (db w)
    /\ retry_disposition env m 180 (RelatedObjectDoesNotExist (lit "Recording") (lit "transcription"))
         (queue w) r (queue w')
    /\ exists rec',
         recording_rows rid w' = [rec']
         /\ rec_status rec' = rec_failed
         /\ rec_error_message rec' = lit "Recording has no transcription.".
Proof.
  intros env m rid w w' r rec job Ht Ha Hrec Hjob Htr Hrun.
  pose proof (@analysis_without_transcription_run env m rid w rec job
                Hrec Hjob Htr) as Hwp.
  change (analyze_transcription m rid)
    with (task_body T_analyze_transcription m rid) in Hwp.
  rewrite <- Ht in Hwp.
  destruct (@run_task_body env m rid w _ r w' Ha Hwp Hrun)
    as (s' & <- & Hc & _ & Hs & _ & Hj & _ & Han & Hd & Hm).
  repeat (split; [assumption|]).
  destruct Hm as (rec0 & rec' & _ & Hrows & Hst & Hmsg). eauto.
Qed.

Lemma analysis_without_transcription_witness :
  let w := snd (Scenario.run_upto 3 Scenario.env_ok Scenario.uploaded) in
  let m := Scenario.msg T_analyze_transcription 100%N 0 in
  let run := run_task Scenario.env_ok m w in
  calls (snd run) = calls w
  /\ steps (db (snd run)) = steps (db w)
  /\ analyses (db (snd run)) = analyses (db w)
  /\ jobs (db (snd run)) = jobs (db w)
  /\ retry_disposition Scenario.env_ok m 180 (RelatedObjectDoesNotExist (lit "Recording") (lit "transcription"))
       (queue w) (fst run) (queue (snd run))
  /\ exists rec',
       recording_rows Scenario.R1 (snd run) = [rec']
       /\ rec_status rec' = rec_failed
       /\ rec_error_message rec' = lit "Recording has no transcription.".
Proof.
  intros w m run.
  refine (@analysis_without_transcription Scenario.env_ok m Scenario.R1 w
            (snd run) (fst run) _ _ _ _ _ _ _ _).
  - reflexivity.
  - reflexivity.
  - vm_compute. reflexivity.
  - vm_compute. reflexivity.
  - vm_compute. reflexivity.
  - apply surjective_pairing.
Defined.

(** X9. Cleanup on the success path. When an attempt of a stage returns,
    the scratch files of that stage are gone: the downloaded original and
    the ffmpeg output for the two media stages (the analysis stage has
    none, and no attempt of the transcription stage returns); every other
    local file is exactly as before the attempt. *)
Theorem returning_attempt_removes_scratch :
  forall (n : StepName) (env : Env) (m : Message) (rid v : str) (w w' : World),
    msg_task m = task_of n -> msg_args m = [rid] ->
    run_task env m w = (Ok v, w') ->
    (forall p, In p (scratch_paths n rid) -> ~ In p (tmp w'))
    /\ (forall p, ~ In p (scratch_paths n rid) ->
          (In p (tmp w') <-> In p (tmp w))).
Proof.
  intros n env m rid v w w' Ht Ha Hrun.
  exact (proj1 (@returning_attempt_details n env m rid v w w' Ht Ha Hrun)).
Qed.

Lemma returning_attempt_removes_scratch_witness :
  let w := snd (Scenario.run_upto 1 Scenario.env_ok Scenario.uploaded) in
  let m := Scenario.msg T_convert_webm_to_mp4 100%N 0 in
  let w' := snd (run_task Scenario.env_ok m w) in
  (forall p, In p (scratch_paths video_conversion Scenario.R1) -> ~ In p (tmp w'))
  /\ (forall p, ~ In p (scratch_paths video_conversion Scenario.R1) ->
        (In p (tmp w') <-> In p (tmp w))).
Proof.
  intros w m w'.
  refine (@returning_attempt_removes_scratch video_conversion Scenario.env_ok m
            Scenario.R1 Scenario.R1 w w' _ _ _).
  - reflexivity.
  - reflexivity.
  - vm_compute. reflexivity.
Defined.

(** X10. What a returning attempt of a media stage has done. It looked up
    the recording's original WebM file, downloaded it, ran its ffmpeg
    command on it (exit status 0) and uploaded the output, in this order
    and with no other adapter call; it registered exactly one new file of
    its type, under the key [recordings/<id>/converted.mp4] (conversion)
    or [recordings/<id>/audio.wav] (extraction), in the configured bucket,
    with the size of the local output. The extraction reads the original
    WebM, not the converted MP4. *)
Theorem media_stage_artifacts :
  forall (env : Env) (m : Message) (rid v : str) (w w' : World),
    msg_args m = [rid] -> run_task env m w = (Ok v, w') ->
    (msg_task m = T_convert_webm_to_mp4 ->
     media_artifacts env rid (conversion_command rid) (converted_path rid)
       (lit "recordings/" ++ rid ++ lit "/converted.mp4") converted_mp4 w w')
    /\ (msg_task m = T_extract_audio_from_video ->
        media_artifacts env rid (extraction_command rid) (audio_path rid)
          (lit "recordings/" ++ rid ++ lit "/audio.wav") audio_extract w w').
Proof.
  intros env m rid v w w' Ha Hrun. split; intros Ht.
  - exact (proj2 (proj2 (@returning_attempt_details video_conversion env m rid
                           v w w' Ht Ha Hrun))).
  - exact (proj2 (proj2 (@returning_attempt_details audio_extraction env m rid
                           v w w' Ht Ha Hrun))).
Qed.

Lemma media_stage_artifacts_witness :
  let w := snd (Scenario.run_upto 2 Scenario.env_ok Scenario.uploaded) in
  let m := Scenario.msg T_extract_audio_from_video 100%N 0 in
  media_artifacts Scenario.env_ok Scenario.R1
    (extraction_command Scenario.R1) (audio_path Scenario.R1)
    (lit "recordings/R1/audio.wav") audio_extract w
    (snd (run_task Scenario.env_ok m w)).
Proof.
  intros w m.
  refine (proj2 (@media_stage_artifacts Scenario.env_ok m Scenario.R1
                   Scenario.R1 w _ _ _) _).
  - reflexivity.
  - vm_compute. reflexivity.
  - reflexivity.
Defined.

(** X12. The step row of a returning attempt (of the conversion, the
    extraction or the analysis; no attempt of the transcription returns).
    From a state with fresh keys, the attempt has appended exactly one step
    row, of its stage and 'completed'; [started_at] and [completed_at] are
    two reads of the clock, the second one later, and [duration_seconds] is
    their difference. So with a clock that does not go backwards the
    duration is never negative. *)
Theorem completed_step_duration :
  forall (n : StepName) (env : Env) (m : Message) (rid v : str) (w w' : World),
    fresh_keys w = true ->
    msg_task m = task_of n -> msg_args m = [rid] ->
    run_task env m w = (Ok v, w') ->
    exists (st : ProcessingStep) (t0 t1 : nat),
      steps (db w') = steps (db w) ++ [st]
      /\ step_name st = n /\ step_status st = completed
      /\ t0 < t1
      /\ step_started_at st = Some (timezone_now env t0)
      /\ step_completed_at st = Some (timezone_now env t1)
      /\ step_duration_seconds st
         = Some (timezone_now env t1 - timezone_now env t0)%Z
      /\ ((forall a b, a <= b -> (timezone_now env a <= timezone_now env b)%Z) ->
          exists d, step_duration_seconds st = Some d /\ (0 <= d)%Z).
Proof.
  intros n env m rid v w w' Hf Ht Ha Hrun.
  destruct (proj1 (proj2 (@returning_attempt_details n env m rid v w w'
                            Ht Ha Hrun)) Hf)
    as (st & t0 & t1 & Hs & Hn & Hst & Hlt & Hb & Hc & Hd).
  exists st, t0, t1. repeat (split; [assumption|]).
  intros Hmono. eexists. split; [exact Hd|].
  specialize (Hmono t0 t1). lia.
Qed.

Lemma completed_step_duration_witness :
  let w := snd (Scenario.run_upto 1 Scenario.env_ok Scenario.uploaded) in
  let m := Scenario.msg T_convert_webm_to_mp4 100%N 0 in
  let w' := snd (run_task Scenario.env_ok m w) in
  exists (st : ProcessingStep) (t0 t1 : nat),
    steps (db w') = steps (db w) ++ [st]
    /\ step_name st = video_conversion /\ step_status st = completed
    /\ t0 < t1
    /\ step_started_at st = Some (Z.of_nat t0)
    /\ step_completed_at st = Some (Z.of_nat t1)
    /\ step_duration_seconds st = Some (Z.of_nat t1 - Z.of_nat t0)%Z
    /\ ((forall a b, a <= b -> (Z.of_nat a <= Z.of_nat b)%Z) ->
        exists d, step_duration_seconds st = Some d /\ (0 <= d)%Z).
Proof.
  intros w m w'.
  refine (@completed_step_duration video_conversion Scenario.env_ok m
            Scenario.R1 Scenario.R1 w w' _ _ _ _).
  - vm_compute. reflexivity.
  - reflexivity.
  - reflexivity.
  - vm_compute. reflexivity.
Defined.

(* ===================================================================== *)
(** * Failures of the adapters *)
(* ===================================================================== *)

Lemma one_file (rid : str) (ft : FileType) (w : World) (rec : Recording)
    (f : RecordingFile) :
  rec_id rec = rid -> file_rows rid ft w = [f] ->
  get_one (lit "RecordingFile")
    (filter (fun f => str_eqb (rf_recording f) (rec_id rec)
                      && FileType_eqb (rf_file_type f) ft) (files (db w)))
  = Ok f.
Proof. unfold file_rows. intros -> ->. reflexivity. Qed.

Ltac solve_ffmpeg_failed Hf :=
  unfold ffmpeg_error, conversion_command, extraction_command;
  unfold original_path, converted_path, audio_path;
  norm_state;
  split; [rewrite <- ?app_assoc; reflexivity|];
  split; [reflexivity|];
  split; [solve_failed_step Hf|];
  split; [solve_disposition|];
  cbn [In];
  first [ left; reflexivity
        | right; apply in_without; split;
          [ left; reflexivity
          | intros E; apply app_inv_head in E; apply app_inv_head in E;
            vm_compute in E; discriminate E ] ].

Lemma ffmpeg_failure_run (n : StepName) env (m : Message) (rid : str)
    (w : World) (rec : Recording) (job : ProcessingJob) (webm : RecordingFile)
    (cp : CompletedProcess) :
  n = video_conversion \/ n = audio_extraction ->
  fresh_keys w = true ->
  recording_rows rid w = [rec] -> job_rows rid w = [job] ->
  step_conflict (job_id job) n (steps (db w)) = false ->
  file_rows rid original_webm w = [webm] ->
  s3_download_file env (AWS_STORAGE_BUCKET_NAME env) (rf_s3_key webm)
    (original_path rid) = None ->
  subprocess_run env (media_command n rid) = Ok cp ->
  returncode cp <> 0%Z ->
  wp (task_body (task_of n) m rid) env (start w)
     (fun r s' =>
        calls (world s')
        = calls w ++ [ CallDownload (rf_s3_key webm) (original_path rid);
                       CallFfmpeg (media_command n rid) ]
        /\ files (db (world s')) = files (db w)
        /\ (exists st,
              steps (db (world s')) = steps (db w) ++ [st]
              /\ step_job st = job_id job /\ step_name st = n
              /\ step_status st = failed
              /\ step_error_message st = exc_str (ffmpeg_error n cp))
        /\ retry_disposition env m 120 (ffmpeg_error n cp) (queue w) r
             (queue (world s'))
        /\ In (original_path rid) (tmp (world s'))).
Proof.
  intros Hn Hf Hrec Hjob Hconf Hfile Hdl Hrun Hrc.
  destruct (@first_lookups rid w rec job Hrec Hjob) as (Hid & G1 & G2).
  pose proof (@one_file rid original_webm w rec webm Hid Hfile) as G3.
  apply Z.eqb_neq in Hrc.
  unfold original_path in Hdl.
  destruct Hn as [-> | ->]; cbn [task_of task_body media_command] in *;
    unfold conversion_command, extraction_command, original_path,
      converted_path, audio_path in Hrun.
  - unfold convert_webm_to_mp4, start. path_run.
    all: solve_ffmpeg_failed Hf.
  - unfold extract_audio_from_video, start. path_run.
    all: solve_ffmpeg_failed Hf.
Qed.

(** X13. ffmpeg exits with a non-zero status in a media stage (conversion
    or extraction) whose download succeeded. The stage has called the
    download and ffmpeg and nothing else: nothing is uploaded and no file
    is registered. Its step row is marked 'failed' with the stage's
    message followed by ffmpeg's stderr, the attempt ends in [self.retry]
    with countdown 120, and the downloaded original is still in [/tmp]
    when the attempt has raised. *)
Theorem ffmpeg_failure :
  forall (n : StepName) (env : Env) (m : Message) (rid : str) (w w' : World)
         (r : result str) (rec : Recording) (job : ProcessingJob)
         (webm : RecordingFile) (cp : CompletedProcess),
    n = video_conversion \/ n = audio_extraction ->
    fresh_keys w = true ->
    msg_task m = task_of n -> msg_args m = [rid] ->
    recording_rows rid w = [rec] -> job_rows rid w = [job] ->
    step_conflict (job_id job) n (steps (db w)) = false ->
    file_rows rid original_webm w = [webm] ->
    s3_download_file env (AWS_STORAGE_BUCKET_NAME env) (rf_s3_key webm)
      (original_path rid) = None ->
    subprocess_run env (media_command n rid) = Ok cp ->
    returncode cp <> 0%Z ->
    run_task env m w = (r, w') ->
    calls w'
    = calls w ++ [ CallDownload (rf_s3_key webm) (original_path rid);
                   CallFfmpeg (media_command n rid) ]
    /\ files (db w') = files (db w)
    /\ (exists st,
          steps (db w') = steps (db w) ++ [st]
          /\ step_job st = job_id job /\ step_name st = n
          /\ step_status st = failed
          /\ step_error_message st = exc_str (ffmpeg_error n cp))
    /\ retry_disposition env m 120 (ffmpeg_error n cp) (queue w) r (queue w')
    /\ In (original_path rid) (tmp w').
Proof.
  intros n env m rid w w' r rec job webm cp Hn Hf Ht Ha Hrec Hjob Hconf Hfile
         Hdl Hcp Hrc Hrun.
  pose proof (@ffmpeg_failure_run n env m rid w rec job webm cp
                Hn Hf Hrec Hjob Hconf Hfile Hdl Hcp Hrc) as Hwp.
  rewrite <- Ht in Hwp.
  destruct (@run_task_body env m rid w _ r w' Ha Hwp Hrun) as (s' & <- & HQ).
  exact HQ.
Qed.

Lemma ffmpeg_failure_witness :
  let w := snd (Scenario.run_upto 1 Scenario.env_ok Scenario.uploaded) in
  let m := Scenario.msg T_convert_webm_to_mp4 100%N 0 in
  let env := Scenario.env_ffmpeg_fails in
  let run := run_task env m w in
  let cp := {| returncode := 1%Z; stderr := lit "Invalid data found";
               output_written := false |} in
  files (db (snd run)) = files (db w)
  /\ (exists st,
        steps (db (snd run)) = steps (db w) ++ [st]
        /\ step_job st = 1%N /\ step_name st = video_conversion
        /\ step_status st = failed
        /\ step_error_message st = lit "FFmpeg failed: Invalid data found")
  /\ retry_disposition env m 120 (ffmpeg_error video_conversion cp) (queue w)
       (fst run) (queue (snd run))
  /\ In (original_path Scenario.R1) (tmp (snd run)).
Proof.
  intros w m env run cp.
  refine (proj2 (@ffmpeg_failure video_conversion env m Scenario.R1 w
            (snd run) (fst run) _
            {| job_id := 1%N; job_recording := Scenario.R1;
               job_celery_task_id := 100%N; job_status := running;
               job_current_step := []; job_progress_percentage := 0%Z;
               job_retry_count := 0%Z; job_max_retries := 3%Z;
               job_created_at := 3%Z; job_started_at := Some 2%Z;
               job_completed_at := None |} _ cp
            _ _ _ _ _ _ _ _ _ _ _ _)).
  - left. reflexivity.
  - vm_compute. reflexivity.
  - reflexivity.
  - reflexivity.
  - vm_compute. reflexivity.
  - vm_compute. reflexivity.
  - vm_compute. reflexivity.
  - vm_compute. reflexivity.
  - reflexivity.
  - reflexivity.
  - discriminate.
  - apply surjective_pairing.
Defined.

(* ===================================================================== *)
(** * The orchestrator, again *)
(* ===================================================================== *)

Lemma one_recording (rid : str) (w : World) (rec : Recording) :
  recording_rows rid w = [rec] ->
  rec_id rec = rid
  /\ get_one (lit "Recording")
       (filter (fun r => str_eqb (rec_id r) rid) (recordings (db w))) = Ok rec.
Proof.
  intros Hrec. pose proof (recording_rows_id _ _ Hrec) as Hid.
  unfold recording_rows in Hrec. rewrite Hrec. now split.
Qed.

Ltac solve_processing Hrec Hid :=
  eexists; unfold recording_rows; cbn [db recordings];
  cbn [rec_id rec_status set_rec_status]; rewrite ?Hid;
  split; [apply (upsert_filter _ _ _ Hrec); cbn [rec_id];
          apply str_eqb_refl|];
  reflexivity.

Lemma orchestrator_refused_run env (m : Message) (rid : str) (w : World)
    (rec : Recording) :
  recording_rows rid w = [rec] ->
  job_conflict rid (jobs (db w)) = true ->
  wp (process_recording_pipeline m rid) env (start w)
     (fun r s' =>
        (exists rec', recording_rows rid (world s') = [rec']
                      /\ rec_status rec' = rec_processing)
        /\ same_jobs w (world s') /\ same_steps w (world s')
        /\ same_files w (world s') /\ same_transcripts w (world s')
        /\ same_analyses w (world s')
        /\ retry_disposition env m 60
             (IntegrityError (lit "processing_processingjob.recording_id"))
             (queue w) r (queue (world s'))).
Proof.
  intros Hrec Hconf.
  destruct (@one_recording rid w rec Hrec) as (Hid & G1).
  rewrite <- Hid in Hconf.
  unfold same_jobs, same_steps, same_files, same_transcripts, same_analyses.
  unfold process_recording_pipeline, start. path_run.
  all: norm_state; cbn [rec_id set_rec_status] in *.
  all: split; [solve_processing Hrec Hid|].
  all: repeat (split; [solve [reflexivity | split; reflexivity]|]).
  all: solve_disposition.
Qed.

(** X14. The orchestrator dispatched for a recording that already has a
    job. Before it tries to create the job it sets the recording to
    'processing' and saves it; the refusal of the second job comes after.
    So the attempt ends in [self.retry] (countdown 60) with the
    [IntegrityError], jobs, steps, files, transcriptions and analyses are
    untouched, and the recording is left 'processing', whatever its status
    was, also when it was 'completed'. *)
Theorem redispatch_resets_recording_status :
  forall (env : Env) (m : Message) (rid : str) (w w' : World) (r : result str)
         (rec : Recording) (job : ProcessingJob),
    msg_task m = T_process_recording_pipeline -> msg_args m = [rid] ->
    recording_rows rid w = [rec] -> In job (job_rows rid w) ->
    run_task env m w = (r, w') ->
    (exists rec', recording_rows rid w' = [rec']
                  /\ rec_status rec' = rec_processing)
    /\ jobs (db w') = jobs (db w) /\ steps (db w') = steps (db w)
    /\ files (db w') = files (db w)
    /\ transcriptions (db w') = transcriptions (db w)
    /\ segments (db w') = segments (db w)
    /\ analyses (db w') = analyses (db w)
    /\ retry_disposition env m 60
         (IntegrityError (lit "processing_processingjob.recording_id"))
         (queue w) r (queue w').
Proof.
  intros env m rid w w' r rec job Ht Ha Hrec Hjob Hrun.
  pose proof (job_conflict_some _ _ _ Hjob) as Hconf.
  pose proof (@orchestrator_refused_run env m rid w rec Hrec Hconf) as Hwp.
  change (process_recording_pipeline m rid)
    with (task_body T_process_recording_pipeline m rid) in Hwp.
  rewrite <- Ht in Hwp.
  destruct (@run_task_body env m rid w _ r w' Ha Hwp Hrun)
    as (s' & <- & Hr & Hj & Hs & Hf & (Htr & Hsg) & Han & Hd).
  repeat (split; [assumption|]). exact Hd.
Qed.

(** R1 after the analysis stage has marked it 'failed', the orchestrator
    dispatched once more. *)
Lemma redispatch_resets_recording_status_witness :
  let w := snd (Scenario.run_upto 5 Scenario.env_ok Scenario.uploaded) in
  let m := Scenario.msg T_process_recording_pipeline 200%N 0 in
  let run := run_task Scenario.env_ok m w in
  map rec_status (recording_rows Scenario.R1 w) = [rec_failed]
  /\ (exists rec', recording_rows Scenario.R1 (snd run) = [rec']
                   /\ rec_status rec' = rec_processing)
  /\ jobs (db (snd run)) = jobs (db w).
Proof.
  intros w m run. split; [vm_compute; reflexivity|].
  edestruct (@redispatch_resets_recording_status Scenario.env_ok m Scenario.R1 w
               (snd run) (fst run))
    as (Hr & Hj & _).
  - reflexivity.
  - reflexivity.
  - vm_compute. reflexivity.
  - vm_compute. left. reflexivity.
  - apply surjective_pairing.
  - split; assumption.
Defined.

Lemma dispatch_refused_run env (m : Message) (rid : str) (w : World)
    (rec : Recording) (e : exn) :
  recording_rows rid w = [rec] -> job_rows rid w = [] ->
  broker_publish env (first_stage_message (N.succ (next_pk w)) rid) = Some e ->
  wp (process_recording_pipeline m rid) env (start w)
     (fun r s' =>
        (exists job, job_rows rid (world s') = [job]
                     /\ job_status job = running)
        /\ (exists rec', recording_rows rid (world s') = [rec']
                         /\ rec_status rec' = rec_processing)
        /\ same_steps w (world s')
        /\ retry_disposition env m 60 e (queue w) r (queue (world s'))).
Proof.
  intros Hrec Hjob Hpub.
  destruct (@one_recording rid w rec Hrec) as (Hid & G1).
  pose proof (@job_conflict_none rid w Hjob) as Hconf. rewrite <- Hid in Hconf.
  unfold first_stage_message, Task_s in Hpub.
  unfold same_steps.
  unfold process_recording_pipeline, start. path_run.
  all: norm_state; cbn [rec_id set_rec_status] in *.
  all: split;
    [ eexists; unfold job_rows; cbn [db jobs];
      rewrite filter_app; fold (job_rows rid w); rewrite Hjob; cbn [filter app];
      cbn [job_recording]; rewrite Hid, str_eqb_refl;
      split; reflexivity |].
  all: split; [solve_processing Hrec Hid|].
  all: split; [reflexivity|].
  all: solve_disposition.
Qed.

Lemma retry_disposition_raises env (m : Message) (cd : nat) (exc : exn)
    (q q' : list Message) (r : result str) :
  retry_disposition env m cd exc q r q' -> forall v, r <> Ok v.
Proof.
  unfold retry_disposition. intros H v.
  destruct (_ <? _); [|destruct (broker_publish _ _)];
    destruct H as [-> _]; discriminate.
Qed.

(** X15. The orchestrator is not atomic. When the broker refuses
    the chain's first message, the attempt ends in [self.retry] with the
    broker's error, but the job row ('running') and the recording's
    'processing' status are already written and stay. Every later attempt
    of the orchestrator for that recording, its own retry included and
    whatever the broker then does, is refused by the job's uniqueness: it
    raises, adds no job and no step, and dispatches no stage. *)
Theorem refused_dispatch_blocks_pipeline :
  forall (env : Env) (m : Message) (rid : str) (w w1 : World) (r : result str)
         (rec : Recording) (e : exn),
    msg_task m = T_process_recording_pipeline -> msg_args m = [rid] ->
    recording_rows rid w = [rec] -> job_rows rid w = [] ->
    broker_publish env (first_stage_message (N.succ (next_pk w)) rid) = Some e ->
    run_task env m w = (r, w1) ->
    (exists job, job_rows rid w1 = [job] /\ job_status job = running)
    /\ (exists rec', recording_rows rid w1 = [rec']
                     /\ rec_status rec' = rec_processing)
    /\ steps (db w1) = steps (db w)
    /\ retry_disposition env m 60 e (queue w) r (queue w1)
    /\ forall (env2 : Env) (m2 : Message) (r2 : result str) (w2 : World),
         msg_task m2 = T_process_recording_pipeline -> msg_args m2 = [rid] ->
         run_task env2 m2 w1 = (r2, w2) ->
         (forall v, r2 <> Ok v)
         /\ jobs (db w2) = jobs (db w1) /\ steps (db w2) = steps (db w1)
         /\ retry_disposition env2 m2 60
              (IntegrityError (lit "processing_processingjob.recording_id"))
              (queue w1) r2 (queue w2).
Proof.
  intros env m rid w w1 r rec e Ht Ha Hrec Hjob Hpub Hrun.
  pose proof (@dispatch_refused_run env m rid w rec e Hrec Hjob Hpub) as Hwp.
  change (process_recording_pipeline m rid)
    with (task_body T_process_recording_pipeline m rid) in Hwp.
  rewrite <- Ht in Hwp.
  destruct (@run_task_body env m rid w _ r w1 Ha Hwp Hrun)
    as (s' & <- & (job & Hj1 & Hjs) & (rec' & Hr1 & Hrs) & Hs & Hd).
  split; [eauto|]. split; [eauto|]. split; [exact Hs|]. split; [exact Hd|].
  intros env2 m2 r2 w2 Ht2 Ha2 Hrun2.
  assert (Hconf : job_conflict rid (jobs (db (world s'))) = true).
  { apply (@job_conflict_some rid (world s') job). rewrite Hj1. now left. }
  pose proof (@orchestrator_refused_run env2 m2 rid (world s') rec' Hr1 Hconf)
    as Hwp2.
  change (process_recording_pipeline m2 rid)
    with (task_body T_process_recording_pipeline m2 rid) in Hwp2.
  rewrite <- Ht2 in Hwp2.
  destruct (@run_task_body env2 m2 rid (world s') _ r2 w2 Ha2 Hwp2 Hrun2)
    as (s2 & <- & _ & Hj2 & Hs2 & _ & _ & _ & Hd2).
  split; [exact (@retry_disposition_raises _ _ _ _ _ _ _ Hd2)|].
  repeat (split; [assumption|]). exact Hd2.
Qed.

Lemma refused_dispatch_blocks_pipeline_witness :
  let env := Cases2.env_no_stage_dispatch in
  let m := Scenario.msg T_process_recording_pipeline 100%N 0 in
  let run := run_task env m Scenario.uploaded in
  let e := External (lit "Connection reset by peer") in
  (exists job, job_rows Scenario.R1 (snd run) = [job] /\ job_status job = running)
  /\ (exists rec', recording_rows Scenario.R1 (snd run) = [rec']
                   /\ rec_status rec' = rec_processing)
  /\ steps (db (snd run)) = steps (db Scenario.uploaded)
  /\ retry_disposition env m 60 e (queue Scenario.uploaded) (fst run)
       (queue (snd run))
  /\ forall (env2 : Env) (m2 : Message) (r2 : result str) (w2 : World),
       msg_task m2 = T_process_recording_pipeline ->
       msg_args m2 = [Scenario.R1] ->
       run_task env2 m2 (snd run) = (r2, w2) ->
       (forall v, r2 <> Ok v)
       /\ jobs (db w2) = jobs (db (snd run))
       /\ steps (db w2) = steps (db (snd run))
       /\ retry_disposition env2 m2 60
            (IntegrityError (lit "processing_processingjob.recording_id"))
            (queue (snd run)) r2 (queue w2).
Proof.
  intros env m run e.
  refine (@refused_dispatch_blocks_pipeline env m Scenario.R1 Scenario.uploaded
            (snd run) (fst run) _ e _ _ _ _ _ _).
  - reflexivity.
  - reflexivity.
  - vm_compute. reflexivity.
  - vm_compute. reflexivity.
  - reflexivity.
  - apply surjective_pairing.
Defined.
(* ===================================================================== *)
(** * The chain the orchestrator builds *)
(* ===================================================================== *)

(** X16. The chain cannot get past the conversion. It is built from
    signatures [task.s(recording_id)]; when a task of a chain returns, its
    return value is put in front of the next signature's arguments and the
    next task is sent by [apply_async], which checks the arguments first.
    So the delivery of the chain's first message never ends in success.
    Either the conversion fails; or it returns, and then the extraction is
    to be sent with two arguments where the task function takes one: the
    check raises TypeError, the delivery ends with that error, nothing is
    queued, and what the conversion wrote stays (its step is 'completed').
    The only message such a delivery can add to the queue is the
    conversion's own retry. *)
Theorem chain_stops_after_conversion :
  forall (env : Env) (id : uuid) (rid : str) (w w1 : World) (r : result str),
    fresh_keys w = true ->
    deliver env (first_stage_message id rid) w = (r, w1) ->
    (forall v, r <> Ok v)
    /\ (forall m2, In m2 (queue w1) ->
          In m2 (queue w) \/ m2 = retry_message (first_stage_message id rid) 120)
    /\ (forall v w0,
          run_task env (first_stage_message id rid) w = (Ok v, w0) ->
          (exists msg, r = Raise (TypeError msg))
          /\ w1 = w0 /\ queue w1 = queue w
          /\ exists st,
               steps (db w1) = steps (db w) ++ [st]
               /\ step_name st = video_conversion
               /\ step_status st = completed).
Proof.
  intros env id rid w w1 r Hf Hd.
  unfold deliver in Hd.
  destruct (run_task env (first_stage_message id rid) w) as [[v0|e] w0] eqn:Hrun.
  - pose proof (@stage_attempt video_conversion env (first_stage_message id rid)
                  rid w (Ok v0) w0 Hf eq_refl eq_refl Hrun) as Hout.
    cbn [stage_outcome stage_succeeded] in Hout.
    destruct Hout as (_ & (rec & job & st & _ & _ & _ & Hs & _ & Hn & Hst & _
                           & _ & Hq) & _).
    unfold continue_chain, first_stage_message, Task_s, apply_async, raise
      in Hd.
    cbn [msg_chain sig_task sig_args List.length] in Hd.
    injection Hd as <- <-. cbn [world].
    split; [discriminate|]. split.
    + intros m2 Hin. left. now rewrite <- Hq.
    + intros v w0' E. injection E as <- <-.
      split; [unfold arity_error; eexists; reflexivity|].
      split; [reflexivity|]. split; [exact Hq|].
      exists st. auto.
  - injection Hd as <- <-.
    pose proof (@stage_attempt video_conversion env (first_stage_message id rid)
                  rid w (Raise e) w0 Hf eq_refl eq_refl Hrun) as Hout.
    cbn [stage_outcome] in Hout.
    destruct Hout as (_ & _ & [(Hn & _)|(exc & Hdisp & _)]); [discriminate|].
    split; [discriminate|]. split; [|intros v w0' E; discriminate E].
    intros m2 Hin. unfold retry_disposition in Hdisp.
    cbn [retry_countdown task_of] in Hdisp.
    destruct (_ <? _); [|destruct (broker_publish _ _)];
      destruct Hdisp as [_ Hq]; rewrite Hq in Hin; auto.
    apply in_app_or in Hin. destruct Hin as [Hin|[<-|[]]]; auto.
Qed.

(** R1, started by the orchestrator, every collaborator answering: the
    conversion returns and the delivery ends in TypeError with nothing
    queued. *)
Lemma chain_stops_after_conversion_witness :
  let w := with_queue []
             (snd (Scenario.run_upto 1 Scenario.env_ok Scenario.uploaded)) in
  let m := first_stage_message 2%N Scenario.R1 in
  let run := deliver Scenario.env_ok m w in
  fst (run_task Scenario.env_ok m w) = Ok Scenario.R1
  /\ (exists msg, fst run = Raise (TypeError msg))
  /\ queue (snd run) = []
  /\ exists st,
       steps (db (snd run)) = steps (db w) ++ [st]
       /\ step_name st = video_conversion /\ step_status st = completed.
Proof.
  intros w m run.
  assert (Hf : fresh_keys w = true) by (vm_compute; reflexivity).
  assert (E : run_task Scenario.env_ok m w
              = (Ok Scenario.R1, snd (run_task Scenario.env_ok m w))).
  { assert (E1 : fst (run_task Scenario.env_ok m w) = Ok Scenario.R1)
      by (vm_compute; reflexivity).
    rewrite <- E1. apply surjective_pairing. }
  destruct (@chain_stops_after_conversion Scenario.env_ok 2%N Scenario.R1 w
              (snd run) (fst run) Hf (surjective_pairing run))
    as (_ & _ & H).
  destruct (H _ _ E) as (Hr & _ & Hq & Hst).
  split; [now rewrite E|]. split; [exact Hr|]. split; [exact Hq|exact Hst].
Defined.

Lemma exists_written (path : str) (w : World) (l : list str) :
  tmp w = path :: l -> exists_file path w = true.
Proof.
  intros H. unfold exists_file. rewrite H. cbn [existsb].
  now rewrite str_eqb_refl.
Qed.

Ltac solve_transcription_failed Hf :=
  unfold audio_path; norm_state;
  first
    [ match goal with
      | H : exists_file ?p ?w0 = false |- _ =>
          exfalso;
          assert (K : exists_file p w0 = true)
            by (eapply exists_written; reflexivity);
          rewrite K in H; discriminate H
      end
    | split; [rewrite <- ?app_assoc; reflexivity|];
      split; [reflexivity|]; split; [reflexivity|];
      split; [solve_failed_step Hf|];
      split; [solve_disposition|];
      cbn [In]; left; reflexivity ].

Lemma transcription_failure_run env (m : Message) (rid : str)
    (w : World) (rec : Recording) (job : ProcessingJob) (audio : RecordingFile)
    (e : exn) :
  fresh_keys w = true ->
  recording_rows rid w = [rec] -> job_rows rid w = [job] ->
  step_conflict (job_id job) speech_to_text (steps (db w)) = false ->
  truthy (DEEPGRAM_API_KEY env) = true ->
  file_rows rid audio_extract w = [audio] ->
  s3_download_file env (AWS_STORAGE_BUCKET_NAME env) (rf_s3_key audio)
    (audio_path rid) = None ->
  (transcribe_file env (audio_path rid) = Raise e
   \/ exists response,
        transcribe_file env (audio_path rid) = Ok response
        /\ first_alternative response = Raise e) ->
  wp (transcribe_audio m rid) env (start w)
     (fun r s' =>
        calls (world s')
        = calls w ++ [ CallDownload (rf_s3_key audio) (audio_path rid);
                       CallDeepgram (audio_path rid) ]
        /\ transcriptions (db (world s')) = transcriptions (db w)
        /\ segments (db (world s')) = segments (db w)
        /\ (exists st,
              steps (db (world s')) = steps (db w) ++ [st]
              /\ step_job st = job_id job /\ step_name st = speech_to_text
              /\ step_status st = failed
              /\ step_error_message st = exc_str e)
        /\ retry_disposition env m 180 e (queue w) r (queue (world s'))
        /\ In (audio_path rid) (tmp (world s'))).
Proof.
  intros Hf Hrec Hjob Hconf Hkey Hfile Hdl Hcase.
  destruct (@first_lookups rid w rec job Hrec Hjob) as (Hid & G1 & G2).
  pose proof (@one_file rid audio_extract w rec audio Hid Hfile) as G3.
  unfold audio_path in Hdl, Hcase.
  destruct Hcase as [Hcall | (response & Hcall & Halt)].
  - unfold transcribe_audio, start. path_run.
    all: solve_transcription_failed Hf.
  - unfold transcribe_audio, start. path_run.
    all: solve_transcription_failed Hf.
Qed.

(** X17. The speech-to-text call fails, or answers with no channel or no
    alternative so that [channels[0].alternatives[0]] is out of range. The
    stage has downloaded the audio and called the service once; it stores
    no transcription and no segment; the step row is marked 'failed' with
    the error text (for the index error, "list index out of range"); the
    attempt ends in [self.retry] with countdown 180; and the downloaded
    audio is still in [/tmp] when the attempt has raised. *)
Theorem transcription_failure :
  forall (env : Env) (m : Message) (rid : str) (w w' : World) (r : result str)
         (rec : Recording) (job : ProcessingJob) (audio : RecordingFile)
         (e : exn),
    fresh_keys w = true ->
    msg_task m = T_transcribe_audio -> msg_args m = [rid] ->
    recording_rows rid w = [rec] -> job_rows rid w = [job] ->
    step_conflict (job_id job) speech_to_text (steps (db w)) = false ->
    truthy (DEEPGRAM_API_KEY env) = true ->
    file_rows rid audio_extract w = [audio] ->
    s3_download_file env (AWS_STORAGE_BUCKET_NAME env) (rf_s3_key audio)
      (audio_path rid) = None ->
    (transcribe_file env (audio_path rid) = Raise e
     \/ exists response,
          transcribe_file env (audio_path rid) = Ok response
          /\ first_alternative response = Raise e) ->
    run_task env m w = (r, w') ->
    calls w'
    = calls w ++ [ CallDownload (rf_s3_key audio) (audio_path rid);
                   CallDeepgram (audio_path rid) ]
    /\ transcriptions (db w') = transcriptions (db w)
    /\ segments (db w') = segments (db w)
    /\ (exists st,
          steps (db w') = steps (db w) ++ [st]
          /\ step_job st = job_id job /\ step_name st = speech_to_text
          /\ step_status st = failed
          /\ step_error_message st = exc_str e)
    /\ retry_disposition env m 180 e (queue w) r (queue w')
    /\ In (audio_path rid) (tmp w').
Proof.
  intros env m rid w w' r rec job audio e Hf Ht Ha Hrec Hjob Hconf Hkey Hfile
         Hdl Hcase Hrun.
  pose proof (@transcription_failure_run env m rid w rec job audio e
                Hf Hrec Hjob Hconf Hkey Hfile Hdl Hcase) as Hwp.
  change (transcribe_audio m rid)
    with (task_body T_transcribe_audio m rid) in Hwp.
  rewrite <- Ht in Hwp.
  destruct (@run_task_body env m rid w _ r w' Ha Hwp Hrun) as (s' & <- & HQ).
  exact HQ.
Qed.

Lemma transcription_failure_witness :
  let w := snd (Scenario.run_upto 3 Scenario.env_ok Scenario.uploaded) in
  let m := Scenario.msg T_transcribe_audio 100%N 0 in
  let env := Cases2.env_no_channels in
  let run := run_task env m w in
  transcriptions (db (snd run)) = transcriptions (db w)
  /\ segments (db (snd run)) = segments (db w)
  /\ (exists st,
        steps (db (snd run)) = steps (db w) ++ [st]
        /\ step_job st = 1%N /\ step_name st = speech_to_text
        /\ step_status st = failed
        /\ step_error_message st = lit "list index out of range")
  /\ retry_disposition env m 180 IndexError (queue w) (fst run) (queue (snd run))
  /\ In (audio_path Scenario.R1) (tmp (snd run)).
Proof.
  intros w m env run.
  refine (proj2 (@transcription_failure env m Scenario.R1 w (snd run) (fst run)
            _ {| job_id := 1%N; job_recording := Scenario.R1;
                 job_celery_task_id := 100%N; job_status := running;
                 job_current_step := []; job_progress_percentage := 0%Z;
                 job_error_message := [];
                 job_retry_count := 0%Z; job_max_retries := 3%Z;
                 job_created_at := 3%Z; job_started_at := Some 2%Z;
                 job_completed_at := None |} _ IndexError
            _ _ _ _ _ _ _ _ _ _ _)).
  - vm_compute. reflexivity.
  - reflexivity.
  - reflexivity.
  - vm_compute. reflexivity.
  - vm_compute. reflexivity.
  - vm_compute. reflexivity.
  - reflexivity.
  - vm_compute. reflexivity.
  - reflexivity.
  - right. eexists. split; reflexivity.
  - apply surjective_pairing.
Defined.
(* ===================================================================== *)
(** * The transcription stage when the service answers *)
(* ===================================================================== *)

Lemma transcription_answered_run env (m : Message) (rid : str)
    (w : World) (rec : Recording) (job : ProcessingJob) (audio : RecordingFile)
    (response : DeepgramResponse) (alt : Alternative) :
  fresh_keys w = true ->
  recording_rows rid w = [rec] -> job_rows rid w = [job] ->
  step_conflict (job_id job) speech_to_text (steps (db w)) = false ->
  truthy (DEEPGRAM_API_KEY env) = true ->
  file_rows rid audio_extract w = [audio] ->
  s3_download_file env (AWS_STORAGE_BUCKET_NAME env) (rf_s3_key audio)
    (audio_path rid) = None ->
  transcribe_file env (audio_path rid) = Ok response ->
  first_alternative response = Ok alt ->
  let exc := AttributeError (lit "'" ++ alt_class alt
                             ++ lit "' object has no attribute 'utterances'") in
  wp (transcribe_audio m rid) env (start w)
     (fun r s' =>
        calls (world s')
        = calls w ++ [ CallDownload (rf_s3_key audio) (audio_path rid);
                       CallDeepgram (audio_path rid) ]
        /\ transcriptions (db (world s')) = transcriptions (db w)
        /\ segments (db (world s')) = segments (db w)
        /\ (exists st,
              steps (db (world s')) = steps (db w) ++ [st]
              /\ step_job st = job_id job /\ step_name st = speech_to_text
              /\ step_status st = failed
              /\ step_error_message st = exc_str exc)
        /\ retry_disposition env m 180 exc (queue w) r (queue (world s'))
        /\ In (audio_path rid) (tmp (world s'))).
Proof.
  intros Hf Hrec Hjob Hconf Hkey Hfile Hdl Hcall Halt exc. subst exc.
  destruct (@first_lookups rid w rec job Hrec Hjob) as (Hid & G1 & G2).
  pose proof (@one_file rid audio_extract w rec audio Hid Hfile) as G3.
  unfold audio_path in Hdl, Hcall.
  unfold transcribe_audio, start. path_run.
  all: solve_transcription_failed Hf.
Qed.

(** X11. The speech-to-text service answers, and the answer is lost. With
    the key configured, the audio registered and downloaded, and a
    response that has a first alternative, the stage reads
    [result.utterances] on that alternative while it evaluates the
    arguments of [Transcription.objects.create]; the object has no such
    attribute. So the attempt has called the service once, stores no
    transcription and no segment, marks its step 'failed' with the text of
    the AttributeError, ends in [self.retry] with countdown 180, and leaves
    the downloaded audio in [/tmp]. *)
Theorem transcription_answer_is_lost :
  forall (env : Env) (m : Message) (rid : str) (w w' : World) (r : result str)
         (rec : Recording) (job : ProcessingJob) (audio : RecordingFile)
         (response : DeepgramResponse) (alt : Alternative),
    fresh_keys w = true ->
    msg_task m = T_transcribe_audio -> msg_args m = [rid] ->
    recording_rows rid w = [rec] -> job_rows rid w = [job] ->
    step_conflict (job_id job) speech_to_text (steps (db w)) = false ->
    truthy (DEEPGRAM_API_KEY env) = true ->
    file_rows rid audio_extract w = [audio] ->
    s3_download_file env (AWS_STORAGE_BUCKET_NAME env) (rf_s3_key audio)
      (audio_path rid) = None ->
    transcribe_file env (audio_path rid) = Ok response ->
    first_alternative response = Ok alt ->
    run_task env m w = (r, w') ->
    let text := lit "'" ++ alt_class alt
                ++ lit "' object has no attribute 'utterances'" in
    calls w'
    = calls w ++ [ CallDownload (rf_s3_key audio) (audio_path rid);
                   CallDeepgram (audio_path rid) ]
    /\ transcriptions (db w') = transcriptions (db w)
    /\ segments (db w') = segments (db w)
    /\ (exists st,
          steps (db w') = steps (db w) ++ [st]
          /\ step_job st = job_id job /\ step_name st = speech_to_text
          /\ step_status st = failed
          /\ step_error_message st = text)
    /\ retry_disposition env m 180 (AttributeError text) (queue w) r (queue w')
    /\ In (audio_path rid) (tmp w').
Proof.
  intros env m rid w w' r rec job audio response alt Hf Ht Ha Hrec Hjob Hconf
         Hkey Hfile Hdl Hcall Halt Hrun text.
  pose proof (@transcription_answered_run env m rid w rec job audio response
                alt Hf Hrec Hjob Hconf Hkey Hfile Hdl Hcall Halt) as Hwp.
  cbv zeta in Hwp.
  change (transcribe_audio m rid)
    with (task_body T_transcribe_audio m rid) in Hwp.
  rewrite <- Ht in Hwp.
  destruct (@run_task_body env m rid w _ r w' Ha Hwp Hrun) as (s' & <- & HQ).
  exact HQ.
Qed.

(** R1 with conversion and extraction done; the service answers with two
    utterances. *)
Lemma transcription_answer_is_lost_witness :
  let w := snd (Scenario.run_upto 3 Scenario.env_ok Scenario.uploaded) in
  let m := Scenario.msg T_transcribe_audio 100%N 0 in
  let env := Scenario.env_ok in
  let run := run_task env m w in
  exists text,
    transcriptions (db (snd run)) = transcriptions (db w)
    /\ segments (db (snd run)) = segments (db w)
    /\ (exists st,
          steps (db (snd run)) = steps (db w) ++ [st]
          /\ step_job st = 1%N /\ step_name st = speech_to_text
          /\ step_status st = failed
          /\ step_error_message st = text)
    /\ retry_disposition env m 180 (AttributeError text) (queue w) (fst run)
         (queue (snd run))
    /\ In (audio_path Scenario.R1) (tmp (snd run)).
Proof.
  intros w m env run. eexists.
  refine (proj2 (@transcription_answer_is_lost env m Scenario.R1 w (snd run)
            (fst run)
            _ {| job_id := 1%N; job_recording := Scenario.R1;
                 job_celery_task_id := 100%N; job_status := running;
                 job_current_step := []; job_progress_percentage := 0%Z;
                 job_error_message := [];
                 job_retry_count := 0%Z; job_max_retries := 3%Z;
                 job_created_at := 3%Z; job_started_at := Some 2%Z;
                 job_completed_at := None |} _ Scenario.response2 _
            _ _ _ _ _ _ _ _ _ _ _ _)).
  - vm_compute. reflexivity.
  - reflexivity.
  - reflexivity.
  - vm_compute. reflexivity.
  - vm_compute. reflexivity.
  - vm_compute. reflexivity.
  - reflexivity.
  - vm_compute. reflexivity.
  - reflexivity.
  - reflexivity.
  - reflexivity.
  - apply surjective_pairing.
Defined.

Lemma transcribe_never_returns_run env (m : Message) (rid : str) (w : World) :
  wp (transcribe_audio m rid) env (start w)
     (fun r s' =>
        (forall v, r <> Ok v)
        /\ transcriptions (db (world s')) = transcriptions (db w)
        /\ segments (db (world s')) = segments (db w)).
Proof.
  unfold transcribe_audio, start. wp_run.
  all: norm_state; split; [discriminate|split; reflexivity].
Qed.

(** X20. No attempt of the transcription stage returns, and none stores a
    transcription or a segment: whatever the environment, the state and the
    message, the attempt raises (so does its delivery), and the two tables
    are as before. *)
Theorem transcription_never_returns :
  forall (env : Env) (m : Message) (w : World),
    msg_task m = T_transcribe_audio ->
    (forall v, fst (deliver env m w) <> Ok v)
    /\ (forall v, fst (run_task env m w) <> Ok v)
    /\ transcriptions (db (snd (run_task env m w))) = transcriptions (db w)
    /\ segments (db (snd (run_task env m w))) = segments (db w).
Proof.
  intros env m w Ht.
  assert (H : (forall v, fst (run_task env m w) <> Ok v)
              /\ transcriptions (db (snd (run_task env m w)))
                 = transcriptions (db w)
              /\ segments (db (snd (run_task env m w))) = segments (db w)).
  { unfold run_task. destruct (msg_args m) as [|rid [|x args]].
    - cbn [fst snd]. split; [discriminate|split; reflexivity].
    - rewrite Ht. cbn [task_body].
      pose proof (@transcribe_never_returns_run env m rid w) as Hwp.
      unfold wp, start in Hwp.
      destruct (transcribe_audio m rid env _) as [r s']. exact Hwp.
    - cbn [fst snd]. split; [discriminate|split; reflexivity]. }
  split; [|exact H].
  intros v. unfold deliver. destruct H as (H & _).
  destruct (run_task env m w) as [[v0|e] w1]; cbn [fst] in *.
  - now destruct (H v0).
  - discriminate.
Qed.

Lemma transcription_never_returns_witness :
  let w := snd (Scenario.run_upto 3 Scenario.env_ok Scenario.uploaded) in
  let m := Scenario.msg T_transcribe_audio 100%N 0 in
  (forall v, fst (deliver Scenario.env_ok m w) <> Ok v)
  /\ (forall v, fst (run_task Scenario.env_ok m w) <> Ok v)
  /\ transcriptions (db (snd (run_task Scenario.env_ok m w))) = []
  /\ segments (db (snd (run_task Scenario.env_ok m w))) = [].
Proof.
  intros w m.
  exact (@transcription_never_returns Scenario.env_ok m w eq_refl).
Defined.

(** X18. Retrying is futile once the step row exists. If an attempt of a
    stage, from a state with fresh keys, has left a step row (it returned,
    or it failed at any point after creating the row), then no later
    attempt of that stage for the recording returns, in whatever
    environment: the attempt is refused at the insert of its step row,
    calls no adapter and leaves the steps as they are. In particular the
    retries that [self.retry] schedules after such a failure cannot
    succeed. *)
Theorem step_row_blocks_later_attempts :
  forall (n : StepName) (env : Env) (m : Message) (rid : str) (w w1 : World)
         (r : result str),
    fresh_keys w = true ->
    msg_task m = task_of n -> msg_args m = [rid] ->
    run_task env m w = (r, w1) ->
    steps (db w1) <> steps (db w) ->
    forall (env2 : Env) (m2 : Message) (r2 : result str) (w2 : World),
      msg_task m2 = task_of n -> msg_args m2 = [rid] ->
      run_task env2 m2 w1 = (r2, w2) ->
      (forall v, r2 <> Ok v)
      /\ steps (db w2) = steps (db w1) /\ calls w2 = calls w1.
Proof.
  intros n env m rid w w1 r Hf Ht Ha Hrun Hne env2 m2 r2 w2 Ht2 Ha2 Hrun2.
  destruct (@step_origin n env m rid w w1 r Hf Ht Ha Hrun)
    as [Hsame|(rec & job & st & Hrec & Hjob & Hsteps & Hsj & Hsn)];
    [contradiction|].
  assert (Hrows : exists rec1 job1,
             recording_rows rid w1 = [rec1] /\ job_rows rid w1 = [job1]
             /\ job_id job1 = job_id job).
  { pose proof (@stage_attempt n env m rid w r w1 Hf Ht Ha Hrun) as Hout.
    unfold stage_outcome in Hout. destruct r as [v|e].
    - destruct n; cbn [stage_succeeded] in Hout.
      + destruct Hout as (_ & _ & _ & _ & Hr & Hj & _).
        exists rec, job. rewrite (@recording_rows_same rid w w1 Hr), (@job_rows_same rid w w1 Hj).
        auto.
      + destruct Hout as (_ & _ & _ & _ & Hr & Hj & _).
        exists rec, job. rewrite (@recording_rows_same rid w w1 Hr), (@job_rows_same rid w w1 Hj).
        auto.
      + destruct Hout.
      + destruct Hout as (_ & _ & _ & _ & _ & _ & _ & (rec' & Hr & _)
                          & (j0 & j1 & Hj0 & Hj1 & Hjid & _)).
        rewrite Hjob in Hj0. injection Hj0 as <-.
        exists rec', j1. auto.
    - destruct Hout as (Hj & _ & [(_ & _ & _ & _ & Hs & _)|(exc & _ & _ & Hm)]).
      + now destruct Hne.
      + assert (Hjr : job_rows rid w1 = [job])
          by (rewrite (@job_rows_same rid w w1 Hj); exact Hjob).
        destruct n; cbn [recording_marked] in Hm.
        * exists rec, job. rewrite (@recording_rows_same rid w w1 Hm). auto.
        * exists rec, job. rewrite (@recording_rows_same rid w w1 Hm). auto.
        * exists rec, job. rewrite (@recording_rows_same rid w w1 Hm). auto.
        * destruct Hm as (_ & rec' & _ & Hr & _). exists rec', job. auto. }
  destruct Hrows as (rec1 & job1 & Hrec1 & Hjob1 & Hid1).
  assert (Hconf : step_conflict (job_id job1) n (steps (db w1)) = true).
  { apply (@step_conflict_In (job_id job1) n (steps (db w1)) st).
    - rewrite Hsteps. apply in_or_app. right. now left.
    - now rewrite Hid1.
    - exact Hsn. }
  destruct (@refused_attempt n env2 m2 rid w1 w2 r2 rec1 job1
              Ht2 Ha2 Hrec1 Hjob1 Hconf Hrun2)
    as (Hr & Hc & _ & Hs & _).
  auto.
Qed.

(** The conversion of R1 fails at ffmpeg; the retry, with a working
    ffmpeg, is refused all the same. *)
Lemma step_row_blocks_later_attempts_witness :
  let w := snd (Scenario.run_upto 1 Scenario.env_ok Scenario.uploaded) in
  let m := Scenario.msg T_convert_webm_to_mp4 100%N 0 in
  let w1 := snd (run_task Scenario.env_ffmpeg_fails m w) in
  let run2 := run_task Scenario.env_ok (retry_message m 120) w1 in
  (forall v, fst run2 <> Ok v)
  /\ steps (db (snd run2)) = steps (db w1) /\ calls (snd run2) = calls w1.
Proof.
  intros w m w1 run2.
  refine (@step_row_blocks_later_attempts video_conversion
            Scenario.env_ffmpeg_fails m Scenario.R1 w w1
            (fst (run_task Scenario.env_ffmpeg_fails m w)) _ _ _ _ _
            Scenario.env_ok (retry_message m 120) (fst run2) (snd run2) _ _ _).
  - vm_compute. reflexivity.
  - reflexivity.
  - reflexivity.
  - apply surjective_pairing.
  - vm_compute. intros E. apply (f_equal (@List.length _)) in E. discriminate E.
  - reflexivity.
  - reflexivity.
  - apply surjective_pairing.
Defined.

Lemma NoDup_snoc {A} (l : list A) (a : A) :
  NoDup l -> ~ In a l -> NoDup (l ++ [a]).
Proof.
  induction l as [|x l IH]; intros Hnd Hin; cbn.
  - constructor; [intros []|constructor].
  - inversion Hnd as [|? ? Hx Hl]; subst. constructor.
    + intros H. apply in_app_or in H. destruct H as [H|[->|[]]].
      * contradiction.
      * apply Hin. now left.
    + apply IH; [assumption|]. intros H. apply Hin. now right.
Qed.

(** X19. Every attempt of a stage keeps the steps unique per job and
    stage: from a state with fresh keys in which no job has two steps of
    the same stage, the state after the attempt (returned or raised) has
    none either. *)
Theorem stage_attempt_keeps_steps_unique :
  forall (n : StepName) (env : Env) (m : Message) (rid : str) (w w' : World)
         (r : result str),
    fresh_keys w = true ->
    msg_task m = task_of n -> msg_args m = [rid] ->
    run_task env m w = (r, w') ->
    unique_steps w -> unique_steps w'.
Proof.
  intros n env m rid w w' r Hf Ht Ha Hrun Hu. unfold unique_steps in *.
  destruct (@step_origin n env m rid w w' r Hf Ht Ha Hrun)
    as [->|(rec & job & st & Hrec & Hjob & Hsteps & Hsj & Hsn)];
    [exact Hu|].
  rewrite Hsteps, map_app. cbn [map]. apply NoDup_snoc; [exact Hu|].
  intros Hin. apply in_map_iff in Hin. destruct Hin as (st0 & E & Hin0).
  injection E as Ej En.
  assert (Hconf : step_conflict (job_id job) n (steps (db w)) = true).
  { apply (@step_conflict_In (job_id job) n (steps (db w)) st0); congruence. }
  destruct (@refused_attempt n env m rid w w' r rec job Ht Ha Hrec Hjob Hconf Hrun)
    as (_ & _ & _ & Hs & _).
  unfold same_steps in Hs. rewrite Hsteps in Hs.
  apply (f_equal (@List.length _)) in Hs. rewrite length_app in Hs.
  cbn in Hs. lia.
Qed.

Lemma stage_attempt_keeps_steps_unique_witness :
  let w := snd (Scenario.run_upto 2 Scenario.env_ok Scenario.uploaded) in
  let m := Scenario.msg T_extract_audio_from_video 100%N 0 in
  unique_steps (snd (run_task Scenario.env_ffmpeg_fails m w)).
Proof.
  intros w m.
  refine (@stage_attempt_keeps_steps_unique audio_extraction
            Scenario.env_ffmpeg_fails m Scenario.R1 w _
            (fst (run_task Scenario.env_ffmpeg_fails m w)) _ _ _ _ _).
  - vm_compute. reflexivity.
  - reflexivity.
  - reflexivity.
  - apply surjective_pairing.
  - unfold unique_steps. vm_compute. repeat constructor. intros [].
Defined.
(* ===================================================================== *)
(** * A stage that fails on every attempt *)
(* ===================================================================== *)

Lemma worker_idle (envs : list Env) (w : World) :
  queue w = [] -> worker envs w = ([], w).
Proof. intros H. destruct envs; cbn [worker]; [reflexivity|now rewrite H]. Qed.

(** X21. A stage that fails on every attempt. A worker that starts with
    one message of stage [n] on the queue, dispatched on its own (no chain),
    and sees every delivery fail makes at most [max_retries + 1] attempts,
    all of stage [n]; it creates no step of any other stage, and the only
    step it may add is the stage's own, marked failed. Nothing in these
    attempts writes the jobs: they are left exactly as they were; and so
    are the recordings unless the stage is the analysis stage. *)
Theorem all_attempts_failing :
  forall (n : StepName) (rid : str) (envs : list Env) (m : Message)
         (w w' : World) (log : list (Message * result str)),
    fresh_keys w = true ->
    msg_task m = task_of n -> msg_args m = [rid] -> msg_chain m = [] ->
    queue w = [m] ->
    msg_retries m <= max_retries (task_of n) ->
    worker envs w = (log, w') ->
    Forall (fun a => forall v, snd a <> Ok v) log ->
    jobs (db w') = jobs (db w)
    /\ (forall st, In st (steps (db w')) ->
          In st (steps (db w)) \/ (step_name st = n /\ step_status st = failed))
    /\ (n <> ai_analysis -> recordings (db w') = recordings (db w))
    /\ List.length log <= S (max_retries (task_of n)) - msg_retries m
    /\ Forall (fun a => msg_task (fst a) = task_of n) log.
Proof.
  intros n rid envs. induction envs as [|env envs IH];
    intros m w w' log Hf Ht Ha Hc Hq Hle Hrun Hall.
  { cbn [worker] in Hrun. injection Hrun as <- <-.
    split; [reflexivity|]. split; [now left|]. split; [reflexivity|].
    split; [cbn [List.length]; lia|constructor]. }
  cbn [worker] in Hrun. rewrite Hq in Hrun.
  destruct (deliver env m (with_queue [] w)) as [r w1] eqn:Hd.
  destruct (worker envs w1) as [log2 w2] eqn:Hw.
  injection Hrun as <- <-.
  inversion Hall as [|a l Hr Hall2]; subst. cbn [snd] in Hr.
  unfold deliver in Hd.
  destruct (run_task env m (with_queue [] w)) as [[v|e] w1'] eqn:Hrun.
  { unfold continue_chain in Hd. rewrite Hc in Hd. unfold ret in Hd.
    injection Hd as <- _. now destruct (Hr v). }
  injection Hd as <- <-. clear Hr.
  assert (Hf0 : fresh_keys (with_queue [] w) = true) by exact Hf.
  pose proof (@stage_attempt n env m rid (with_queue [] w) (Raise e) w1'
                Hf0 Ht Ha Hrun) as Hout.
  cbn [stage_outcome] in Hout.
  destruct Hout as (Hjobs & Hf1 & Hcase).
  change (jobs (db (with_queue [] w))) with (jobs (db w)) in Hjobs.
  assert (Hone : queue w1' = [] ->
                 (forall st, In st (steps (db w1')) ->
                    In st (steps (db w))
                    \/ (step_name st = n /\ step_status st = failed)) ->
                 (n <> ai_analysis -> recordings (db w1') = recordings (db w)) ->
                 jobs (db w2) = jobs (db w)
                 /\ (forall st, In st (steps (db w2)) ->
                       In st (steps (db w))
                       \/ (step_name st = n /\ step_status st = failed))
                 /\ (n <> ai_analysis -> recordings (db w2) = recordings (db w))
                 /\ List.length ((m, Raise e) :: log2)
                    <= S (max_retries (task_of n)) - msg_retries m
                 /\ Forall (fun a => msg_task (fst a) = task_of n)
                      ((m, @Raise str e) :: log2)).
  { intros Hq1 Hs Hr. rewrite (@worker_idle envs w1' Hq1) in Hw.
    injection Hw as <- <-.
    split; [exact Hjobs|]. split; [exact Hs|]. split; [exact Hr|].
    split; [cbn [List.length]; lia|].
    constructor; [exact Ht|constructor]. }
  assert (Hsteps : forall exc, steps_marked n exc (with_queue [] w) w1' ->
                   forall st, In st (steps (db w1')) ->
                     In st (steps (db w))
                     \/ (step_name st = n /\ step_status st = failed)).
  { intros exc [Hs|(st' & Hs & Hn & Hst & _)] st Hin; rewrite Hs in Hin.
    - now left.
    - apply in_app_or in Hin. destruct Hin as [Hin|[<-|[]]]; auto. }
  assert (Hrecs : forall exc, recording_marked n rid exc (with_queue [] w) w1' ->
                  n <> ai_analysis -> recordings (db w1') = recordings (db w)).
  { intros exc Hm Hn. destruct n; try exact Hm. now destruct Hn. }
  destruct Hcase as [(_ & _ & _ & Hq1 & Hs & Hr)|(exc & Hdisp & Hmark & Hrec)].
  { apply Hone; [exact Hq1| |intros _; exact Hr].
    intros st Hin. rewrite Hs in Hin. now left. }
  unfold retry_disposition in Hdisp. rewrite Ht in Hdisp.
  change (queue (with_queue [] w)) with (@nil Message) in Hdisp.
  destruct (max_retries (task_of n) <? S (msg_retries m)) eqn:Hmax.
  { destruct Hdisp as [_ Hq1]. apply Hone; eauto. }
  destruct (broker_publish env _) eqn:Hpub.
  { destruct Hdisp as [_ Hq1]. apply Hone; eauto. }
  destruct Hdisp as [_ Hq1]. cbn [app] in Hq1.
  apply Nat.ltb_ge in Hmax.
  destruct (IH (retry_message m (retry_countdown (task_of n))) w1' w2 log2)
    as (Hj2 & Hs2 & Hr2 & Hlen & Htasks); auto.
  split; [congruence|]. split.
  { intros st Hin. destruct (Hs2 st Hin) as [Hin1|Hnew]; [|now right].
    eapply Hsteps; eassumption. }
  split.
  { intros Hn. rewrite (Hr2 Hn). eapply Hrecs; eassumption. }
  split.
  { cbn [List.length retry_message msg_retries] in *. lia. }
  constructor; [exact Ht|exact Htasks].
Qed.

(** The conversion of R1 with the object store refusing every download. *)
Lemma all_attempts_failing_witness :
  let env := Scenario.env_no_download in
  let w := with_queue [Scenario.msg T_convert_webm_to_mp4 100%N 0]
             (snd (Scenario.run_upto 1 Scenario.env_ok Scenario.uploaded)) in
  let log := fst (worker [env; env; env; env; env] w) in
  let w' := snd (worker [env; env; env; env; env] w) in
  jobs (db w') = jobs (db w)
  /\ (forall st, In st (steps (db w')) ->
        In st (steps (db w))
        \/ (step_name st = video_conversion /\ step_status st = failed))
  /\ (video_conversion <> ai_analysis -> recordings (db w') = recordings (db w))
  /\ List.length log <= 3 - 0
  /\ Forall (fun a => msg_task (fst a) = T_convert_webm_to_mp4) log.
Proof.
  intros env w log w'.
  refine (@all_attempts_failing video_conversion Scenario.R1
            [env; env; env; env; env]
            (Scenario.msg T_convert_webm_to_mp4 100%N 0) w w' log
            _ _ _ _ _ _ _ _).
  - vm_compute. reflexivity.
  - reflexivity.
  - reflexivity.
  - reflexivity.
  - reflexivity.
  - vm_compute. lia.
  - apply surjective_pairing.
  - vm_compute. repeat (constructor; [intros v; discriminate|]). constructor.
Defined.

